(** * MetaApp indexer and deploy worker: a shallow embedding

    The definitions below follow the Go sources of meta-app-service:
    the Pebble-backed store ([database]), the indexer core and the deploy
    worker ([service/indexer_service]) and the MVC transaction hash
    ([common]).  Integers of Go type [int64] are modelled as [Z] with the
    wrap-around written out, Go strings as [string], byte slices as
    [list byte].  A Pebble collection that the code only reads by key is a
    [gmap string V]; a collection that the code iterates in key order is an
    association list kept sorted by the byte-wise order of its keys. *)

From Stdlib Require Import ZArith String Ascii List Lia DecimalString.
From Stdlib.Strings Require Import Byte.
From Stdlib Require Import OrdersEx Sorting.Sorted.
From stdpp Require Import gmap strings list.

Open Scope Z_scope.
Open Scope string_scope.

(** ** Machine integers *)

Module Int64.
Definition MaxInt64 : Z := 9223372036854775807.

(** Two's-complement wrap-around of a 64-bit signed integer. *)
Definition wrap (z : Z) : Z := (z + 2 ^ 63) mod 2 ^ 64 - 2 ^ 63.

Definition sub (a b : Z) : Z := wrap (a - b).
Definition add (a b : Z) : Z := wrap (a + b).
Definition mul (a b : Z) : Z := wrap (a * b).
End Int64.

(** ** Go string helpers ([strings], [strconv], [regexp]) *)

Module Strings.

(** [strings.HasPrefix s p] *)
Definition HasPrefix (s p : string) : bool := String.prefix p s.

(** [strings.TrimPrefix s p] *)
Definition TrimPrefix (s p : string) : string :=
  if HasPrefix s p
  then String.substring (String.length p) (String.length s - String.length p) s
  else s.

(** [strings.HasSuffix s p] *)
Definition HasSuffix (s p : string) : bool :=
  (String.length p <=? String.length s)%nat
  && String.eqb
       (String.substring (String.length s - String.length p) (String.length p) s) p.

(** [strings.TrimSuffix s p] *)
Definition TrimSuffix (s p : string) : string :=
  if HasSuffix s p
  then String.substring 0 (String.length s - String.length p) s
  else s.

(** [strings.Contains s sub] *)
Fixpoint Contains (s sub : string) : bool :=
  String.prefix sub s
  || match s with
     | EmptyString => false
     | String _ r => Contains r sub
     end.

(** The last element of [strings.Split s sep] for a one-character
    separator: what follows the last occurrence of [sep] (all of [s] when
    there is none). *)
Fixpoint SplitLast (sep : ascii) (s : string) : string :=
  match s with
  | EmptyString => EmptyString
  | String c r =>
      if Ascii.eqb c sep
      then SplitLast sep r
      else if Contains r (String sep EmptyString)
           then SplitLast sep r
           else s
  end.

Definition lower_ascii (c : ascii) : ascii :=
  let n := nat_of_ascii c in
  if ((65 <=? n) && (n <=? 90))%nat then ascii_of_nat (n + 32) else c.

(** [strings.ToLower] on ASCII text. *)
Fixpoint ToLower (s : string) : string :=
  match s with
  | EmptyString => EmptyString
  | String c r => String (lower_ascii c) (ToLower r)
  end.

(** [strconv.FormatInt z 10] *)
Definition FormatInt (z : Z) : string := NilZero.string_of_int (Z.to_int z).

Definition is_digit (c : ascii) : bool :=
  let n := nat_of_ascii c in ((48 <=? n) && (n <=? 57))%nat.

Definition is_lower_hex (c : ascii) : bool :=
  let n := nat_of_ascii c in
  is_digit c || ((97 <=? n) && (n <=? 102))%nat.

Fixpoint all_chars (p : ascii -> bool) (s : string) : bool :=
  match s with
  | EmptyString => true
  | String c r => p c && all_chars p r
  end.

(** [regexp.MatchString `^[0-9a-f]{64}i\d+$`]: 64 lowercase hex digits,
    the letter [i], then one or more decimal digits. *)
Definition MatchPinID (s : string) : bool :=
  let txid := String.substring 0 64 s in
  let rest := String.substring 64 (String.length s - 64) s in
  (String.length txid =? 64)%nat
  && all_chars is_lower_hex txid
  && match rest with
     | String "i"%char (String d ds) => is_digit d && all_chars is_digit ds
     | _ => false
     end.

End Strings.

(** ** Errors *)

Inductive result (A : Type) : Type :=
| Ok (a : A)
| Err (msg : string).
Arguments Ok {A} a.
Arguments Err {A} msg.

(** [database.ErrNotFound] *)
Definition ErrNotFound : string := "record not found".

(** ** An ordered key-value collection (one Pebble instance)

    Keys are compared byte-wise, as Pebble's default comparer does; the list
    is kept in increasing key order, so that a forward iterator is the list
    itself and [iter.First()] is its head. *)

Module KV.
Section Ops.
Context {V : Type}.

Definition t : Type := list (string * V).

Definition empty : t := [].

(** [db.Set(key, value)]: insert, or overwrite the value of an existing key. *)
Fixpoint Set_ (k : string) (v : V) (db : t) : t :=
  match db with
  | [] => [(k, v)]
  | (k', v') :: rest =>
      match String.compare k k' with
      | Lt => (k, v) :: (k', v') :: rest
      | Eq => (k, v) :: rest
      | Gt => (k', v') :: Set_ k v rest
      end
  end.

(** [db.Delete(key)]: deleting an absent key is not an error. *)
Fixpoint Delete (k : string) (db : t) : t :=
  match db with
  | [] => []
  | (k', v') :: rest =>
      if String.eqb k k' then rest else (k', v') :: Delete k rest
  end.

(** [db.Get(key)] *)
Fixpoint Get (k : string) (db : t) : option V :=
  match db with
  | [] => None
  | (k', v') :: rest => if String.eqb k k' then Some v' else Get k rest
  end.

(** [iter.First()] of an unbounded iterator. *)
Definition First (db : t) : option (string * V) := head db.

(** The entries an iterator with [LowerBound lo] (inclusive) and
    [UpperBound hi] (exclusive) visits. *)
Definition in_bounds (lo hi k : string) : bool :=
  String.leb lo k && String.ltb k hi.

Definition keys (db : t) : list string := map fst db.
End Ops.
Arguments t V : clear implicits.
End KV.

(** ** Models ([models/meta_app_model.go], [models/meta_app_deploy.go]) *)

(** [time.Time] values are kept as an abstract clock reading. *)
Definition Time : Type := Z.

Record MetaApp : Type := mkMetaApp {
  FirstPinId : string;
  PinID : string;
  TxID : string;
  Vout : Z;
  Path : string;
  Operation : string;
  ParentPath : string;
  Title : string;
  AppName : string;
  Prompt : string;
  Icon : string;
  CoverImg : string;
  IntroImgs : list string;
  Intro : string;
  Runtime : string;
  IndexFile : string;
  Version : string;
  ContentType : string;
  Content : string;
  Code : string;
  ContentHash : string;
  Metadata : string;
  Disabled : bool;
  ChainName : string;
  BlockHeight : Z;
  Timestamp : Z;
  CreatorMetaId : string;
  CreatorAddress : string;
  OwnerAddress : string;
  OwnerMetaId : string;
  Status : Z;
  State : Z;
  CreatedAt : Time;
  UpdatedAt : Time
}.

(** [app.FirstPinId = v] *)
Definition set_FirstPinId (v : string) (a : MetaApp) : MetaApp :=
  mkMetaApp v (PinID a) (TxID a) (Vout a) (Path a) (Operation a) (ParentPath a)
    (Title a) (AppName a) (Prompt a) (Icon a) (CoverImg a) (IntroImgs a)
    (Intro a) (Runtime a) (IndexFile a) (Version a) (ContentType a) (Content a)
    (Code a) (ContentHash a) (Metadata a) (Disabled a) (ChainName a)
    (BlockHeight a) (Timestamp a) (CreatorMetaId a) (CreatorAddress a)
    (OwnerAddress a) (OwnerMetaId a) (Status a) (State a) (CreatedAt a)
    (UpdatedAt a).

(** [app.BlockHeight = v] *)
Definition set_BlockHeight (v : Z) (a : MetaApp) : MetaApp :=
  mkMetaApp (FirstPinId a) (PinID a) (TxID a) (Vout a) (Path a) (Operation a)
    (ParentPath a) (Title a) (AppName a) (Prompt a) (Icon a) (CoverImg a)
    (IntroImgs a) (Intro a) (Runtime a) (IndexFile a) (Version a)
    (ContentType a) (Content a) (Code a) (ContentHash a) (Metadata a)
    (Disabled a) (ChainName a) v (Timestamp a) (CreatorMetaId a)
    (CreatorAddress a) (OwnerAddress a) (OwnerMetaId a) (Status a) (State a)
    (CreatedAt a) (UpdatedAt a).

Record MetaAppDeployQueue : Type := mkQueue {
  qFirstPinId : string;
  qPinID : string;
  qTimestamp : Z;
  qContent : string;
  qCode : string;
  qContentType : string;
  qVersion : string;
  qTryCount : Z;
  qCreatedAt : Time
}.

(** [queueItem.TryCount = v] *)
Definition set_TryCount (v : Z) (q : MetaAppDeployQueue) : MetaAppDeployQueue :=
  mkQueue (qFirstPinId q) (qPinID q) (qTimestamp q) (qContent q) (qCode q)
    (qContentType q) (qVersion q) v (qCreatedAt q).

Record MetaAppDeployFileContent : Type := mkDeployContent {
  dFirstPinId : string;
  dPinID : string;
  dContent : string;
  dCode : string;
  dContentType : string;
  dVersion : string;
  DeployStatus : string;
  DeployFilePath : string;
  DeployMessage : string;
  dCreatedAt : Time;
  dUpdatedAt : Time
}.

(** The payload of a MetaApp inscription ([metaid_protocols.MetaApp]). *)
Record MetaAppProto : Type := mkProto {
  pTitle : string;
  pAppName : string;
  pPrompt : string;
  pIcon : string;
  pCoverImg : string;
  pIntroImgs : list string;
  pIntro : string;
  pRuntime : string;
  pIndexFile : string;
  pVersion : string;
  pContentType : string;
  pContent : string;
  pCode : string;
  pContentHash : string;
  pMetadata : string;
  pDisabled : bool
}.

(** [metaid_protocols.ProtocolList] *)
Definition MonitorMetaApp : string := "metaapp".
Definition ProtocolList : list string :=
  ["/protocols/" ++ Strings.ToLower MonitorMetaApp].

(** One decoded inscription ([indexer.MetaIDData]). *)
Record MetaIDData : Type := mkMetaIDData {
  mPinID : string;
  mOperation : string;
  mOriginalPath : string;
  mHost : string;
  mPath : string;
  mParentPath : string;
  mEncryption : string;
  mVersion : string;
  mContentType : string;
  mContent : list byte;
  mTxID : string;
  mVout : Z;
  mCreatorInputLocation : string;
  mCreatorAddress : string;
  mOwnerAddress : string;
  mChainName : string
}.

(** ** The Pebble database ([database], PebbleDatabase)

    Values are kept as the records themselves: [json.Marshal] followed by
    [json.Unmarshal] on these structs gives the record back.  Storage
    failures of Pebble itself are outside the model: [Set] and [Delete]
    always succeed. *)

Record PebbleDatabase : Type := mkDB {
  metaapp_pin : gmap string MetaApp;
  metaapp_pin_latest : gmap string MetaApp;
  metaapp_pin_history : gmap string (list MetaApp);
  metaapp_meta_timestamp : KV.t MetaApp;
  metaapp_timestamp : KV.t MetaApp;
  metaapp_deploy_file_content : gmap string MetaAppDeployFileContent;
  metaapp_deploy_queue : KV.t MetaAppDeployQueue
}.

Definition emptyDB : PebbleDatabase :=
  mkDB ∅ ∅ ∅ KV.empty KV.empty ∅ KV.empty.

Definition with_queue (q : KV.t MetaAppDeployQueue) (db : PebbleDatabase)
  : PebbleDatabase :=
  mkDB (metaapp_pin db) (metaapp_pin_latest db) (metaapp_pin_history db)
    (metaapp_meta_timestamp db) (metaapp_timestamp db)
    (metaapp_deploy_file_content db) q.

Definition with_deploy_file_content
  (c : gmap string MetaAppDeployFileContent) (db : PebbleDatabase)
  : PebbleDatabase :=
  mkDB (metaapp_pin db) (metaapp_pin_latest db) (metaapp_pin_history db)
    (metaapp_meta_timestamp db) (metaapp_timestamp db) c
    (metaapp_deploy_queue db).

Module Database.

(** [int64(^uint64(0)>>1) - ts], formatted in decimal. *)
Definition reverseTimestampKey (ts : Z) : string :=
  Strings.FormatInt (Int64.sub Int64.MaxInt64 ts).

(** Insertion of one record in front of a slice ordered by [Timestamp]
    descending.  Records of equal timestamp keep their order, as with the
    insertion sort [sort.Slice] runs on short slices; for longer ones Go
    leaves the order of equal elements unspecified, and nothing below
    depends on it. *)
Fixpoint insertByTimestampDesc (a : MetaApp) (l : list MetaApp) : list MetaApp :=
  match l with
  | [] => [a]
  | b :: r =>
      if (Timestamp b <=? Timestamp a)%Z
      then a :: b :: r
      else b :: insertByTimestampDesc a r
  end.

(** [sort.Slice(history, func(i, j) { return history[i].Timestamp >
    history[j].Timestamp })] *)
Definition sortByTimestampDesc (l : list MetaApp) : list MetaApp :=
  fold_right insertByTimestampDesc [] l.

(** [addToHistory]: read the stored slice (empty when absent), append the
    record, sort newest first, store. *)
Definition addToHistory (firstPinID : string) (app : MetaApp)
    (h : gmap string (list MetaApp)) : gmap string (list MetaApp) :=
  let history := default [] (h !! firstPinID) in
  let history := (history ++ [app])%list in
  <[firstPinID := sortByTimestampDesc history]> h.

(** The loop of [CreateMetaApp] that removes the stale index entries of a
    logical app: every visited key that ends in [":" ++ firstPinID] and is
    not the key about to be written is deleted. *)
Definition deleteStale {V} (visited : string -> bool) (firstPinID newKey : string)
    (db : KV.t V) : KV.t V :=
  fold_left
    (fun acc kv =>
       let key := fst kv in
       if visited key
          && Strings.HasSuffix key (":" ++ firstPinID)
          && negb (String.eqb key newKey)
       then KV.Delete key acc
       else acc)
    db db.

(** [CreateMetaApp]: returns the database and the record as the caller
    sees it afterwards (the function fills [app.FirstPinId] in place). *)
Definition CreateMetaApp (db : PebbleDatabase) (app : MetaApp)
  : PebbleDatabase * MetaApp :=
  let firstPinID := if String.eqb (FirstPinId app) "" then PinID app
                    else FirstPinId app in
  let app := if String.eqb (FirstPinId app) "" then set_FirstPinId firstPinID app
             else app in
  let pin := <[PinID app := app]> (metaapp_pin db) in
  let latest := <[firstPinID := app]> (metaapp_pin_latest db) in
  let history := addToHistory firstPinID app (metaapp_pin_history db) in
  let rtsKey := reverseTimestampKey (Timestamp app) in
  let metaIDTimestampKey := CreatorMetaId app ++ ":" ++ rtsKey ++ ":" ++ firstPinID in
  let prefix := CreatorMetaId app ++ ":" in
  let byCreator :=
    KV.Set_ metaIDTimestampKey app
      (deleteStale (KV.in_bounds prefix (prefix ++ "~")) firstPinID
         metaIDTimestampKey (metaapp_meta_timestamp db)) in
  let timestampIndexKey := rtsKey ++ ":" ++ firstPinID in
  let byTime :=
    KV.Set_ timestampIndexKey app
      (deleteStale (fun _ => true) firstPinID timestampIndexKey
         (metaapp_timestamp db)) in
  (mkDB pin latest history byCreator byTime
     (metaapp_deploy_file_content db) (metaapp_deploy_queue db),
   app).

(** [GetMetaAppByPinID] *)
Definition GetMetaAppByPinID (db : PebbleDatabase) (pinID : string)
  : result MetaApp :=
  match metaapp_pin db !! pinID with
  | Some app => Ok app
  | None => Err ErrNotFound
  end.

(** [UpdateMetaApp]: "Simply recreate (overwrite)". *)
Definition UpdateMetaApp (db : PebbleDatabase) (app : MetaApp)
  : PebbleDatabase * MetaApp :=
  CreateMetaApp db app.

(** [GetLatestMetaAppByFirstPinID] *)
Definition GetLatestMetaAppByFirstPinID (db : PebbleDatabase) (firstPinID : string)
  : result MetaApp :=
  match metaapp_pin_latest db !! firstPinID with
  | Some app => Ok app
  | None => Err ErrNotFound
  end.

(** *** Deploy queue *)

Definition queueKey (queue : MetaAppDeployQueue) : string :=
  reverseTimestampKey (qTimestamp queue) ++ ":" ++ qPinID queue.

(** [AddToDeployQueue] *)
Definition AddToDeployQueue (db : PebbleDatabase) (queue : MetaAppDeployQueue)
  : PebbleDatabase :=
  with_queue (KV.Set_ (queueKey queue) queue (metaapp_deploy_queue db)) db.

(** The first entry, in key order, whose value carries [pinID]: the scan
    shared by [GetDeployQueueItem], [UpdateDeployQueueItem] and
    [RemoveFromDeployQueue]. *)
Fixpoint findByPinID (pinID : string) (q : KV.t MetaAppDeployQueue)
  : option (string * MetaAppDeployQueue) :=
  match q with
  | [] => None
  | (k, item) :: rest =>
      if String.eqb (qPinID item) pinID then Some (k, item)
      else findByPinID pinID rest
  end.

(** [GetDeployQueueItem] *)
Definition GetDeployQueueItem (db : PebbleDatabase) (pinID : string)
  : result MetaAppDeployQueue :=
  match findByPinID pinID (metaapp_deploy_queue db) with
  | Some (_, item) => Ok item
  | None => Err ErrNotFound
  end.

(** [UpdateDeployQueueItem] *)
Definition UpdateDeployQueueItem (db : PebbleDatabase) (queue : MetaAppDeployQueue)
  : PebbleDatabase * option string :=
  match findByPinID (qPinID queue) (metaapp_deploy_queue db) with
  | Some (k, _) =>
      (with_queue (KV.Set_ k queue (metaapp_deploy_queue db)) db, None)
  | None => (db, Some ErrNotFound)
  end.

(** [RemoveFromDeployQueue] *)
Definition RemoveFromDeployQueue (db : PebbleDatabase) (pinID : string)
  : PebbleDatabase * option string :=
  match findByPinID pinID (metaapp_deploy_queue db) with
  | Some (k, _) =>
      (with_queue (KV.Delete k (metaapp_deploy_queue db)) db, None)
  | None => (db, Some ErrNotFound)
  end.

(** [GetNextDeployQueueItem]: the value under the first key. *)
Definition GetNextDeployQueueItem (db : PebbleDatabase)
  : result MetaAppDeployQueue :=
  match KV.First (metaapp_deploy_queue db) with
  | Some (_, item) => Ok item
  | None => Err ErrNotFound
  end.

(** [CreateOrUpdateDeployFileContent] *)
Definition CreateOrUpdateDeployFileContent (db : PebbleDatabase)
    (content : MetaAppDeployFileContent) : PebbleDatabase :=
  with_deploy_file_content
    (<[dPinID content := content]> (metaapp_deploy_file_content db)) db.

(** [GetDeployFileContent] *)
Definition GetDeployFileContent (db : PebbleDatabase) (pinID : string)
  : result MetaAppDeployFileContent :=
  match metaapp_deploy_file_content db !! pinID with
  | Some c => Ok c
  | None => Err ErrNotFound
  end.

End Database.

(** ** Collaborators outside the repository

    What the service calls but does not define: the SHA-256 of Go's
    [crypto/sha256], [encoding/json] on the inscription payload, and the
    node lookup behind [FindCreatorAddressFromCreatorInputLocation]. *)

Record IndexerEnv : Type := mkIndexerEnv {
  SHA256 : list byte -> list byte;
  json_Unmarshal : list byte -> option MetaAppProto;
  FindCreatorAddressFromCreatorInputLocation : string -> option string
}.

(** [hex.EncodeToString] *)
Module Hex.
Definition digit (n : N) : ascii :=
  match n with
  | 0 => "0" | 1 => "1" | 2 => "2" | 3 => "3" | 4 => "4" | 5 => "5"
  | 6 => "6" | 7 => "7" | 8 => "8" | 9 => "9" | 10 => "a" | 11 => "b"
  | 12 => "c" | 13 => "d" | 14 => "e" | _ => "f"
  end%N%char.

Fixpoint EncodeToString (bs : list byte) : string :=
  match bs with
  | [] => EmptyString
  | b :: r =>
      let n := Byte.to_N b in
      String (digit (n / 16)) (String (digit (n mod 16)) (EncodeToString r))
  end.
End Hex.

(** ** The indexer core ([service/indexer_service/indexer_service.go]) *)

Module IndexerService.
Import Strings.

Section WithEnv.
Context (E : IndexerEnv).

(** [isMetaAppPath] *)
Definition isMetaAppPath (path : string) : bool * bool :=
  if String.eqb path "" then (false, false)
  else if existsb (fun protocolPath =>
                     HasPrefix path protocolPath || Contains path protocolPath)
            ProtocolList
  then (true, false)
  else if HasPrefix path "@" then (true, true)
  else if Contains path "@" then
    let afterAt := TrimSuffix (SplitLast "@" path) "}" in
    if MatchPinID afterAt then (true, true) else (false, false)
  else (false, false).

(** [calculateMetaID] *)
Definition calculateMetaID (address : string) : string :=
  if String.eqb address "" then ""
  else Hex.EncodeToString (SHA256 E (list_byte_of_string address)).

(** [ensureMillisecondTimestamp] *)
Definition ensureMillisecondTimestamp (timestamp : Z) : Z :=
  if (timestamp <? 10000000000)%Z then Int64.mul timestamp 1000
  else timestamp.

(** [findFirstPinIDRecursive].  [visited] is the Go map shared by all the
    calls of one resolution.  The recursion is bounded by [fuel]; [None]
    is returned only when the fuel runs out, which
    [findFirstPinID_total] shows cannot happen from [findFirstPinID]. *)
Fixpoint findFirstPinIDRecursive (fuel : nat) (db : PebbleDatabase)
    (pinID : string) (visited : gset string) : option (result string) :=
  match fuel with
  | O => None
  | S fuel =>
      if bool_decide (pinID ∈ visited)
      then Some (Err ("circular reference detected for pinID: " ++ pinID))
      else
        let visited := {[pinID]} ∪ visited in
        match Database.GetMetaAppByPinID db pinID with
        | Err _ => Some (Err ("MetaApp not found for pinID " ++ pinID))
        | Ok metaApp =>
            if String.eqb (Operation metaApp) "create" then
              if negb (String.eqb (FirstPinId metaApp) "")
              then Some (Ok (FirstPinId metaApp))
              else Some (Ok (PinID metaApp))
            else if String.eqb (Operation metaApp) "modify" then
              if negb (String.eqb (FirstPinId metaApp) "") then
                if negb (String.eqb (FirstPinId metaApp) pinID)
                then findFirstPinIDRecursive fuel db (FirstPinId metaApp) visited
                else Some (Ok (FirstPinId metaApp))
              else
                let nextPinID := TrimPrefix (Path metaApp) "@" in
                if negb (String.eqb (Path metaApp) "")
                   && HasPrefix (Path metaApp) "@"
                   && negb (String.eqb nextPinID "")
                   && negb (String.eqb nextPinID pinID)
                then findFirstPinIDRecursive fuel db nextPinID visited
                else Some (Ok pinID)
            else Some (Ok pinID)
        end
  end.

(** One resolution, started with an empty visited map.  Every call but
    the last adds a stored pin id to [visited], so one more call than
    there are stored pins is enough. *)
Definition findFirstPinID (db : PebbleDatabase) (pinID : string)
  : option (result string) :=
  findFirstPinIDRecursive (S (size (metaapp_pin db))) db pinID ∅.

(** [extractFirstPinIDFromOriginalPath] *)
Definition extractFirstPinIDFromOriginalPath (db : PebbleDatabase)
    (path : string) : option (result string) :=
  if String.eqb path "" then Some (Err "path is empty")
  else
    let currentPinID := if HasPrefix path "@" then TrimPrefix path "@" else path in
    if String.eqb currentPinID ""
    then Some (Err ("invalid path format: " ++ path))
    else findFirstPinID db currentPinID.

(** [addToDeployQueue] *)
Definition addToDeployQueue (db : PebbleDatabase) (metaApp : MetaApp)
    (now : Time) : PebbleDatabase :=
  let codePinID :=
    if String.eqb (Code metaApp) "" then
      if negb (String.eqb (Content metaApp) "") then
        if HasPrefix (Content metaApp) "metafile://" then Content metaApp
        else "metafile://" ++ Content metaApp
      else ""
    else Code metaApp in
  if String.eqb codePinID "" then db
  else
    Database.AddToDeployQueue db
      (mkQueue (FirstPinId metaApp) (PinID metaApp) (Timestamp metaApp)
         (Content metaApp) codePinID (ContentType metaApp) (Version metaApp)
         0 now).

(** The record built by [processMetaAppContent] and
    [processMetaAppModify], which differ only in [firstPinID]. *)
Definition buildMetaApp (metaData : MetaIDData) (metaAppProto : MetaAppProto)
    (firstPinID : string) (height timestamp : Z) (now : Time) : MetaApp :=
  let creatorAddress :=
    if negb (String.eqb (mCreatorInputLocation metaData) "") then
      match FindCreatorAddressFromCreatorInputLocation E
              (mCreatorInputLocation metaData) with
      | Some realAddress => realAddress
      | None => mCreatorAddress metaData
      end
    else mCreatorAddress metaData in
  let metadataJSON :=
    if String.eqb (pMetadata metaAppProto) "" then "{}"
    else pMetadata metaAppProto in
  {| FirstPinId := firstPinID;
     PinID := mPinID metaData;
     TxID := mTxID metaData;
     Vout := mVout metaData;
     Path := mPath metaData;
     Operation := mOperation metaData;
     ParentPath := mParentPath metaData;
     Title := pTitle metaAppProto;
     AppName := pAppName metaAppProto;
     Prompt := pPrompt metaAppProto;
     Icon := pIcon metaAppProto;
     CoverImg := pCoverImg metaAppProto;
     IntroImgs := pIntroImgs metaAppProto;
     Intro := pIntro metaAppProto;
     Runtime := pRuntime metaAppProto;
     IndexFile := pIndexFile metaAppProto;
     Version := pVersion metaAppProto;
     ContentType := pContentType metaAppProto;
     Content := pContent metaAppProto;
     Code := pCode metaAppProto;
     ContentHash := pContentHash metaAppProto;
     Metadata := metadataJSON;
     Disabled := pDisabled metaAppProto;
     ChainName := mChainName metaData;
     BlockHeight := height;
     Timestamp := ensureMillisecondTimestamp timestamp;
     CreatorMetaId := calculateMetaID creatorAddress;
     CreatorAddress := creatorAddress;
     OwnerAddress := mOwnerAddress metaData;
     OwnerMetaId := calculateMetaID (mOwnerAddress metaData);
     Status := 1;
     State := 0;
     CreatedAt := now;
     UpdatedAt := now |}.

(** [processMetaAppModify]; with [firstPinID := metaData.PinID] it is
    [processMetaAppContent]. *)
Definition processMetaAppModify (db : PebbleDatabase) (metaData : MetaIDData)
    (firstPinID : string) (height timestamp : Z) (now : Time)
  : PebbleDatabase * option string :=
  match json_Unmarshal E (mContent metaData) with
  | None => (db, Some "failed to parse MetaApp JSON")
  | Some metaAppProto =>
      let metaApp :=
        buildMetaApp metaData metaAppProto firstPinID height timestamp now in
      let '(db, metaApp) := Database.CreateMetaApp db metaApp in
      (addToDeployQueue db metaApp now, None)
  end.

(** [processMetaAppContent] *)
Definition processMetaAppContent (db : PebbleDatabase) (metaData : MetaIDData)
    (height timestamp : Z) (now : Time) : PebbleDatabase * option string :=
  processMetaAppModify db metaData (mPinID metaData) height timestamp now.

(** The body of the loop of [handleTransaction] over the pins of one
    transaction.  [None] stands for a resolution that ran out of fuel. *)
Definition handleMetaIDData (db : PebbleDatabase) (metaData : MetaIDData)
    (height timestamp : Z) (now : Time) : option PebbleDatabase :=
  let '(isMetaApp, isPathPinID) := isMetaAppPath (mPath metaData) in
  if negb isMetaApp then Some db
  else
    match Database.GetMetaAppByPinID db (mPinID metaData) with
    | Ok existingApp =>
        if ((BlockHeight existingApp <? height) && (0 <? height))%Z
        then Some (fst (Database.UpdateMetaApp db
                          (set_BlockHeight height existingApp)))
        else Some db
    | Err _ =>
        if String.eqb (mOperation metaData) "modify"
           && negb (String.eqb (mPath metaData) "")
        then
          match extractFirstPinIDFromOriginalPath db (mPath metaData) with
          | None => None
          | Some (Err _) => Some db
          | Some (Ok firstPinID) =>
              if negb (String.eqb firstPinID "")
              then Some (fst (processMetaAppModify db metaData firstPinID
                                height timestamp now))
              else Some db
          end
        else if String.eqb (mOperation metaData) "create" && isPathPinID
        then Some db
        else Some (fst (processMetaAppContent db metaData height timestamp now))
    end.

(** [handleTransaction] *)
Fixpoint handleTransaction (db : PebbleDatabase) (pins : list MetaIDData)
    (height timestamp : Z) (now : Time) : option PebbleDatabase :=
  match pins with
  | [] => Some db
  | metaData :: rest =>
      match handleMetaIDData db metaData height timestamp now with
      | Some db => handleTransaction db rest height timestamp now
      | None => None
      end
  end.

(** [IndexerAppService.RedeployMetaApp] *)
Definition RedeployMetaApp (db : PebbleDatabase) (pinID : string) (now : Time)
  : PebbleDatabase * option string :=
  match Database.GetMetaAppByPinID db pinID with
  | Err e => (db, Some ("failed to get MetaApp: " ++ e))
  | Ok metaApp =>
      match Database.GetLatestMetaAppByFirstPinID db (FirstPinId metaApp) with
      | Err e => (db, Some e)
      | Ok fristMetaApp =>
          let deployPinId := PinID fristMetaApp in
          match Database.GetDeployQueueItem db deployPinId with
          | Ok _ =>
              (db, Some ("MetaApp " ++ deployPinId ++ " is already in deploy queue"))
          | Err _ =>
              let codePinID :=
                if String.eqb (Code fristMetaApp) "" then
                  if negb (String.eqb (Content fristMetaApp) "") then
                    if negb (HasPrefix (Content fristMetaApp) "metafile://")
                    then "metafile://" ++ Content fristMetaApp
                    else Content fristMetaApp
                  else ""
                else Code fristMetaApp in
              if String.eqb codePinID ""
              then (db, Some ("no code or content pinId found for MetaApp "
                              ++ deployPinId))
              else
                (Database.AddToDeployQueue db
                   (mkQueue "" (PinID fristMetaApp) (Timestamp fristMetaApp)
                      (Content fristMetaApp) codePinID
                      (ContentType fristMetaApp) (Version fristMetaApp) 0 now),
                 None)
          end
      end
  end.

End WithEnv.
End IndexerService.

(** ** Paths ([path/filepath] on a slash-separated file system) *)

Module Filepath.

(** The elements of a path between its separators. *)
Fixpoint split (s : string) : list string :=
  match s with
  | EmptyString => [EmptyString]
  | String c r =>
      if Ascii.eqb c "/"
      then EmptyString :: split r
      else match split r with
           | [] => [String c EmptyString]
           | e :: es => String c e :: es
           end
  end.

Definition isRooted (s : string) : bool := Strings.HasPrefix s "/".

(** The lexical pass of [Clean]: empty and ["."] elements are dropped, a
    [".."] removes the element before it, is dropped at the root, and is
    kept at the front of a relative path.  [stack] holds the elements kept
    so far, last first. *)
Fixpoint cleanElems (rooted : bool) (stack elems : list string) : list string :=
  match elems with
  | [] => rev stack
  | e :: es =>
      if String.eqb e "" || String.eqb e "." then cleanElems rooted stack es
      else if String.eqb e ".." then
        match stack with
        | top :: below =>
            if String.eqb top ".."
            then cleanElems rooted (e :: stack) es
            else cleanElems rooted below es
        | [] =>
            if rooted then cleanElems rooted stack es
            else cleanElems rooted [e] es
        end
      else cleanElems rooted (e :: stack) es
  end.

(** [filepath.Clean] *)
Definition Clean (path : string) : string :=
  let body := String.concat "/" (cleanElems (isRooted path) [] (split path)) in
  if isRooted path then "/" ++ body
  else if String.eqb body "" then "." else body.

(** [filepath.Join] of two elements: empty elements are ignored, the rest
    is joined with a separator and cleaned. *)
Definition Join (a b : string) : string :=
  if String.eqb a "" then (if String.eqb b "" then "" else Clean b)
  else if String.eqb b "" then Clean a
  else Clean (a ++ "/" ++ b).

Definition PathSeparator : string := "/".

(** What precedes the last element of a path, separator included. *)
Fixpoint uptoLastSeparator (s : string) : string :=
  match s with
  | EmptyString => EmptyString
  | String c r =>
      if Ascii.eqb c "/" || Strings.Contains r PathSeparator
      then String c (uptoLastSeparator r)
      else EmptyString
  end.

(** [filepath.Dir] *)
Definition Dir (path : string) : string := Clean (uptoLastSeparator path).

End Filepath.

(** ** The file system under the deploy base directory

    Regular files by path, and the directories created.  Operations of the
    operating system never fail in this model, but for the [os.Create] and
    the [io.Copy] of a download, whose failures the environment of the
    deploy worker gives. *)

Record FileSystem : Type := mkFS {
  files : gmap string (list byte);
  dirs : gset string
}.

Module OS.
Definition emptyFS : FileSystem := mkFS ∅ ∅.

(** [os.MkdirAll] *)
Definition MkdirAll (fs : FileSystem) (path : string) : FileSystem :=
  mkFS (files fs) ({[path]} ∪ dirs fs).

(** [os.Create] or [os.OpenFile(O_WRONLY|O_CREATE|O_TRUNC)] followed by
    [io.Copy] of [data]. *)
Definition WriteFile (fs : FileSystem) (path : string) (data : list byte)
  : FileSystem :=
  mkFS (<[path := data]> (files fs)) (dirs fs).

(** [os.Remove] of a regular file. *)
Definition Remove (fs : FileSystem) (path : string) : FileSystem :=
  mkFS (delete path (files fs)) (dirs fs).

Definition under (dir path : string) : bool :=
  Strings.HasPrefix path (dir ++ Filepath.PathSeparator).

(** [os.RemoveAll] of every entry that [os.ReadDir dir] lists. *)
Definition RemoveContents (fs : FileSystem) (dir : string) : FileSystem :=
  mkFS (filter (fun kv => negb (under dir (fst kv))) (files fs))
       (filter (fun d => negb (under dir d)) (dirs fs)).
End OS.

(** ** The content store and the archive reader *)

Record MetafsFileInfo : Type := mkFileInfo {
  fiContentType : string;
  fiFileExtension : string;
  fiFileName : string;
  fiFileSize : Z
}.

Record MetafsResponse : Type := mkMetafsResponse {
  rCode : Z;
  rMessage : string;
  rData : option MetafsFileInfo
}.

(** The outcome of [http.Get] on the file-info endpoint followed by the JSON
    decoding of its body. *)
Inductive InfoReply : Type :=
| InfoTransportError (e : string)
| InfoDecodeError (e : string)
| InfoDecoded (r : MetafsResponse).

(** The outcome of [http.Get] on the content endpoint: a transport error,
    or a response with its status and its body.  [io.Copy] of the body to
    the file writes the bytes [body]; it then ends, or fails with
    [copyError] when the transfer or the write breaks off. *)
Inductive ContentReply : Type :=
| ContentTransportError (e : string)
| ContentResponse (status : Z) (body : list byte) (copyError : option string).

(** One member of a zip archive ([zip.File]). *)
Record ZipFile : Type := mkZipFile {
  zName : string;
  zIsDir : bool;
  zData : list byte
}.

Record DeployEnv : Type := mkDeployEnv {
  cfgDeployFilePath : string;                      (* conf.Cfg.MetaApp.DeployFilePath *)
  cfgMetafsDomain : string;                        (* conf.Cfg.Metafs.Domain *)
  http_Get_info : string -> InfoReply;             (* by URL *)
  http_Get_content : string -> ContentReply;       (* by URL *)
  os_Create : FileSystem -> string -> option string; (* the error, if any *)
  zip_OpenReader : list byte -> result (list ZipFile)
}.

(** ** The deploy worker ([service/indexer_service/indexer_service.go]) *)

Module DeployWorker.
Import Strings.

(** [isValidMetafilePinID] *)
Definition isValidMetafilePinID (pinID : string) : bool :=
  if negb (HasPrefix pinID "metafile://") then false
  else
    let pinIDPart := TrimPrefix pinID "metafile://" in
    if String.eqb pinIDPart "" then false else MatchPinID pinIDPart.

(** [getFileExtensionFromContentType] *)
Definition getFileExtensionFromContentType (contentType : string) : string :=
  let contentType := ToLower contentType in
  if Contains contentType "zip" then ".zip"
  else if Contains contentType "javascript" || Contains contentType "ecmascript"
  then ".js"
  else if Contains contentType "html" then ".html"
  else if Contains contentType "css" then ".css"
  else if Contains contentType "json" then ".json"
  else "".

(** The loop of [unzipFile] over the members of the archive.  It stops at
    the first member whose joined path is not under the cleaned target
    directory. *)
Fixpoint unzipEntries (fs : FileSystem) (targetDir : string)
    (entries : list ZipFile) : FileSystem * option string :=
  match entries with
  | [] => (fs, None)
  | f :: rest =>
      let fpath := Filepath.Join targetDir (zName f) in
      if negb (HasPrefix fpath (Filepath.Clean targetDir ++ Filepath.PathSeparator))
      then (fs, Some ("invalid file path: " ++ fpath))
      else if zIsDir f
      then unzipEntries (OS.MkdirAll fs fpath) targetDir rest
      else
        let fs := OS.MkdirAll fs (Filepath.Dir fpath) in
        unzipEntries (OS.WriteFile fs fpath (zData f)) targetDir rest
  end.

Section WithEnv.
Context (D : DeployEnv).

(** [unzipFile] *)
Definition unzipFile (fs : FileSystem) (zipPath targetDir : string)
  : FileSystem * option string :=
  match files fs !! zipPath with
  | None => (fs, Some "open: no such file or directory")
  | Some bytes =>
      match zip_OpenReader D bytes with
      | Err e => (fs, Some e)
      | Ok entries => unzipEntries fs targetDir entries
      end
  end.

(** [downloadFileFromMetafs] *)
Definition downloadFileFromMetafs (fs : FileSystem) (pinID targetDir : string)
  : FileSystem * result string :=
  let domain := cfgMetafsDomain D in
  if String.eqb domain "" then (fs, Err "metafs domain not configured")
  else
    let fileInfoURL := TrimSuffix domain "/" ++ "/api/v1/files/" ++ pinID in
    match http_Get_info D fileInfoURL with
    | InfoTransportError e =>
        (fs, Err ("failed to get file info from metafs: " ++ e))
    | InfoDecodeError e =>
        (fs, Err ("failed to decode file info response: " ++ e))
    | InfoDecoded metafsResp =>
        match rData metafsResp with
        | None =>
            (fs, Err ("file not found in metafs: " ++ pinID ++ " (code: "
                      ++ FormatInt (rCode metafsResp) ++ ", message: "
                      ++ rMessage metafsResp ++ ")"))
        | Some fileInfo =>
            if negb (rCode metafsResp =? 0)%Z then
              (fs, Err ("file not found in metafs: " ++ pinID ++ " (code: "
                        ++ FormatInt (rCode metafsResp) ++ ", message: "
                        ++ rMessage metafsResp ++ ")"))
            else
              let fileExt :=
                if String.eqb (fiFileExtension fileInfo) "" then
                  let e := getFileExtensionFromContentType
                             (fiContentType fileInfo) in
                  if String.eqb e "" then ".bin" else e
                else fiFileExtension fileInfo in
              let fileName :=
                if String.eqb (ToLower fileExt) ".html"
                   || String.eqb (ToLower fileExt) ".htm"
                   || Contains (ToLower (fiContentType fileInfo)) "html"
                then "index.html"
                else if String.eqb (fiFileName fileInfo) ""
                     then pinID ++ fileExt
                     else fiFileName fileInfo in
              let downloadURL :=
                TrimSuffix domain "/" ++ "/api/v1/files/accelerate/content/"
                ++ pinID in
              match http_Get_content D downloadURL with
              | ContentTransportError e =>
                  (fs, Err ("failed to download file from metafs: " ++ e))
              | ContentResponse status body copyError =>
                  if negb (status =? 200)%Z then
                    (fs, Err ("metafs returned status " ++ FormatInt status
                              ++ " for file download"))
                  else
                    let filePath := Filepath.Join targetDir fileName in
                    match os_Create D fs filePath with
                    | Some e => (fs, Err ("failed to create file: " ++ e))
                    | None =>
                        let fs := OS.WriteFile fs filePath body in
                        match copyError with
                        | Some e => (fs, Err ("failed to write file: " ++ e))
                        | None => (fs, Ok filePath)
                        end
                    end
              end
        end
    end.

(** [downloadFileFromPinID] *)
Definition downloadFileFromPinID (fs : FileSystem) (pinID targetDir : string)
  : FileSystem * result string :=
  if negb (isValidMetafilePinID pinID)
  then (fs, Err ("invalid pinId format: " ++ pinID
                 ++ ", expected format: metafile://<pinid>"))
  else
    let actualPinID := TrimPrefix pinID "metafile://" in
    if String.eqb (cfgMetafsDomain D) ""
    then (fs, Err "metafs domain not configured")
    else downloadFileFromMetafs fs actualPinID targetDir.

(** [deployMetaApp] *)
Definition deployMetaApp (db : PebbleDatabase) (fs : FileSystem)
    (queueItem : MetaAppDeployQueue) (now : Time)
  : PebbleDatabase * FileSystem * option string :=
  match Database.GetMetaAppByPinID db (qPinID queueItem) with
  | Err e => (db, fs, Some ("failed to get MetaApp: " ++ e))
  | Ok metaApp =>
      let deployBaseDir :=
        if String.eqb (cfgDeployFilePath D) "" then "./meta_app_deploy_data"
        else cfgDeployFilePath D in
      let appDeployDir := Filepath.Join deployBaseDir (FirstPinId metaApp) in
      let fs := OS.RemoveContents fs appDeployDir in
      let fs := OS.MkdirAll fs appDeployDir in
      let pinIDToDownload :=
        if String.eqb (qCode queueItem) "" then
          if negb (String.eqb (qContent queueItem) "") then
            if HasPrefix (qContent queueItem) "metafile://"
            then qContent queueItem
            else "metafile://" ++ qContent queueItem
          else ""
        else qCode queueItem in
      if String.eqb pinIDToDownload ""
      then (db, fs, Some "no pinId to download")
      else if negb (isValidMetafilePinID pinIDToDownload)
      then (db, fs, Some ("invalid pinId format: " ++ pinIDToDownload
                          ++ ", expected format: metafile://<pinid>"))
      else
        match downloadFileFromPinID fs pinIDToDownload appDeployDir with
        | (fs, Err e) =>
            let deployContent :=
              mkDeployContent (FirstPinId metaApp) (PinID metaApp)
                (qContent queueItem) (qCode queueItem)
                (qContentType queueItem) (qVersion queueItem)
                "failed" appDeployDir e now now in
            (Database.CreateOrUpdateDeployFileContent db deployContent, fs,
             Some ("failed to download file: " ++ e))
        | (fs, Ok filePath) =>
            let fs :=
              if HasSuffix (ToLower filePath) ".zip" then
                match unzipFile fs filePath appDeployDir with
                | (fs, Some _) => fs
                | (fs, None) => OS.Remove fs filePath
                end
              else fs in
            let deployContent :=
              mkDeployContent (FirstPinId metaApp) (PinID metaApp)
                (qContent queueItem) (qCode queueItem)
                (qContentType queueItem) (qVersion queueItem)
                "completed" appDeployDir "" now now in
            (Database.CreateOrUpdateDeployFileContent db deployContent, fs,
             None)
        end
  end.

Definition maxRetryCount : Z := 3.

(** [processNextDeployItem]: one tick of the worker. *)
Definition processNextDeployItem (db : PebbleDatabase) (fs : FileSystem)
    (now : Time) : PebbleDatabase * FileSystem * option string :=
  match Database.GetNextDeployQueueItem db with
  | Err _ => (db, fs, None)
  | Ok queueItem =>
      match deployMetaApp db fs queueItem now with
      | (db, fs, Some err) =>
          let queueItem :=
            set_TryCount (Int64.add (qTryCount queueItem) 1) queueItem in
          if (maxRetryCount <=? qTryCount queueItem)%Z
          then (fst (Database.RemoveFromDeployQueue db (qPinID queueItem)),
                fs, Some err)
          else (fst (Database.UpdateDeployQueueItem db queueItem), fs, Some err)
      | (db, fs, None) =>
          match Database.RemoveFromDeployQueue db (qPinID queueItem) with
          | (db, Some e) => (db, fs, Some e)
          | (db, None) => (db, fs, None)
          end
      end
  end.

End WithEnv.
End DeployWorker.

(** ** The MVC transaction hash ([common], GetMvcTxhash) *)

Module Wire.
(** [wire.OutPoint], [wire.TxIn], [wire.TxOut], [wire.MsgTx] of bsvd. *)
Record OutPoint : Type := mkOutPoint { Hash : list byte; Index : Z }.
Record TxIn : Type := mkTxIn {
  PreviousOutPoint : OutPoint;
  SignatureScript : list byte;
  Sequence : Z
}.
Record TxOut : Type := mkTxOut { Value : Z; PkScript : list byte }.
Record MsgTx : Type := mkMsgTx {
  Version : Z;
  TxIns : list TxIn;
  TxOuts : list TxOut;
  LockTime : Z
}.
End Wire.

Module Binary.
(** Go's conversion [byte(v)]: the low eight bits. *)
Definition byte_of_Z (z : Z) : byte :=
  match Byte.of_N (Z.to_N (Z.land z 255)) with
  | Some b => b
  | None => x00
  end.

Definition Z_of_byte (b : byte) : Z := Z.of_N (Byte.to_N b).

(** [uint32(v)] *)
Definition uint32 (z : Z) : Z := z mod 2 ^ 32.
(** [uint64(v)] *)
Definition uint64 (z : Z) : Z := z mod 2 ^ 64.

(** [binary.LittleEndian.PutUint32] *)
Definition PutUint32 (v : Z) : list byte :=
  [byte_of_Z v; byte_of_Z (Z.shiftr v 8); byte_of_Z (Z.shiftr v 16);
   byte_of_Z (Z.shiftr v 24)].

(** [binary.LittleEndian.Uint32] on a slice of four bytes. *)
Definition Uint32 (b : list byte) : Z :=
  match b with
  | [b0; b1; b2; b3] =>
      Z.lor (Z_of_byte b0)
        (Z.lor (Z.shiftl (Z_of_byte b1) 8)
           (Z.lor (Z.shiftl (Z_of_byte b2) 16) (Z.shiftl (Z_of_byte b3) 24)))
  | _ => 0
  end.

(** The [n] low-order bytes of [z], least significant first: the
    little-endian layout in the words of the specification. *)
Fixpoint le_bytes (n : nat) (z : Z) : list byte :=
  match n with
  | O => []
  | S n => byte_of_Z (z mod 256) :: le_bytes n (z / 256)
  end.
End Binary.

Module Common.
Import Wire Binary.

Section WithHash.
(** [sha256.Sum256] of Go's [crypto/sha256], and
    [wire.MsgTx.Deserialize] of bsvd ([None] for an error). *)
Variable sha256_Sum256 : list byte -> list byte.
Variable Deserialize : list byte -> option MsgTx.

(** Modelled from the spec: [tool.SHA256], the SHA-256 digest of a byte
    slice; package [tool] is not among the sources. *)
Definition tool_SHA256 (b : list byte) : list byte := sha256_Sum256 b.

(** Modelled from the spec: [tool.DoubleSHA256], SHA-256 applied twice;
    package [tool] is not among the sources. *)
Definition tool_DoubleSHA256 (b : list byte) : list byte :=
  sha256_Sum256 (sha256_Sum256 b).

(** Modelled from the spec: [tool.Uint32ToLittleEndianBytes], the four
    bytes of a 32-bit value, little-endian; package [tool] is not among
    the sources. *)
Definition tool_Uint32ToLittleEndianBytes (v : Z) : list byte := PutUint32 v.

(** Modelled from the spec: [tool.Uint64ToLittleEndianBytes], the eight
    bytes of a 64-bit value, little-endian; package [tool] is not among
    the sources. *)
Definition tool_Uint64ToLittleEndianBytes (v : Z) : list byte :=
  (PutUint32 v ++ PutUint32 (Z.shiftr v 32))%list.

(** [getTxNewRawByte]: the three accumulators are filled by the two
    loops of the source, in order. *)
Definition getTxNewRawByte (tx : MsgTx) : list byte :=
  let bVersion := PutUint32 (uint32 (Version tx)) in
  let bLockTime := PutUint32 (LockTime tx) in
  let newRawTxByte := ([] ++ bVersion)%list in
  let newRawTxByte := (newRawTxByte ++ bLockTime)%list in
  let newRawTxByte :=
    (newRawTxByte
       ++ tool_Uint32ToLittleEndianBytes (uint32 (Z.of_nat (length (TxIns tx)))))%list in
  let newRawTxByte :=
    (newRawTxByte
       ++ tool_Uint32ToLittleEndianBytes (uint32 (Z.of_nat (length (TxOuts tx)))))%list in
  let '(newInputsByte, newInputs2Byte) :=
    fold_left
      (fun '(newInputsByte, newInputs2Byte) txin =>
         let indexBuf := PutUint32 (Index (PreviousOutPoint txin)) in
         let sequenceBuf := PutUint32 (Sequence txin) in
         let newInputsByte := (newInputsByte ++ Hash (PreviousOutPoint txin))%list in
         let newInputsByte := (newInputsByte ++ indexBuf)%list in
         let newInputsByte := (newInputsByte ++ sequenceBuf)%list in
         (newInputsByte,
          (newInputs2Byte ++ tool_SHA256 (SignatureScript txin))%list))
      (TxIns tx) ([], []) in
  let newRawTxByte := (newRawTxByte ++ tool_SHA256 newInputsByte)%list in
  let newRawTxByte := (newRawTxByte ++ tool_SHA256 newInputs2Byte)%list in
  let newOutputsByte :=
    fold_left
      (fun newOutputsByte txout =>
         let valueBuf := tool_Uint64ToLittleEndianBytes (uint64 (Value txout)) in
         let newOutputsByte := (newOutputsByte ++ valueBuf)%list in
         (newOutputsByte ++ tool_SHA256 (PkScript txout))%list)
      (TxOuts tx) [] in
  (newRawTxByte ++ tool_SHA256 newOutputsByte)%list.

(** [GetTxNewhash] *)
Definition GetTxNewhash (rawTxByte : list byte) : list byte :=
  match Deserialize rawTxByte with
  | None => []
  | Some tx => getTxNewRawByte tx
  end.

(** The loop of [GetMvcTxhash] that swaps [txhash[i]] with
    [txhash[len-1-i]] for [i] below [len/2]; [n] counts the iterations
    left. *)
Fixpoint swapLoop (n : nat) (i : nat) (txhash : list byte) : list byte :=
  match n with
  | O => txhash
  | S n =>
      let j := (length txhash - 1 - i)%nat in
      match txhash !! j, txhash !! i with
      | Some h, Some x => swapLoop n (S i) (<[i := h]> (<[j := x]> txhash))
      | _, _ => txhash
      end
  end.

(** [GetMvcTxhash] *)
Definition GetMvcTxhash (rawTxByte : list byte) : string :=
  let limit := length rawTxByte in
  if (limit =? 0)%nat then ""
  else if (limit <? 4)%nat then ""
  else
    let versionByte := take 4 rawTxByte in
    let version := Uint32 versionByte in
    let rawTxByte :=
      if (10 <=? version)%Z then GetTxNewhash rawTxByte else rawTxByte in
    let txhash := tool_DoubleSHA256 rawTxByte in
    Hex.EncodeToString (swapLoop (length txhash / 2) 0 txhash).

(** The compact pre-image in the words of the specification. *)
Definition compactPreimage (tx : MsgTx) : list byte :=
  (le_bytes 4 (Version tx)
   ++ le_bytes 4 (LockTime tx)
   ++ le_bytes 4 (Z.of_nat (length (TxIns tx)))
   ++ le_bytes 4 (Z.of_nat (length (TxOuts tx)))
   ++ sha256_Sum256
        (concat (map (fun i => Hash (PreviousOutPoint i)
                               ++ le_bytes 4 (Index (PreviousOutPoint i))
                               ++ le_bytes 4 (Sequence i))
                     (TxIns tx)))
   ++ sha256_Sum256
        (concat (map (fun i => sha256_Sum256 (SignatureScript i)) (TxIns tx)))
   ++ sha256_Sum256
        (concat (map (fun o => le_bytes 8 (Value o)
                               ++ sha256_Sum256 (PkScript o))
                     (TxOuts tx))))%list.

(** The display form of a hash in the words of the specification:
    double SHA-256, bytes reversed, in hexadecimal. *)
Definition displayHash (preimage : list byte) : string :=
  Hex.EncodeToString (rev (sha256_Sum256 (sha256_Sum256 preimage))).

End WithHash.
End Common.

(** ** The wire format of a transaction

    What [wire.MsgTx.Deserialize] of bsvd reads, without the size limits of
    the library: version, inputs, outputs and lock time, with counts and
    script lengths as variable-length integers.  The properties below hold
    for any deserialiser; this one serves the sample data. *)

Module WireFormat.
Import Wire Binary.

Definition readN (n : nat) (bs : list byte) : option (list byte * list byte) :=
  if (n <=? length bs)%nat then Some (take n bs, drop n bs) else None.

Definition leZ (bs : list byte) : Z :=
  fold_right (fun b acc => (Z_of_byte b + 256 * acc)%Z) 0%Z bs.

Definition readUint (n : nat) (bs : list byte) : option (Z * list byte) :=
  '(h, t) ← readN n bs; Some (leZ h, t).

Definition readVarInt (bs : list byte) : option (Z * list byte) :=
  match bs with
  | [] => None
  | b :: r =>
      let v := Z_of_byte b in
      if (v <? 253)%Z then Some (v, r)
      else if (v =? 253)%Z then readUint 2 r
      else if (v =? 254)%Z then readUint 4 r
      else readUint 8 r
  end.

Definition readScript (bs : list byte) : option (list byte * list byte) :=
  '(len, bs) ← readVarInt bs; readN (Z.to_nat len) bs.

Definition readTxIn (bs : list byte) : option (TxIn * list byte) :=
  '(hash, bs) ← readN 32 bs;
  '(index, bs) ← readUint 4 bs;
  '(script, bs) ← readScript bs;
  '(sequence, bs) ← readUint 4 bs;
  Some (mkTxIn (mkOutPoint hash index) script sequence, bs).

Definition readTxOut (bs : list byte) : option (TxOut * list byte) :=
  '(value, bs) ← readUint 8 bs;
  '(script, bs) ← readScript bs;
  Some (mkTxOut (if (value <? 2 ^ 63)%Z then value else (value - 2 ^ 64)%Z) script, bs).

Fixpoint readMany {A : Type} (read : list byte -> option (A * list byte))
    (count : nat) (bs : list byte) : option (list A * list byte) :=
  match count with
  | O => Some ([], bs)
  | S count =>
      '(x, bs) ← read bs;
      '(xs, bs) ← readMany read count bs;
      Some (x :: xs, bs)
  end.

Definition Deserialize (bs : list byte) : option MsgTx :=
  '(version, bs) ← readUint 4 bs;
  '(nIn, bs) ← readVarInt bs;
  '(ins, bs) ← readMany readTxIn (Z.to_nat nIn) bs;
  '(nOut, bs) ← readVarInt bs;
  '(outs, bs) ← readMany readTxOut (Z.to_nat nOut) bs;
  '(lockTime, _) ← readUint 4 bs;
  Some (mkMsgTx (if (version <? 2 ^ 31)%Z then version else (version - 2 ^ 32)%Z)
          ins outs lockTime).
End WireFormat.

(** ** Notions used to state the properties *)

Module Notions.
Import Strings.

(** The pins of the history stored for [firstPinID], with their heights. *)
Definition historyOf (db : PebbleDatabase) (firstPinID : string)
  : list (string * Z) :=
  map (fun a => (PinID a, BlockHeight a))
      (default [] (metaapp_pin_history db !! firstPinID)).

(** The pin id on which [findFirstPinIDRecursive] calls itself when it is
    at [pinID]: the [FirstPinId] of a stored modify when it is set and is
    not [pinID] itself, else the target of its [@]-path.  [None] when the
    walk ends at [pinID]. *)
Definition parentOf (db : PebbleDatabase) (pinID : string) : option string :=
  match metaapp_pin db !! pinID with
  | None => None
  | Some metaApp =>
      if String.eqb (Operation metaApp) "create" then None
      else if String.eqb (Operation metaApp) "modify" then
        if negb (String.eqb (FirstPinId metaApp) "") then
          if negb (String.eqb (FirstPinId metaApp) pinID)
          then Some (FirstPinId metaApp)
          else None
        else
          let nextPinID := TrimPrefix (Path metaApp) "@" in
          if negb (String.eqb (Path metaApp) "")
             && HasPrefix (Path metaApp) "@"
             && negb (String.eqb nextPinID "")
             && negb (String.eqb nextPinID pinID)
          then Some nextPinID
          else None
      else None
  end.

(** One hop of the parent walk, and the walk: any number of hops. *)
Definition hop (db : PebbleDatabase) (p q : string) : Prop :=
  parentOf db p = Some q.
Definition Walk (db : PebbleDatabase) : string -> string -> Prop := rtc (hop db).

(** The pin id at which the resolution of a modify with path [path]
    starts ([extractFirstPinIDFromOriginalPath]). *)
Definition walkStart (path : string) : string :=
  if HasPrefix path "@" then TrimPrefix path "@" else path.

Definition isCycleError (msg : string) : Prop :=
  exists pinID, msg = "circular reference detected for pinID: " ++ pinID.

(** No record stored in any of the five MetaApp collections has an empty
    [FirstPinId]. *)
Definition firstPinIdSet (a : MetaApp) : Prop := FirstPinId a <> "".
Definition allFirstPinIdsSet (db : PebbleDatabase) : Prop :=
  map_Forall (fun _ a => firstPinIdSet a) (metaapp_pin db)
  /\ map_Forall (fun _ a => firstPinIdSet a) (metaapp_pin_latest db)
  /\ map_Forall (fun _ h => Forall firstPinIdSet h) (metaapp_pin_history db)
  /\ Forall (fun kv => firstPinIdSet (snd kv)) (metaapp_meta_timestamp db)
  /\ Forall (fun kv => firstPinIdSet (snd kv)) (metaapp_timestamp db).

(** The record [CreateMetaApp] writes: the argument, with [FirstPinId]
    filled from [PinID] when it was empty. *)
Definition written (app : MetaApp) : MetaApp :=
  if String.eqb (FirstPinId app) "" then set_FirstPinId (PinID app) app else app.

(** The pin ids of the entries of the deploy queue with their try counts,
    in key order. *)
Definition tryCounts (db : PebbleDatabase) : list (string * Z) :=
  map (fun kv => (qPinID (snd kv), qTryCount (snd kv))) (metaapp_deploy_queue db).

(** The pin ids of the entries of the deploy queue, in key order. *)
Definition queuedPins (db : PebbleDatabase) : list string :=
  map (fun kv => qPinID (snd kv)) (metaapp_deploy_queue db).


(** The directory [deployMetaApp] deploys a record into. *)
Definition deployDir (D : DeployEnv) (metaApp : MetaApp) : string :=
  Filepath.Join
    (if String.eqb (cfgDeployFilePath D) "" then "./meta_app_deploy_data"
     else cfgDeployFilePath D)
    (FirstPinId metaApp).

(** The file system when [deployMetaApp] starts the download: the deploy
    directory emptied and created. *)
Definition prepared (D : DeployEnv) (metaApp : MetaApp) (fs : FileSystem)
  : FileSystem :=
  OS.MkdirAll (OS.RemoveContents fs (deployDir D metaApp)) (deployDir D metaApp).

(** The artifact reference [deployMetaApp] downloads for a queue item. *)
Definition downloadRef (queueItem : MetaAppDeployQueue) : string :=
  if String.eqb (qCode queueItem) "" then
    if negb (String.eqb (qContent queueItem) "") then
      if HasPrefix (qContent queueItem) "metafile://"
      then qContent queueItem
      else "metafile://" ++ qContent queueItem
    else ""
  else qCode queueItem.

(** The record [deployMetaApp] stores for an outcome. *)
Definition outcome (D : DeployEnv) (metaApp : MetaApp)
    (queueItem : MetaAppDeployQueue) (now : Time) (status message : string)
  : MetaAppDeployFileContent :=
  mkDeployContent (FirstPinId metaApp) (PinID metaApp) (qContent queueItem)
    (qCode queueItem) (qContentType queueItem) (qVersion queueItem)
    status (deployDir D metaApp) message now now.

(** The deploy result stored for a pin id, as status and message. *)
Definition deployResult (db : PebbleDatabase) (pinID : string)
  : option (string * string) :=
  match Database.GetDeployFileContent db pinID with
  | Ok c => Some (DeployStatus c, DeployMessage c)
  | Err _ => None
  end.

(** What happens to the service: a transaction is handed to the indexer,
    a redeploy is requested, or the deploy worker ticks. *)
Inductive Event : Type :=
| Ingest (pins : list MetaIDData) (height timestamp : Z) (now : Time)
| Redeploy (pinID : string) (now : Time)
| Tick (now : Time).

Section Run.
Context (E : IndexerEnv) (D : DeployEnv).

(** One event, run from its start to its end with nothing in between. *)
Definition step (st : PebbleDatabase * FileSystem) (ev : Event)
  : option (PebbleDatabase * FileSystem) :=
  match ev with
  | Ingest pins height timestamp now =>
      match IndexerService.handleTransaction E (fst st) pins height timestamp now with
      | Some db => Some (db, snd st)
      | None => None
      end
  | Redeploy pinID now =>
      Some (fst (IndexerService.RedeployMetaApp (fst st) pinID now), snd st)
  | Tick now =>
      let '(db, fs, _) := DeployWorker.processNextDeployItem D (fst st) (snd st) now in
      Some (db, fs)
  end.

(** The events of a schedule in which no two of them overlap, one after
    the other.  The service has more schedules than these: its goroutines
    share the store without a lock, see [Overlap] below. *)
Fixpoint run (st : PebbleDatabase * FileSystem) (evs : list Event)
  : option (PebbleDatabase * FileSystem) :=
  match evs with
  | [] => Some st
  | ev :: evs =>
      match step st ev with
      | Some st => run st evs
      | None => None
      end
  end.
End Run.

(** The byte-wise order of keys. *)
Definition keyLt (a b : string) : Prop := String.compare a b = Lt.

(** What holds of every state of the store that a [run] reaches, that is,
    as long as no two calls overlap: the queue is in strictly increasing
    key order; every entry sits under the key of its own item, and its pin
    is stored with the same timestamp; every record of [pin] sits under
    its own pin id; and the pin of every record of [latest] is stored with
    the same timestamp. *)
Record Consistent (db : PebbleDatabase) : Prop := mkConsistent {
  queueSorted : StronglySorted keyLt (KV.keys (metaapp_deploy_queue db));
  queueBacked : forall k item, In (k, item) (metaapp_deploy_queue db) ->
    k = Database.queueKey item
    /\ exists a, metaapp_pin db !! qPinID item = Some a
                 /\ Timestamp a = qTimestamp item;
  pinKeyed : forall k a, metaapp_pin db !! k = Some a -> PinID a = k;
  latestBacked : forall f a, metaapp_pin_latest db !! f = Some a ->
    exists a', metaapp_pin db !! PinID a = Some a'
               /\ Timestamp a' = Timestamp a
}.

End Notions.

(** ** Calls that overlap

    [handleTransaction] is the handler of the loop of the block scanner
    and, once the scanner has caught up, of the ZMQ listener as well
    ([BlockScanner.Start] hands it to [SetTransactionHandler], and
    [ZMQClient.Start] runs [go c.listen()]).  The two goroutines share the
    store, and no lock is held from one call of the database to the next:
    between the lookup of a pin ([GetByPinID]) and the writes that follow
    it, the other goroutine may run.  A call of the loop body of
    [handleTransaction] is cut here at that place. *)

Module Overlap.
Import Strings IndexerService.

Section WithEnv.
Context (E : IndexerEnv).

(** What the loop body does for a MetaApp pin once the lookup of the pin
    has given [found]. *)
Definition afterLookup (db : PebbleDatabase) (metaData : MetaIDData)
    (height timestamp : Z) (now : Time) (found : result MetaApp)
  : option PebbleDatabase :=
  match found with
  | Ok existingApp =>
      if ((BlockHeight existingApp <? height) && (0 <? height))%Z
      then Some (fst (Database.UpdateMetaApp db
                        (set_BlockHeight height existingApp)))
      else Some db
  | Err _ =>
      if String.eqb (mOperation metaData) "modify"
         && negb (String.eqb (mPath metaData) "")
      then
        match extractFirstPinIDFromOriginalPath db (mPath metaData) with
        | None => None
        | Some (Err _) => Some db
        | Some (Ok firstPinID) =>
            if negb (String.eqb firstPinID "")
            then Some (fst (processMetaAppModify E db metaData firstPinID
                              height timestamp now))
            else Some db
        end
      else if String.eqb (mOperation metaData) "create"
              && snd (isMetaAppPath (mPath metaData))
      then Some db
      else Some (fst (processMetaAppContent E db metaData height timestamp now))
  end.

(** A call of the loop body on its way: before the lookup, between the
    lookup and the rest, and at its end. *)
Inductive Call : Type :=
| Started (metaData : MetaIDData) (height timestamp : Z) (now : Time)
| LookedUp (metaData : MetaIDData) (height timestamp : Z) (now : Time)
    (found : result MetaApp)
| Returned.

(** One move of a call: the lookup, or all that follows it. *)
Definition advance (db : PebbleDatabase) (c : Call)
  : option (PebbleDatabase * Call) :=
  match c with
  | Started metaData height timestamp now =>
      if negb (fst (isMetaAppPath (mPath metaData))) then Some (db, Returned)
      else Some (db, LookedUp metaData height timestamp now
                       (Database.GetMetaAppByPinID db (mPinID metaData)))
  | LookedUp metaData height timestamp now found =>
      match afterLookup db metaData height timestamp now found with
      | Some db => Some (db, Returned)
      | None => None
      end
  | Returned => Some (db, Returned)
  end.

(** The two goroutines that call the handler. *)
Inductive Goroutine : Type := ScannerLoop | ZMQListener.

(** The store and the call each goroutine is in, and the moves of a
    schedule: each entry of the schedule says whose move it is. *)
Record State : Type := mkState {
  store : PebbleDatabase;
  scannerCall : Call;
  listenerCall : Call
}.

Definition move (st : State) (g : Goroutine) : option State :=
  match g with
  | ScannerLoop =>
      match advance (store st) (scannerCall st) with
      | Some (db, c) => Some (mkState db c (listenerCall st))
      | None => None
      end
  | ZMQListener =>
      match advance (store st) (listenerCall st) with
      | Some (db, c) => Some (mkState db (scannerCall st) c)
      | None => None
      end
  end.

Fixpoint interleave (st : State) (schedule : list Goroutine) : option State :=
  match schedule with
  | [] => Some st
  | g :: schedule =>
      match move st g with
      | Some st => interleave st schedule
      | None => None
      end
  end.

End WithEnv.
End Overlap.

(** ** Sample data *)

Module Sample.
Fixpoint repeatChar (n : nat) (c : ascii) : string :=
  match n with
  | O => EmptyString
  | S n => String c (repeatChar n c)
  end.

(** Pin ids of the canonical form: 64 hex digits, [i], the output index. *)
Definition P0 : string := repeatChar 64 "0" ++ "i0".
Definition P1 : string := repeatChar 64 "1" ++ "i0".
Definition PA : string := repeatChar 64 "a" ++ "i0".
Definition PB : string := repeatChar 64 "b" ++ "i0".
Definition PC : string := repeatChar 64 "c" ++ "i0".

(** A stand-in digest: the length of the input and its first byte. *)
Definition digest (b : list byte) : list byte :=
  [Binary.byte_of_Z (Z.of_nat (length b)); hd x00 b].

Definition proto (code : string) : MetaAppProto :=
  mkProto "title" "app" "" "" "" [] "" "browser" "index.html" "v1.0.0"
    "application/zip" "" code "" "" false.

(** A payload decodes to a MetaApp whose [code] is the payload text; the
    empty payload is malformed. *)
Definition env : IndexerEnv :=
  {| SHA256 := digest;
     json_Unmarshal := fun content =>
       match content with
       | [] => None
       | _ => Some (proto (string_of_list_byte content))
       end;
     FindCreatorAddressFromCreatorInputLocation := fun _ => None |}.

Definition pin (pinID operation path : string) (code : string) : MetaIDData :=
  mkMetaIDData pinID operation path "" path "" "0" "1.0.0" "application/json"
    (list_byte_of_string code) (String.substring 0 64 pinID) 0 ""
    "1creator" "1owner" "mvc".

Definition createPin (pinID : string) : MetaIDData :=
  pin pinID "create" "/protocols/metaapp" ("metafile://" ++ PA).

Definition modifyPin (pinID parent : string) : MetaIDData :=
  pin pinID "modify" ("@" ++ parent) ("metafile://" ++ PA).

Definition item (pinID : string) (timestamp : Z) (code : string) (tryCount : Z)
  : MetaAppDeployQueue :=
  mkQueue pinID pinID timestamp "" code "application/zip" "v1.0.0" tryCount 0.

(** The record of a create pin before it is stored, [FirstPinId] unset. *)
Definition freshApp : MetaApp :=
  IndexerService.buildMetaApp env (createPin P0) (proto "") "" 0 0 0.

(** A stored modify whose only parent reference is its [@]-path. *)
Definition storedModify (pinID parent : string) : MetaApp :=
  IndexerService.buildMetaApp env (modifyPin pinID parent) (proto "") "" 0 0 0.

(** Two stored modifies that name each other as parent. *)
Definition cyclicDB : PebbleDatabase :=
  mkDB (<[PA := storedModify PA PB]> (<[PB := storedModify PB PA]> ∅))
    ∅ ∅ KV.empty KV.empty ∅ KV.empty.

(** An archive whose second member points out of the target directory. *)
Definition evilArchive : list ZipFile :=
  [mkZipFile "a.txt" false (list_byte_of_string "A");
   mkZipFile "../evil" false (list_byte_of_string "E");
   mkZipFile "b.txt" false (list_byte_of_string "B")].

Definition zipInfo : InfoReply :=
  InfoDecoded (mkMetafsResponse 0 "ok"
    (Some (mkFileInfo "application/zip" ".zip" "app.zip" 7))).

Definition missingInfo : InfoReply :=
  InfoDecoded (mkMetafsResponse 1 "file not found" None).

(** A content store that answers every file-info request with [info] and
    every content request with the same archive. *)
Definition deployEnv (info : InfoReply) : DeployEnv :=
  {| cfgDeployFilePath := "deploy";
     cfgMetafsDomain := "https://file.metaid.io/";
     http_Get_info := fun _ => info;
     http_Get_content :=
       fun _ => ContentResponse 200 (list_byte_of_string "archive") None;
     os_Create := fun _ _ => None;
     zip_OpenReader := fun _ => Ok evilArchive |}.

(** A version-10 transaction: one input spending output 0 of the
    transaction [11..11] with the one-byte script [51], one output of 1000
    units to the script [00 6a], lock time 0. *)
Definition rawTx : list byte :=
  ([x0a; x00; x00; x00; x01]
   ++ repeat x11 32 ++ [x00; x00; x00; x00; x01; x51; xff; xff; xff; xff]
   ++ [x01; xe8; x03; x00; x00; x00; x00; x00; x00; x02; x00; x6a]
   ++ [x00; x00; x00; x00])%list.

Definition tx : Wire.MsgTx :=
  Wire.mkMsgTx 10
    [Wire.mkTxIn (Wire.mkOutPoint (repeat x11 32) 0) [x51] 4294967295]
    [Wire.mkTxOut 1000 [x00; x6a]] 0.

(** The same transaction with version 2. *)
Definition rawTxV2 : list byte := x02 :: tl rawTx.

(** The store after the create pin [P0], whose code is [code], has been
    ingested at height 100. *)
Definition ingested (code : string) : PebbleDatabase :=
  default emptyDB
    (IndexerService.handleTransaction env emptyDB
       [pin P0 "create" "/protocols/metaapp" code] 100 1700000000000 0).

(** The queue item of [P0] in that store. *)
Definition queuedItem (code : string) : MetaAppDeployQueue :=
  match Database.GetNextDeployQueueItem (ingested code) with
  | Ok q => q
  | Err _ => mkQueue "" "" 0 "" "" "" "" 0 0
  end.

(** The record of [P0] in that store. *)
Definition storedApp (code : string) : MetaApp :=
  default freshApp (metaapp_pin (ingested code) !! P0).

Definition missingMessage : string :=
  "file not found in metafs: " ++ PA ++ " (code: 1, message: file not found)".

(** The create pin [P0] arrives twice at the same time: in the block at
    height 100 that the scanner is reading, with the time of the block, and
    from the mempool through the ZMQ listener, with the time of day. *)
Definition fromBlock : Overlap.Call :=
  Overlap.Started (createPin P0) 100 1700000000000 1700000000123.
Definition fromMempool : Overlap.Call :=
  Overlap.Started (createPin P0) 0 1700000000123 1700000000123.
Definition bothArrive : Overlap.State :=
  Overlap.mkState emptyDB fromBlock fromMempool.

Definition older : MetaAppDeployQueue :=
  item P0 1700000000000 ("metafile://" ++ PA) 0.
Definition newer : MetaAppDeployQueue :=
  item P1 1700000600000 ("metafile://" ++ PA) 0.
End Sample.

(** ** Listings and counts ([database], the paginated queries)

    The type [int] is 64 bits wide, as on the platforms the service is built
    for.  [None] stands for the run-time panic of a slice expression whose
    bounds are out of range. *)

Module Queries.

(** [sort.Slice(s, less)], as the insertion of each element into the
    sorted rest.  [less a b] tells that [a] goes before [b].  Go leaves the
    order of two elements unspecified when neither goes before the other;
    with the orders used below these are records of equal timestamp and
    equal pin id. *)
Fixpoint insertBy {A : Type} (less : A -> A -> bool) (a : A) (l : list A)
  : list A :=
  match l with
  | [] => [a]
  | b :: r => if less b a then b :: insertBy less a r else a :: b :: r
  end.

Definition sortSlice {A : Type} (less : A -> A -> bool) (l : list A) : list A :=
  fold_right (insertBy less) [] l.

(** The comparison of the paginated listings: newer first, and among equal
    timestamps the greater pin id first. *)
Definition byTimestampDesc {A : Type} (timestamp : A -> Z) (pinID : A -> string)
    (a b : A) : bool :=
  if (timestamp a =? timestamp b)%Z then String.ltb (pinID b) (pinID a)
  else (timestamp b <? timestamp a)%Z.

(** [paginateMetaAppsByTimestampDesc] *)
Definition paginateMetaAppsByTimestampDesc (apps : list MetaApp)
    (cursor size : Z) : option (list MetaApp * Z) :=
  if (length apps =? 0)%nat || (size <=? 0)%Z then Some ([], cursor)
  else
    let cursor := if (cursor <? 0)%Z then 0%Z else cursor in
    let apps := sortSlice (byTimestampDesc Timestamp PinID) apps in
    let start := cursor in
    if (Z.of_nat (length apps) <=? start)%Z then Some ([], cursor)
    else
      let end_ := Int64.add start size in
      let end_ := if (Z.of_nat (length apps) <? end_)%Z
                  then Z.of_nat (length apps) else end_ in
      if (end_ <? start)%Z then None
      else
        let paged := take (Z.to_nat (end_ - start)) (drop (Z.to_nat start) apps) in
        Some (paged, Int64.add cursor (Z.of_nat (length paged))).

(** The key under which the listings keep one record per logical app. *)
Definition firstPinIDOf (app : MetaApp) : string :=
  if String.eqb (FirstPinId app) "" then PinID app else FirstPinId app.

(** The loop of [ListMetaAppsWithCursor] and
    [GetMetaAppsByCreatorMetaIDWithCursor] over the entries the iterator
    visits: per first pin id, the first record seen is kept unless a later
    one has a greater timestamp. *)
Definition dedupeByFirstPinID (entries : KV.t MetaApp) : gmap string MetaApp :=
  fold_left
    (fun firstPinIDMap kv =>
       let app := snd kv in
       let firstPinID := firstPinIDOf app in
       match firstPinIDMap !! firstPinID with
       | Some existing =>
           if (Timestamp existing <? Timestamp app)%Z
           then <[firstPinID := app]> firstPinIDMap
           else firstPinIDMap
       | None => <[firstPinID := app]> firstPinIDMap
       end)
    entries ∅.

(** The values of the Go map, in the order of one iteration over it.  Go
    randomises that order; the sort that follows fixes the result up to
    records of equal timestamp and pin id. *)
Definition mapValues (m : gmap string MetaApp) : list MetaApp :=
  map snd (map_to_list m).

(** [ListMetaAppsWithCursor] *)
Definition ListMetaAppsWithCursor (db : PebbleDatabase) (cursor size : Z)
  : option (list MetaApp * Z) :=
  paginateMetaAppsByTimestampDesc
    (mapValues (dedupeByFirstPinID (metaapp_timestamp db))) cursor size.

(** [GetMetaAppsByCreatorMetaIDWithCursor] *)
Definition GetMetaAppsByCreatorMetaIDWithCursor (db : PebbleDatabase)
    (metaID : string) (cursor size : Z) : option (list MetaApp * Z) :=
  let prefix := metaID ++ ":" in
  paginateMetaAppsByTimestampDesc
    (mapValues
       (dedupeByFirstPinID
          (filter (fun kv => KV.in_bounds prefix (prefix ++ "~") (fst kv))
                  (metaapp_meta_timestamp db))))
    cursor size.

(** [CountMetaApps]: the number of entries of [metaapp_pin_latest]. *)
Definition CountMetaApps (db : PebbleDatabase) : Z :=
  Z.of_nat (size (metaapp_pin_latest db)).

(** [GetMetaAppHistoryByFirstPinID]: an absent key gives the empty list,
    not an error. *)
Definition GetMetaAppHistoryByFirstPinID (db : PebbleDatabase)
    (firstPinID : string) : list MetaApp :=
  match metaapp_pin_history db !! firstPinID with
  | Some history => history
  | None => []
  end.

(** [ListDeployQueueWithCursor] *)
Definition ListDeployQueueWithCursor (db : PebbleDatabase) (cursor size : Z)
  : option (list MetaAppDeployQueue * Z) :=
  let queues := map snd (metaapp_deploy_queue db) in
  let queues := sortSlice (byTimestampDesc qTimestamp qPinID) queues in
  let cursor := if (cursor <? 0)%Z then 0%Z else cursor in
  let size := if (size <=? 0)%Z then 20%Z else size in
  let start := cursor in
  if (Z.of_nat (length queues) <=? start)%Z then Some ([], cursor)
  else
    let end_ := Int64.add start size in
    let end_ := if (Z.of_nat (length queues) <? end_)%Z
                then Z.of_nat (length queues) else end_ in
    if (end_ <? start)%Z then None
    else
      let paged := take (Z.to_nat (end_ - start)) (drop (Z.to_nat start) queues) in
      Some (paged, Int64.add cursor (Z.of_nat (length paged))).

(** [indexer_service.MetaAppWithDeploy] *)
Record MetaAppWithDeploy : Type := mkMetaAppWithDeploy {
  waMetaApp : MetaApp;
  DeployInfo : option MetaAppDeployFileContent
}.

(** The loop of the query service that attaches to each record the deploy
    result stored under its pin id, when there is one. *)
Definition withDeployInfo (db : PebbleDatabase) (app : MetaApp)
  : MetaAppWithDeploy :=
  mkMetaAppWithDeploy app
    (match Database.GetDeployFileContent db (PinID app) with
     | Ok deployInfo => Some deployInfo
     | Err _ => None
     end).

(** [IndexerAppService.ListMetaApps] *)
Definition ListMetaApps (db : PebbleDatabase) (cursor size : Z)
  : option (list MetaAppWithDeploy * Z) :=
  match ListMetaAppsWithCursor db cursor size with
  | None => None
  | Some (apps, nextCursor) => Some (map (withDeployInfo db) apps, nextCursor)
  end.

(** [IndexerAppService.GetMetaAppByPinID] *)
Definition GetMetaAppByPinID (db : PebbleDatabase) (pinID : string)
  : result MetaAppWithDeploy :=
  match Database.GetMetaAppByPinID db pinID with
  | Err e => Err e
  | Ok app =>
      Ok (mkMetaAppWithDeploy app
            (match Database.GetDeployFileContent db pinID with
             | Ok deployInfo => Some deployInfo
             | Err _ => None
             end))
  end.

(** [IndexerAppService.GetMetaAppByFirstPinID] *)
Definition GetMetaAppByFirstPinID (db : PebbleDatabase) (firstPinID : string)
  : result MetaAppWithDeploy :=
  match Database.GetLatestMetaAppByFirstPinID db firstPinID with
  | Err e => Err e
  | Ok app => Ok (withDeployInfo db app)
  end.

(** [IndexerAppService.GetStats] *)
Definition GetStats (db : PebbleDatabase) : Z := CountMetaApps db.

(** [respond.MetaAppListResponse] *)
Record MetaAppListResponse : Type := mkMetaAppListResponse {
  Apps : list MetaAppWithDeploy;
  NextCursor : Z;
  HasMore : bool
}.

(** [MetaAppHandler.ListMetaApps], from the parsed query parameters to the
    body of the response. *)
Definition ListMetaAppsHandler (db : PebbleDatabase) (cursor size : Z)
  : option MetaAppListResponse :=
  let size := if (size <=? 0)%Z then 20%Z else size in
  let size := if (100 <? size)%Z then 100%Z else size in
  match ListMetaApps db cursor size with
  | None => None
  | Some (apps, nextCursor) =>
      let hasMore :=
        (Int64.add cursor (Z.of_nat (length apps)) <? nextCursor)%Z in
      Some (mkMetaAppListResponse apps nextCursor hasMore)
  end.

(** The order the histories and the pages are in, as far as timestamps
    go: [a] may stand in front of [b]. *)
Definition newestFirst (a b : MetaApp) : Prop := (Timestamp b <= Timestamp a)%Z.

End Queries.

(** ** Hexadecimal input and the transaction builder ([common]) *)

(** [hex.DecodeString] of Go's [encoding/hex]: two digits per byte, in
    either case; [None] for an odd length or a character that is not a
    hexadecimal digit. *)
Module HexDecode.
Definition fromHexChar (c : ascii) : option N :=
  let n := N_of_ascii c in
  if ((48 <=? n) && (n <=? 57))%N then Some (n - 48)%N
  else if ((97 <=? n) && (n <=? 102))%N then Some (n - 97 + 10)%N
  else if ((65 <=? n) && (n <=? 70))%N then Some (n - 65 + 10)%N
  else None.

Fixpoint DecodeString (s : string) : option (list byte) :=
  match s with
  | EmptyString => Some []
  | String _ EmptyString => None
  | String a (String b r) =>
      match fromHexChar a, fromHexChar b, DecodeString r with
      | Some hi, Some lo, Some bs =>
          match Byte.of_N (hi * 16 + lo) with
          | Some x => Some (x :: bs)
          | None => None
          end
      | _, _, _ => None
      end
  end.
End HexDecode.

Module RawTx.
Section WithHash.
Variable sha256_Sum256 : list byte -> list byte.
Variable Deserialize : list byte -> option Wire.MsgTx.

(** [GetMvcTxhashFromRaw] *)
Definition GetMvcTxhashFromRaw (rawTx : string) : string :=
  match HexDecode.DecodeString rawTx with
  | None => ""
  | Some rawTxByte => Common.GetMvcTxhash sha256_Sum256 Deserialize rawTxByte
  end.
End WithHash.
End RawTx.

Module TxBuilder.
Import Wire.

(** [common.TxInputUtxo], [common.TxOutput] *)
Record TxInputUtxo : Type := mkTxInputUtxo {
  uTxId : string;
  uTxIndex : Z;
  uPkScript : string;
  uAmount : Z;
  uPriHex : string;
  uSignMode : string
}.

Record TxOutput : Type := mkTxOutput {
  oAddress : string;
  oAmount : Z
}.

(** What has been handed to a [txscript.ScriptBuilder], in order. *)
Inductive ScriptItem : Type :=
| AddOp (opcode : Z)
| AddData (data : list byte)
| AddFullData (data : list byte).

Definition OP_0 : Z := 0.
Definition OP_RETURN : Z := 106.

(** The libraries the builder calls: address decoding and the pay-to-address
    script of bsvutil and bsvd, [chainhash.NewHashFromStr], the script a
    builder yields, the serialised size of a transaction, and the signature
    script of an input for a private key given by its bytes. *)
Record TxLib : Type := mkTxLib {
  Address : Type;
  DecodeAddress : string -> result Address;
  PayToAddrScript : Address -> result (list byte);
  NewHashFromStr : string -> result (list byte);
  Script : list ScriptItem -> result (list byte);
  SerializeSize : MsgTx -> Z;
  SignatureScript :
    MsgTx -> nat -> Z -> list byte -> list byte -> result (list byte)
}.

Definition maxChunkSize : nat := 520.

(** The loop that hands the payload to the builder in pieces of at most
    [maxChunkSize] bytes: [for i := 0; i < bodySize; i += maxChunkSize].
    [fuel] bounds the number of iterations; [length content] is enough,
    since [i] grows with each of them. *)
Fixpoint payloadLoop (fuel i : nat) (content : list byte)
    (builder : list ScriptItem) : list ScriptItem :=
  match fuel with
  | O => builder
  | S fuel =>
      if (i <? length content)%nat then
        let end_ := (i + maxChunkSize)%nat in
        let end_ := if (length content <? end_)%nat then length content else end_ in
        payloadLoop fuel (i + maxChunkSize) content
          (builder ++ [AddFullData (take (end_ - i) (drop i content))])%list
      else builder
  end.

(** The items of the inscription script of [BuildMvcCommonMetaIdTx]. *)
Definition inscriptionItems (operation path : string) (content : list byte)
  : list ScriptItem :=
  let operation := if String.eqb operation "" then "create" else operation in
  let inscriptionBuilder :=
    [AddOp OP_0; AddOp OP_RETURN;
     AddData (list_byte_of_string "metaid");
     AddData (list_byte_of_string operation)] in
  let inscriptionBuilder :=
    (inscriptionBuilder ++ [AddData (list_byte_of_string path)])%list in
  let inscriptionBuilder :=
    (inscriptionBuilder ++ [AddData (list_byte_of_string "0")])%list in
  let inscriptionBuilder :=
    (inscriptionBuilder ++ [AddData (list_byte_of_string "0.0.1")])%list in
  let inscriptionBuilder :=
    (inscriptionBuilder ++ [AddData (list_byte_of_string "application/json")])%list in
  payloadLoop (length content) 0 content inscriptionBuilder.

Section WithLib.
Context (L : TxLib).

(** The loops over [outs] and [otherOuts]: one pay-to-address output per
    entry, the amounts added up in an [int64]. *)
Fixpoint addOutputs (outs : list TxOutput) (txOut : list TxOut) (outAmount : Z)
  : result (list TxOut * Z) :=
  match outs with
  | [] => Ok (txOut, outAmount)
  | out :: rest =>
      match DecodeAddress L (oAddress out) with
      | Err e => Err e
      | Ok addr =>
          match PayToAddrScript L addr with
          | Err e => Err e
          | Ok pkScript =>
              addOutputs rest (txOut ++ [mkTxOut (oAmount out) pkScript])%list
                (Int64.add outAmount (oAmount out))
          end
      end
  end.

(** The loop over [ins]: one unsigned input per entry, with the sequence
    number [wire.MaxTxInSequenceNum] that [wire.NewTxIn] sets. *)
Fixpoint addInputs (ins : list TxInputUtxo) (txIn : list TxIn) (totalAmount : Z)
  : result (list TxIn * Z) :=
  match ins with
  | [] => Ok (txIn, totalAmount)
  | in_ :: rest =>
      match NewHashFromStr L (uTxId in_) with
      | Err e => Err e
      | Ok hash =>
          let prevOut := mkOutPoint hash (Binary.uint32 (uTxIndex in_)) in
          addInputs rest (txIn ++ [mkTxIn prevOut [] 4294967295])%list
            (Int64.add totalAmount (Int64.wrap (uAmount in_)))
      end
  end.

(** The signing loop: [i] is the index of the first entry of [ins].  An
    error of [hex.DecodeString] is returned as it is; its text is not
    modelled.  [tx.TxIn[i]] is always in range, the transaction having one
    input per entry of [ins]. *)
Fixpoint signInputs (ins : list TxInputUtxo) (i : nat) (tx : MsgTx)
  : result MsgTx :=
  match ins with
  | [] => Ok tx
  | in_ :: rest =>
      match HexDecode.DecodeString (uPriHex in_) with
      | None => Err "encoding/hex"
      | Some privateKeyBytes =>
          match HexDecode.DecodeString (uPkScript in_) with
          | None => Err "encoding/hex"
          | Some pkScriptByte =>
              match SignatureScript L tx i (Int64.wrap (uAmount in_))
                      pkScriptByte privateKeyBytes with
              | Err e => Err e
              | Ok sigScript =>
                  match TxIns tx !! i with
                  | None => Err "index out of range"
                  | Some txIn =>
                      signInputs rest (S i)
                        (mkMsgTx (Version tx)
                           (<[i := mkTxIn (PreviousOutPoint txIn) sigScript
                                     (Sequence txIn)]> (TxIns tx))
                           (TxOuts tx) (LockTime tx))
                  end
              end
          end
      end
  end.

(** [tx.TxOut[len(tx.TxOut)-1].Value = v] *)
Definition setLastValue (v : Z) (txOut : list TxOut) : list TxOut :=
  match last txOut with
  | Some o => (removelast txOut ++ [mkTxOut v (PkScript o)])%list
  | None => txOut
  end.

(** [BuildMvcCommonMetaIdTx] *)
Definition BuildMvcCommonMetaIdTx (ins : list TxInputUtxo)
    (outs otherOuts : list TxOutput) (operation path : string)
    (content : list byte) (changeAddress : string) (feeRate : Z)
    (isUnSign : bool) : result MsgTx :=
  match addOutputs outs [] 0 with
  | Err e => Err e
  | Ok (txOut, outAmount) =>
      match Script L (inscriptionItems operation path content) with
      | Err e => Err e
      | Ok inscriptionScript =>
          let txOut := (txOut ++ [mkTxOut 0 inscriptionScript])%list in
          match addOutputs otherOuts txOut outAmount with
          | Err e => Err e
          | Ok (txOut, outAmount) =>
              let withChange :=
                if negb (String.eqb changeAddress "") then
                  match DecodeAddress L changeAddress with
                  | Err e => Err e
                  | Ok addr =>
                      let pkScriptByte :=
                        match PayToAddrScript L addr with
                        | Ok s => s
                        | Err _ => []
                        end in
                      Ok (txOut ++ [mkTxOut 0 pkScriptByte])%list
                  end
                else Ok txOut in
              match withChange with
              | Err e => Err e
              | Ok txOut =>
                  match addInputs ins [] 0 with
                  | Err e => Err e
                  | Ok (txIn, totalAmount) =>
                      let tx := mkMsgTx 10 txIn txOut 0 in
                      let txTotalSize := SerializeSize L tx in
                      let txFee := Int64.mul txTotalSize feeRate in
                      if (Int64.sub totalAmount outAmount <? txFee)%Z
                      then Err "insufficient fee"
                      else
                        let changeVal :=
                          Int64.sub (Int64.sub totalAmount outAmount) txFee in
                        let txOut :=
                          if (600 <=? changeVal)%Z
                             && negb (String.eqb changeAddress "")
                          then setLastValue changeVal txOut
                          else removelast txOut in
                        let tx := mkMsgTx 10 txIn txOut 0 in
                        if negb isUnSign then signInputs ins 0 tx else Ok tx
                  end
              end
          end
      end
  end.

End WithLib.
End TxBuilder.

(** ** The sync status and the block scanner

    The collections [sync_status] and [counters] of the Pebble database,
    with the counter the database keeps in memory.  They are kept in a
    record of their own: no operation touches both them and the MetaApp
    collections. *)

Module SyncStatus.

(** [models.IndexerSyncStatus] *)
Record IndexerSyncStatus : Type := mkIndexerSyncStatus {
  ID : Z;
  ChainName : string;
  CurrentSyncHeight : Z;
  CreatedAt : Time;
  UpdatedAt : Time
}.

Record Store : Type := mkStore {
  sync_status : KV.t IndexerSyncStatus;
  counters : KV.t string;
  statusIDCounter : Z
}.

Definition emptyStore : Store := mkStore KV.empty KV.empty 0.

Definition keyStatusCounter : string := "status".

(** [CreateOrUpdateIndexerSyncStatus]: returns the store and the record as
    the caller sees it afterwards (a fresh [ID] is filled in place). *)
Definition CreateOrUpdateIndexerSyncStatus (st : Store)
    (status : IndexerSyncStatus) : Store * IndexerSyncStatus :=
  let '(st, status) :=
    if (ID status =? 0)%Z then
      let id := Int64.add (statusIDCounter st) 1 in
      (mkStore (sync_status st)
         (KV.Set_ keyStatusCounter (Strings.FormatInt id) (counters st)) id,
       mkIndexerSyncStatus id (ChainName status) (CurrentSyncHeight status)
         (CreatedAt status) (UpdatedAt status))
    else (st, status) in
  (mkStore (KV.Set_ (ChainName status) status (sync_status st)) (counters st)
     (statusIDCounter st),
   status).

(** [GetIndexerSyncStatusByChainName] *)
Definition GetIndexerSyncStatusByChainName (st : Store) (chainName : string)
  : result IndexerSyncStatus :=
  match KV.Get chainName (sync_status st) with
  | Some status => Ok status
  | None => Err ErrNotFound
  end.

(** [UpdateIndexerSyncStatusHeight] *)
Definition UpdateIndexerSyncStatusHeight (st : Store) (chainName : string)
    (height : Z) : Store * option string :=
  match GetIndexerSyncStatusByChainName st chainName with
  | Err e => (st, Some e)
  | Ok status =>
      let status :=
        mkIndexerSyncStatus (ID status) (ChainName status) height
          (CreatedAt status) (UpdatedAt status) in
      (fst (CreateOrUpdateIndexerSyncStatus st status), None)
  end.

(** [GetAllIndexerSyncStatus] *)
Definition GetAllIndexerSyncStatus (st : Store) : list IndexerSyncStatus :=
  map snd (sync_status st).

(** [IndexerSyncStatusDAO.GetByChainName]: [ErrNotFound] becomes
    [(nil, nil)]. *)
Definition GetByChainName (st : Store) (chainName : string)
  : result (option IndexerSyncStatus) :=
  match GetIndexerSyncStatusByChainName st chainName with
  | Ok status => Ok (Some status)
  | Err e => if String.eqb e ErrNotFound then Ok None else Err e
  end.

(** [IndexerService.initializeSyncStatus] *)
Definition initializeSyncStatus (st : Store) (chainName : string)
    (startHeight : Z) : Store :=
  match GetByChainName st chainName with
  | Ok (Some existingStatus) => st
  | _ =>
      let initialHeight :=
        if (0 <? startHeight)%Z then Int64.sub startHeight 1 else 0%Z in
      let status := mkIndexerSyncStatus 0 chainName initialHeight 0 0 in
      fst (CreateOrUpdateIndexerSyncStatus st status)
  end.

(** [IndexerService.onBlockComplete] *)
Definition onBlockComplete (st : Store) (chainName : string) (height : Z)
  : Store * option string :=
  match UpdateIndexerSyncStatusHeight st chainName height with
  | (st, Some e) => (st, Some ("failed to update sync height: " ++ e))
  | (st, None) => (st, None)
  end.

(** The start height [NewIndexerServiceWithChain] hands to the scanner:
    [configStartHeight] is [conf.Cfg.Indexer.StartHeight], or the initial
    height configured for the chain when that is zero. *)
Definition startHeight (st : Store) (chainName : string)
    (cfgStartHeight cfgChainInitHeight : Z) : Z :=
  let currentSyncHeight :=
    match GetByChainName st chainName with
    | Ok (Some syncStatus) =>
        if (0 <? CurrentSyncHeight syncStatus)%Z
        then CurrentSyncHeight syncStatus else 0%Z
    | _ => 0%Z
    end in
  let configStartHeight :=
    if (cfgStartHeight =? 0)%Z then cfgChainInitHeight else cfgStartHeight in
  if (configStartHeight <? currentSyncHeight)%Z
  then Int64.add currentSyncHeight 1
  else if (0 <? configStartHeight)%Z then configStartHeight
  else 0%Z.

End SyncStatus.

Module Scanner.

(** What one call of [ScanBlock] meets: a failure to fetch or decode the
    block, or the block, given by its timestamp and, for each transaction
    in which [ParseAllPINs] finds pins, these pins; [now] is the reading of
    the clock while the block is handled. *)
Inductive ScanResult : Type :=
| ScanFailed
| Scanned (timestamp : Z) (transactions : list (list MetaIDData)) (now : Time).

(** The number of blocks among the outcomes of [ScanBlock]. *)
Definition scannedBlocks (attempts : list ScanResult) : nat :=
  length (List.filter (fun attempt => match attempt with
                                      | Scanned _ _ _ => true
                                      | ScanFailed => false
                                      end) attempts).

Section WithEnv.
Context (E : IndexerEnv) (chainName : string).

(** The loop of [ScanBlock] over the transactions of a block, with
    [IndexerService.handleTransaction] as the handler. *)
Fixpoint scanTransactions (db : PebbleDatabase)
    (transactions : list (list MetaIDData)) (height timestamp : Z) (now : Time)
  : option PebbleDatabase :=
  match transactions with
  | [] => Some db
  | pins :: rest =>
      match IndexerService.handleTransaction E db pins height timestamp now with
      | Some db => scanTransactions db rest height timestamp now
      | None => None
      end
  end.

(** The catching-up loop of [BlockScanner.Start],
    [for currentHeight <= latestHeight], run over the outcomes of the calls
    of [ScanBlock] it makes, in order: a failed block is tried again, a
    scanned one is reported to [onBlockComplete], whose error is only
    logged, and the height moves on.  The result is the state and the
    height when the loop ends or the outcomes are used up. *)
Fixpoint catchUp (attempts : list ScanResult) (db : PebbleDatabase)
    (st : SyncStatus.Store) (currentHeight latestHeight : Z)
  : option (PebbleDatabase * SyncStatus.Store * Z) :=
  match attempts with
  | [] => Some (db, st, currentHeight)
  | attempt :: rest =>
      if (latestHeight <? currentHeight)%Z then Some (db, st, currentHeight)
      else
        match attempt with
        | ScanFailed => catchUp rest db st currentHeight latestHeight
        | Scanned timestamp transactions now =>
            match scanTransactions db transactions currentHeight timestamp now with
            | None => None
            | Some db =>
                let st := fst (SyncStatus.onBlockComplete st chainName currentHeight) in
                catchUp rest db st (Int64.add currentHeight 1) latestHeight
            end
        end
  end.

End WithEnv.
End Scanner.

(** ** Temporary deployments ([service/indexer_service], TempDeployService)

    The collections [temp_app_deploy] and [temp_app_chunk_upload] of the
    Pebble database, in a record of their own.  A reading of the clock is
    a number of nanoseconds, the unit of [time.Duration]; the calls of
    [time.Now] within one operation all read [now]. *)

Module TempDeploy.
Import Strings.

(** [models.TempAppDeploy] *)
Record TempAppDeploy : Type := mkTempAppDeploy {
  TokenID : string;
  DeployFilePath : string;
  ExpiresAt : Time;
  Status : string;
  Message : string;
  CreatedAt : Time;
  UpdatedAt : Time
}.

(** [models.TempAppChunkUpload] *)
Record TempAppChunkUpload : Type := mkTempAppChunkUpload {
  UploadID : string;
  uTokenID : string;
  TotalSize : Z;
  TotalChunks : Z;
  ChunkSize : Z;
  UploadedChunks : gmap Z bool;
  uStatus : string;
  uMessage : string;
  uCreatedAt : Time;
  uUpdatedAt : Time
}.

Record Store : Type := mkStore {
  temp_app_deploy : KV.t TempAppDeploy;
  temp_app_chunk_upload : gmap string TempAppChunkUpload
}.

Definition emptyStore : Store := mkStore KV.empty ∅.

(** [conf.Cfg.TempApp] and the archive reader. *)
Record TempEnv : Type := mkTempEnv {
  cfgDeployFilePath : string;
  cfgExpireHours : Z;
  cfgChunkSize : Z;
  zip_OpenReader : list byte -> result (list ZipFile)
}.

(** *** The database and its DAO *)

Definition CreateTempAppDeploy (st : Store) (deploy : TempAppDeploy) : Store :=
  mkStore (KV.Set_ (TokenID deploy) deploy (temp_app_deploy st))
    (temp_app_chunk_upload st).

Definition GetTempAppDeployByTokenID (st : Store) (tokenID : string)
  : result TempAppDeploy :=
  match KV.Get tokenID (temp_app_deploy st) with
  | Some deploy => Ok deploy
  | None => Err ErrNotFound
  end.

Definition DeleteTempAppDeploy (st : Store) (tokenID : string) : Store :=
  mkStore (KV.Delete tokenID (temp_app_deploy st)) (temp_app_chunk_upload st).

(** [ListExpiredTempAppDeploys]: the records whose [ExpiresAt] is before
    the current time, in key order. *)
Definition ListExpiredTempAppDeploys (st : Store) (now : Time)
  : list TempAppDeploy :=
  List.filter (fun deploy => (ExpiresAt deploy <? now)%Z)
    (map snd (temp_app_deploy st)).

(** [CreateTempAppChunkUpload] *)
Definition CreateTempAppChunkUpload (st : Store) (upload : TempAppChunkUpload)
  : Store :=
  mkStore (temp_app_deploy st)
    (<[UploadID upload := upload]> (temp_app_chunk_upload st)).

(** [UpdateTempAppChunkUpload] *)
Definition UpdateTempAppChunkUpload (st : Store) (upload : TempAppChunkUpload)
  : Store :=
  mkStore (temp_app_deploy st)
    (<[UploadID upload := upload]> (temp_app_chunk_upload st)).

Definition GetTempAppChunkUploadByUploadID (st : Store) (uploadID : string)
  : result TempAppChunkUpload :=
  match temp_app_chunk_upload st !! uploadID with
  | Some upload => Ok upload
  | None => Err ErrNotFound
  end.

Definition DeleteTempAppChunkUpload (st : Store) (uploadID : string) : Store :=
  mkStore (temp_app_deploy st) (delete uploadID (temp_app_chunk_upload st)).

(** *** The file system *)

(** [os.RemoveAll]: the path itself and everything under it. *)
Definition RemoveAll (fs : FileSystem) (path : string) : FileSystem :=
  mkFS (filter (fun kv => negb (String.eqb (fst kv) path
                                || OS.under path (fst kv))) (files fs))
       (filter (fun d => negb (String.eqb d path || OS.under path d)) (dirs fs)).

(** [filepath.Join] of three elements. *)
Definition Join3 (a b c : string) : string :=
  match List.filter (fun e => negb (String.eqb e "")) [a; b; c] with
  | [] => ""
  | elems => Filepath.Clean (String.concat "/" elems)
  end.

(** [strings.ReplaceAll(s, "-", "_")] *)
Fixpoint replaceDashes (s : string) : string :=
  match s with
  | EmptyString => EmptyString
  | String c r => String (if Ascii.eqb c "-" then "_"%char else c) (replaceDashes r)
  end.

(** [time.Hour], and [time.Now().Add(time.Duration(hours) * time.Hour)]. *)
Definition Hour : Z := 3600000000000.
Definition expiry (now : Time) (expireHours : Z) : Time :=
  (now + Int64.mul expireHours Hour)%Z.

Section WithEnv.
Context (T : TempEnv).

Definition deployBaseDir : string :=
  if String.eqb (cfgDeployFilePath T) "" then "./temp_app_deploy_data"
  else cfgDeployFilePath T.

Definition expireHours : Z :=
  if (cfgExpireHours T =? 0)%Z then 24%Z else cfgExpireHours T.

(** The loop of [extractZip] over the members of the archive. *)
Fixpoint extractEntries (fs : FileSystem) (destDir : string)
    (entries : list ZipFile) : FileSystem * option string :=
  match entries with
  | [] => (fs, None)
  | f :: rest =>
      let fpath := Filepath.Join destDir (zName f) in
      if negb (HasPrefix fpath (Filepath.Clean destDir ++ Filepath.PathSeparator))
      then (fs, Some ("invalid file path: " ++ zName f))
      else if zIsDir f
      then extractEntries (OS.MkdirAll fs fpath) destDir rest
      else
        let fs := OS.MkdirAll fs (Filepath.Dir fpath) in
        extractEntries (OS.WriteFile fs fpath (zData f)) destDir rest
  end.

(** [extractZip] *)
Definition extractZip (fs : FileSystem) (zipPath destDir : string)
  : FileSystem * option string :=
  match files fs !! zipPath with
  | None => (fs, Some ("open " ++ zipPath ++ ": no such file or directory"))
  | Some bytes =>
      match zip_OpenReader T bytes with
      | Err e => (fs, Some e)
      | Ok entries => extractEntries fs destDir entries
      end
  end.


(** [CleanupExpiredTempApps]: the loop over the expired records. *)
Definition CleanupExpiredTempApps (st : Store) (fs : FileSystem) (now : Time)
  : Store * FileSystem :=
  fold_left
    (fun '(st, fs) deploy =>
       let fs := if negb (String.eqb (DeployFilePath deploy) "")
                 then RemoveAll fs (DeployFilePath deploy) else fs in
       (DeleteTempAppDeploy st (TokenID deploy), fs))
    (ListExpiredTempAppDeploys st now) (st, fs).

Definition chunkSize : Z :=
  if (cfgChunkSize T =? 0)%Z then (5 * 1024 * 1024)%Z else cfgChunkSize T.

(** [InitChunkUpload]; the division of Go truncates towards zero. *)
Definition InitChunkUpload (st : Store) (fs : FileSystem) (uuid : result string)
    (totalSize : Z) (now : Time)
  : Store * FileSystem * result TempAppChunkUpload :=
  match uuid with
  | Err e => (st, fs, Err ("failed to generate uploadID: " ++ e))
  | Ok uploadID =>
      let uploadID := replaceDashes uploadID in
      let totalChunks :=
        Z.quot (Int64.sub (Int64.add totalSize chunkSize) 1) chunkSize in
      let chunksDir := Join3 deployBaseDir "chunks" uploadID in
      let fs := OS.MkdirAll fs chunksDir in
      let upload :=
        mkTempAppChunkUpload uploadID "" totalSize totalChunks chunkSize ∅
          "uploading" "" now now in
      (CreateTempAppChunkUpload st upload, fs, Ok upload)
  end.

Definition chunkFilePath (uploadID : string) (chunkIndex : Z) : string :=
  Filepath.Join (Join3 deployBaseDir "chunks" uploadID)
    ("chunk_" ++ FormatInt chunkIndex).

(** [UploadChunk] *)
Definition UploadChunk (st : Store) (fs : FileSystem) (uploadID : string)
    (chunkIndex : Z) (chunkData : list byte) (now : Time)
  : Store * FileSystem * option string :=
  match GetTempAppChunkUploadByUploadID st uploadID with
  | Err e => (st, fs, Some ("failed to get chunk upload record: " ++ e))
  | Ok upload =>
      if (chunkIndex <? 0)%Z || (TotalChunks upload <=? chunkIndex)%Z
      then (st, fs,
            Some ("invalid chunk index: " ++ FormatInt chunkIndex
                  ++ ", total chunks: " ++ FormatInt (TotalChunks upload)))
      else
        let fs := OS.WriteFile fs (chunkFilePath uploadID chunkIndex) chunkData in
        let upload :=
          mkTempAppChunkUpload (UploadID upload) (uTokenID upload)
            (TotalSize upload) (TotalChunks upload) (ChunkSize upload)
            (<[chunkIndex := true]> (UploadedChunks upload))
            (uStatus upload) (uMessage upload) (uCreatedAt upload) now in
        (UpdateTempAppChunkUpload st upload, fs, None)
  end.

(** The first index below [TotalChunks] that has not been uploaded: the
    loop [for i := 0; i < upload.TotalChunks; i++] that looks for a missing
    chunk, [n] counting the indices left. *)
Fixpoint firstMissing (uploaded : gmap Z bool) (i : Z) (n : nat) : option Z :=
  match n with
  | O => None
  | S n =>
      if negb (default false (uploaded !! i)) then Some i
      else firstMissing uploaded (i + 1) n
  end.

(** The record with another status and message. *)
Definition withStatus (status message : string) (updatedAt : Time)
    (upload : TempAppChunkUpload) : TempAppChunkUpload :=
  mkTempAppChunkUpload (UploadID upload) (uTokenID upload) (TotalSize upload)
    (TotalChunks upload) (ChunkSize upload) (UploadedChunks upload)
    status message (uCreatedAt upload) updatedAt.

(** The loop of [MergeChunks] that appends the chunk files to the merged
    archive in the order of their indices; it stops at the first chunk
    file that cannot be opened and returns its index. *)
Fixpoint mergeLoop (fs : FileSystem) (uploadID zipFilePath : string) (i : Z)
    (n : nat) : FileSystem * option Z :=
  match n with
  | O => (fs, None)
  | S n =>
      match files fs !! chunkFilePath uploadID i with
      | None => (fs, Some i)
      | Some chunk =>
          let merged := default [] (files fs !! zipFilePath) in
          mergeLoop (OS.WriteFile fs zipFilePath (merged ++ chunk)%list)
            uploadID zipFilePath (i + 1) n
      end
  end.

(** [MergeChunks]; [uuid] is what [tool.GetUUID] returns. *)
Definition MergeChunks (st : Store) (fs : FileSystem) (uploadID : string)
    (uuid : result string) (now : Time)
  : Store * FileSystem * result TempAppDeploy :=
  match GetTempAppChunkUploadByUploadID st uploadID with
  | Err e => (st, fs, Err ("failed to get chunk upload record: " ++ e))
  | Ok upload =>
      if negb (Z.of_nat (size (UploadedChunks upload)) =? TotalChunks upload)%Z
      then (st, fs,
            Err ("not all chunks uploaded: "
                 ++ FormatInt (Z.of_nat (size (UploadedChunks upload)))
                 ++ "/" ++ FormatInt (TotalChunks upload)))
      else
        match firstMissing (UploadedChunks upload) 0
                (Z.to_nat (TotalChunks upload)) with
        | Some i => (st, fs, Err ("chunk " ++ FormatInt i ++ " is missing"))
        | None =>
            let upload := withStatus "merging" (uMessage upload) now upload in
            let st := UpdateTempAppChunkUpload st upload in
            let chunksDir := Join3 deployBaseDir "chunks" uploadID in
            let zipFilePath := Filepath.Join chunksDir "merged.zip" in
            let fs := OS.WriteFile fs zipFilePath [] in
            match mergeLoop fs uploadID zipFilePath 0
                    (Z.to_nat (TotalChunks upload)) with
            | (fs, Some i) =>
                let e := "open " ++ chunkFilePath uploadID i
                         ++ ": no such file or directory" in
                let upload :=
                  withStatus "failed"
                    ("failed to open chunk " ++ FormatInt i ++ ": " ++ e)
                    now upload in
                (UpdateTempAppChunkUpload st upload, fs,
                 Err ("failed to open chunk " ++ FormatInt i ++ ": " ++ e))
            | (fs, None) =>
                match uuid with
                | Err e =>
                    let upload :=
                      withStatus "failed" ("failed to generate tokenID: " ++ e)
                        now upload in
                    (UpdateTempAppChunkUpload st upload, fs,
                     Err ("failed to generate tokenID: " ++ e))
                | Ok tokenID =>
                    let tokenID := replaceDashes tokenID in
                    let appDeployDir := Filepath.Join deployBaseDir tokenID in
                    let fs := OS.MkdirAll fs appDeployDir in
                    match extractZip fs zipFilePath appDeployDir with
                    | (fs, Some e) =>
                        let fs := RemoveAll fs appDeployDir in
                        let upload :=
                          withStatus "failed" ("failed to extract zip: " ++ e)
                            now upload in
                        (UpdateTempAppChunkUpload st upload, fs,
                         Err ("failed to extract zip file: " ++ e))
                    | (fs, None) =>
                        let fs := OS.Remove fs zipFilePath in
                        let deploy :=
                          mkTempAppDeploy tokenID appDeployDir
                            (expiry now expireHours) "completed" "" now now in
                        let st := CreateTempAppDeploy st deploy in
                        let upload :=
                          mkTempAppChunkUpload (UploadID upload) tokenID
                            (TotalSize upload) (TotalChunks upload)
                            (ChunkSize upload) (UploadedChunks upload)
                            "completed" (uMessage upload) (uCreatedAt upload)
                            now in
                        let st := UpdateTempAppChunkUpload st upload in
                        let fs := RemoveAll fs chunksDir in
                        (DeleteTempAppChunkUpload st uploadID, fs, Ok deploy)
                    end
                end
            end
        end
  end.

End WithEnv.
End TempDeploy.

(** ** The elements of a cleaned path

    What [Filepath.cleanElems] keeps of a path: elements [".."], at the
    front of a relative path only, and elements that are neither empty nor
    ["."] nor [".."]. *)

Module CleanedPath.


Definition dotdot (e : string) : Prop := e = "..".

End CleanedPath.

(** ** More sample data *)

Module Examples.
Import Sample.

(** The record of a create pin with the given pin id and timestamp (in
    milliseconds), before it is stored. *)
Definition appAt (pinID : string) (timestamp : Z) : MetaApp :=
  IndexerService.buildMetaApp env (createPin pinID) (proto "") "" 0 timestamp 0.

Definition threeApps : list MetaApp :=
  [appAt P0 1700000000001; appAt P1 1700000000003; appAt PA 1700000000002].

(** Stand-ins for the libraries of the transaction builder: an address is
    its text, its script the bytes of the text; a script is its data items
    put together; a transaction weighs ten bytes per input and output. *)
Definition txLib : TxBuilder.TxLib :=
  {| TxBuilder.Address := string;
     TxBuilder.DecodeAddress := fun s =>
       if String.eqb s "" then Err "empty address" else Ok s;
     TxBuilder.PayToAddrScript := fun a => Ok (list_byte_of_string a);
     TxBuilder.NewHashFromStr := fun _ => Ok (repeat x11 32);
     TxBuilder.Script := fun items =>
       Ok (concat (map (fun item =>
                          match item with
                          | TxBuilder.AddOp op => [Binary.byte_of_Z op]
                          | TxBuilder.AddData d => d
                          | TxBuilder.AddFullData d => d
                          end) items));
     TxBuilder.SerializeSize := fun tx =>
       (10 * Z.of_nat (length (Wire.TxIns tx) + length (Wire.TxOuts tx)))%Z;
     TxBuilder.SignatureScript := fun _ _ _ _ _ => Ok [x51] |}.

Definition utxo : TxBuilder.TxInputUtxo :=
  TxBuilder.mkTxInputUtxo (repeatChar 64 "1") 0 "51" 10000 "01" "legacy".

(** The transaction built from one input of 10000 units and one requested
    output of 1000 units, at a fee rate of 1, with or without a change
    address. *)
Definition built (changeAddress : string) : Wire.MsgTx :=
  match TxBuilder.BuildMvcCommonMetaIdTx txLib [utxo]
          [TxBuilder.mkTxOutput "1alice" 1000] [] "" "/protocols/metaapp"
          (list_byte_of_string "{}") changeAddress 1 true with
  | Ok tx => tx
  | Err _ => Wire.mkMsgTx 0 [] [] 0
  end.

(** A scan of the MVC chain from height 100: the status as
    [initializeSyncStatus] leaves it, and the outcomes of three calls of
    [ScanBlock], the first of which fails. *)
Definition syncStore : SyncStatus.Store :=
  SyncStatus.initializeSyncStatus SyncStatus.emptyStore "mvc" 100.

Definition attempts : list Scanner.ScanResult :=
  [Scanner.ScanFailed;
   Scanner.Scanned 1700000000000 [[createPin P0]] 1;
   Scanner.Scanned 1700000600000 [] 2].

(** The store after the create pin [P0], the modify pin [P1] of [P0] and
    the create pin [PB] have been ingested, in that order: three records
    of two apps. *)
Definition twoApps : PebbleDatabase :=
  let db :=
    default emptyDB
      (IndexerService.handleTransaction env emptyDB [createPin P0]
         100 1700000000000 0) in
  let db :=
    default db
      (IndexerService.handleTransaction env db [modifyPin P1 P0]
         101 1700000600000 0) in
  default db
    (IndexerService.handleTransaction env db [createPin PB]
       102 1700001200000 0).

(** The record stored in [twoApps] under a pin id. *)
Definition recordOf (pinID : string) : MetaApp :=
  default freshApp (metaapp_pin twoApps !! pinID).



(** A configuration of the temporary deployments whose archive reader
    answers every upload with the archive [evilArchive], and an upload of
    two chunks of which the second has arrived. *)
Definition tempEnv : TempDeploy.TempEnv :=
  {| TempDeploy.cfgDeployFilePath := "temp";
     TempDeploy.cfgExpireHours := 0;
     TempDeploy.cfgChunkSize := 4;
     TempDeploy.zip_OpenReader := fun _ => Ok evilArchive |}.

Definition halfUploaded : TempDeploy.Store * FileSystem :=
  let '(st, fs, _) :=
    TempDeploy.InitChunkUpload tempEnv TempDeploy.emptyStore OS.emptyFS
      (Ok "u-1") 7 0 in
  let '(st, fs, _) :=
    TempDeploy.UploadChunk tempEnv st fs "u_1" 1 (list_byte_of_string "efg") 1 in
  (st, fs).

Definition halfUploadedRecord : TempDeploy.TempAppChunkUpload :=
  TempDeploy.mkTempAppChunkUpload "u_1" "" 7 2 4 (<[1%Z := true]> ∅)
    "uploading" "" 0 1.

(** A file system that holds both chunks of that upload. *)
Definition twoChunks : FileSystem :=
  OS.WriteFile
    (OS.WriteFile OS.emptyFS (TempDeploy.chunkFilePath tempEnv "u_1" 1)
       (list_byte_of_string "efg"))
    (TempDeploy.chunkFilePath tempEnv "u_1" 0) (list_byte_of_string "abcd").

Definition chunkOf (k : Z) : list byte :=
  if (k =? 0)%Z then list_byte_of_string "abcd" else list_byte_of_string "efg".

End Examples.

(** * Properties *)

(** ** The deploy queue order *)

Import Database Sample.

(** The key of an item is the decimal text of [MaxInt64 - timestamp]: of the
    two sample items the older one has the larger key. *)
Lemma sample_keys :
  queueKey older = "9223370336854775807:" ++ P0
  /\ queueKey newer = "9223370336854175807:" ++ P1.
Proof. split; vm_compute; reflexivity. Qed.

(** C1 (evaluation of the code): with an older and a newer item queued, in
    either order of arrival, [GetNextDeployQueueItem] returns the newer one:
    the first key of a collection keyed by reverse timestamp belongs to the
    largest timestamp, not to the smallest. *)
Lemma C1_next_item_is_the_newest :
  (qTimestamp older < qTimestamp newer)%Z
  /\ GetNextDeployQueueItem (AddToDeployQueue (AddToDeployQueue emptyDB older) newer)
     = Ok newer
  /\ GetNextDeployQueueItem (AddToDeployQueue (AddToDeployQueue emptyDB newer) older)
     = Ok newer.
Proof. repeat split; vm_compute; reflexivity. Qed.

Import IndexerService Notions.

(** ** Facts about ordered collections *)

Section KVFacts.
Context {V : Type}.
Implicit Types (db : KV.t V) (k : string) (v : V).

Lemma compare_refl k : String.compare k k = Eq.
Proof.
  pose proof (String.compare_antisym k k) as H.
  destruct (String.compare k k); simpl in H; congruence.
Qed.

Lemma compare_Eq_eq a b : String.compare a b = Eq -> a = b.
Proof. apply String.compare_eq_iff. Qed.

Lemma keyLt_trans a b c : keyLt a b -> keyLt b c -> keyLt a c.
Proof.
  unfold keyLt. intros Hab Hbc.
  exact (StrictOrder_Transitive (R := String_as_OT.lt) a b c Hab Hbc).
Qed.

Lemma keyLt_irrefl a : ~ keyLt a a.
Proof. unfold keyLt. rewrite compare_refl. discriminate. Qed.

Lemma compare_Gt_keyLt a b : String.compare a b = Gt -> keyLt b a.
Proof.
  unfold keyLt. intros H. rewrite String.compare_antisym, H. reflexivity.
Qed.

(** Reading a key just written gives the value written. *)
Lemma Get_Set_eq k v db : KV.Get k (KV.Set_ k v db) = Some v.
Proof.
  induction db as [|[k' v'] rest IH]; simpl.
  - rewrite String.eqb_refl. reflexivity.
  - destruct (String.compare k k') eqn:Hc; simpl.
    + rewrite String.eqb_refl. reflexivity.
    + rewrite String.eqb_refl. reflexivity.
    + destruct (String.eqb_spec k k') as [->|Hne].
      * rewrite compare_refl in Hc. discriminate.
      * exact IH.
Qed.

(** Whatever holds of the value written and of the entries already there
    holds of every entry after a write, and after a delete. *)
Lemma Forall_Set (P : string * V -> Prop) k v db :
  P (k, v) -> Forall P db -> Forall P (KV.Set_ k v db).
Proof.
  intros Hkv. induction 1 as [|[k' v'] rest Hx Hrest IH]; simpl.
  - constructor; [exact Hkv | constructor].
  - destruct (String.compare k k'); constructor; auto.
Qed.

Lemma Forall_Delete (P : string * V -> Prop) k db :
  Forall P db -> Forall P (KV.Delete k db).
Proof.
  induction 1 as [|[k' v'] rest Hx Hrest IH]; simpl.
  - constructor.
  - destruct (String.eqb k k'); [exact Hrest | constructor; auto].
Qed.

Lemma Forall_deleteStale (P : string * V -> Prop) visited firstPinID newKey db :
  Forall P db -> Forall P (Database.deleteStale visited firstPinID newKey db).
Proof.
  unfold Database.deleteStale.
  assert (Hgen : forall (scanned acc : KV.t V), Forall P acc ->
    Forall P (fold_left
      (fun (acc : KV.t V) (kv : string * V) =>
         if visited (fst kv)
            && Strings.HasSuffix (fst kv) (":" ++ firstPinID)
            && negb (String.eqb (fst kv) newKey)
         then KV.Delete (fst kv) acc else acc) scanned acc)).
  { induction scanned as [|kv scanned IH]; intros acc Hacc; simpl.
    - exact Hacc.
    - apply IH.
      destruct (visited (fst kv) && _ && _); [apply Forall_Delete|]; exact Hacc. }
  apply Hgen.
Qed.

(** In a collection in strictly increasing key order, the entries after a
    write are the one written and the old ones under other keys. *)
Lemma In_Set k v db k' v' :
  In (k', v') (KV.Set_ k v db) ->
  (k' = k /\ v' = v) \/ In (k', v') db.
Proof.
  induction db as [|[k0 v0] rest IH]; simpl.
  - intros [H|[]]. left. split; congruence.
  - destruct (String.compare k k0) eqn:Hc; simpl.
    + intros [H|H]; [left; split; congruence | right; right; exact H].
    + intros [H|H]; [left; split; congruence | right; exact H].
    + intros [H|H]; [right; left; exact H|].
      destruct (IH H) as [?|?]; [left | right; right]; assumption.
Qed.

Lemma keys_Set_bound k v db b :
  keyLt b k -> Forall (keyLt b) (KV.keys db) ->
  Forall (keyLt b) (KV.keys (KV.Set_ k v db)).
Proof.
  intros Hbk. unfold KV.keys.
  induction db as [|[k0 v0] rest IH]; simpl; intros Hall.
  - constructor; [exact Hbk | constructor].
  - inversion Hall as [|? ? H0 Hrest]; subst.
    destruct (String.compare k k0); simpl.
    + constructor; [exact Hbk | exact Hrest].
    + constructor; [exact Hbk | constructor; assumption].
    + constructor; [exact H0 | apply IH; exact Hrest].
Qed.

Lemma sorted_Set k v db :
  StronglySorted keyLt (KV.keys db) ->
  StronglySorted keyLt (KV.keys (KV.Set_ k v db)).
Proof.
  unfold KV.keys.
  induction db as [|[k0 v0] rest IH]; simpl; intros Hs.
  - constructor; [constructor | constructor].
  - inversion Hs as [|? ? Hrest Hall]; subst.
    destruct (String.compare k k0) eqn:Hc; simpl.
    + apply compare_Eq_eq in Hc. subst k0.
      constructor; assumption.
    + constructor; [exact Hs|].
      constructor; [exact Hc|].
      eapply Forall_impl; [exact Hall|].
      intros x Hx. eapply keyLt_trans; [exact Hc | exact Hx].
    + constructor; [apply IH; exact Hrest|].
      apply (keys_Set_bound k v rest k0); [|exact Hall].
      apply compare_Gt_keyLt. exact Hc.
Qed.

Lemma keys_Delete_bound k db b :
  Forall (keyLt b) (KV.keys db) -> Forall (keyLt b) (KV.keys (KV.Delete k db)).
Proof.
  unfold KV.keys.
  induction db as [|[k0 v0] rest IH]; simpl; intros Hall.
  - constructor.
  - inversion Hall; subst.
    destruct (String.eqb k k0); simpl; [assumption | constructor; auto].
Qed.

Lemma sorted_Delete k db :
  StronglySorted keyLt (KV.keys db) ->
  StronglySorted keyLt (KV.keys (KV.Delete k db)).
Proof.
  unfold KV.keys.
  induction db as [|[k0 v0] rest IH]; simpl; intros Hs.
  - constructor.
  - inversion Hs as [|? ? Hrest Hall]; subst.
    destruct (String.eqb k k0); simpl; [exact Hrest|].
    constructor; [apply IH; exact Hrest|].
    apply keys_Delete_bound. exact Hall.
Qed.

Lemma In_Delete k db kv : In kv (KV.Delete k db) -> In kv db.
Proof.
  induction db as [|[k0 v0] rest IH]; simpl; [tauto|].
  destruct (String.eqb k k0); simpl; [tauto|].
  intros [H|H]; [left; exact H | right; apply IH; exact H].
Qed.

End KVFacts.

(** ** Records written by [CreateMetaApp] *)

Lemma In_insertByTimestampDesc a l x :
  In x (insertByTimestampDesc a l) <-> x = a \/ In x l.
Proof.
  induction l as [|b r IH]; simpl.
  - intuition congruence.
  - destruct (Timestamp b <=? Timestamp a)%Z; simpl; [intuition congruence|].
    rewrite IH. intuition congruence.
Qed.

Lemma In_sortByTimestampDesc l x : In x (sortByTimestampDesc l) <-> In x l.
Proof.
  unfold sortByTimestampDesc.
  induction l as [|a r IH]; simpl; [tauto|].
  rewrite In_insertByTimestampDesc, IH. intuition congruence.
Qed.

Lemma Forall_sortByTimestampDesc (P : MetaApp -> Prop) l :
  Forall P l -> Forall P (sortByTimestampDesc l).
Proof.
  rewrite !List.Forall_forall. intros H x Hx.
  apply H, In_sortByTimestampDesc, Hx.
Qed.

Lemma length_insertByTimestampDesc a l :
  length (insertByTimestampDesc a l) = S (length l).
Proof.
  induction l as [|b r IH]; simpl; [reflexivity|].
  destruct (Timestamp b <=? Timestamp a)%Z; simpl; congruence.
Qed.

Lemma length_sortByTimestampDesc l : length (sortByTimestampDesc l) = length l.
Proof.
  unfold sortByTimestampDesc.
  induction l as [|a r IH]; simpl; [reflexivity|].
  rewrite length_insertByTimestampDesc. congruence.
Qed.

Lemma CreateMetaApp_snd db app : snd (CreateMetaApp db app) = written app.
Proof.
  unfold CreateMetaApp, written. simpl.
  destruct (String.eqb (FirstPinId app) ""); reflexivity.
Qed.

Lemma written_FirstPinId app :
  FirstPinId (written app)
  = if String.eqb (FirstPinId app) "" then PinID app else FirstPinId app.
Proof. unfold written. destruct (String.eqb (FirstPinId app) ""); reflexivity. Qed.

Lemma written_PinID app : PinID (written app) = PinID app.
Proof. unfold written. destruct (String.eqb (FirstPinId app) ""); reflexivity. Qed.

Lemma written_Timestamp app : Timestamp (written app) = Timestamp app.
Proof. unfold written. destruct (String.eqb (FirstPinId app) ""); reflexivity. Qed.

Lemma written_CreatorMetaId app : CreatorMetaId (written app) = CreatorMetaId app.
Proof. unfold written. destruct (String.eqb (FirstPinId app) ""); reflexivity. Qed.

Lemma CreateMetaApp_pin db app :
  metaapp_pin (fst (CreateMetaApp db app))
  = <[PinID app := written app]> (metaapp_pin db).
Proof.
  unfold CreateMetaApp, written. simpl.
  destruct (String.eqb (FirstPinId app) ""); reflexivity.
Qed.

Lemma CreateMetaApp_latest db app :
  metaapp_pin_latest (fst (CreateMetaApp db app))
  = <[FirstPinId (written app) := written app]> (metaapp_pin_latest db).
Proof.
  unfold CreateMetaApp, written. simpl.
  destruct (String.eqb (FirstPinId app) ""); reflexivity.
Qed.

Lemma CreateMetaApp_history db app :
  metaapp_pin_history (fst (CreateMetaApp db app))
  = addToHistory (FirstPinId (written app)) (written app) (metaapp_pin_history db).
Proof.
  unfold CreateMetaApp, written. simpl.
  destruct (String.eqb (FirstPinId app) ""); reflexivity.
Qed.

Lemma CreateMetaApp_queue db app :
  metaapp_deploy_queue (fst (CreateMetaApp db app)) = metaapp_deploy_queue db.
Proof. reflexivity. Qed.

Lemma CreateMetaApp_deploy_file_content db app :
  metaapp_deploy_file_content (fst (CreateMetaApp db app))
  = metaapp_deploy_file_content db.
Proof. reflexivity. Qed.

Lemma CreateMetaApp_meta_timestamp db app :
  let first := FirstPinId (written app) in
  let key := CreatorMetaId app ++ ":" ++ reverseTimestampKey (Timestamp app)
             ++ ":" ++ first in
  metaapp_meta_timestamp (fst (CreateMetaApp db app))
  = KV.Set_ key (written app)
      (deleteStale (KV.in_bounds (CreatorMetaId app ++ ":")
                      ((CreatorMetaId app ++ ":") ++ "~"))
         first key (metaapp_meta_timestamp db)).
Proof.
  unfold CreateMetaApp, written. simpl.
  destruct (String.eqb (FirstPinId app) ""); reflexivity.
Qed.

Lemma CreateMetaApp_timestamp db app :
  let first := FirstPinId (written app) in
  let key := reverseTimestampKey (Timestamp app) ++ ":" ++ first in
  metaapp_timestamp (fst (CreateMetaApp db app))
  = KV.Set_ key (written app)
      (deleteStale (fun _ => true) first key (metaapp_timestamp db)).
Proof.
  unfold CreateMetaApp, written. simpl.
  destruct (String.eqb (FirstPinId app) ""); reflexivity.
Qed.

(** C9: [CreateMetaApp] writes the record with [FirstPinId] set to the
    record's own [PinID] when it was empty; that record, whose [FirstPinId]
    is not empty as long as its [PinID] is not, is what the pin, latest,
    history, by-creator and by-time collections hold afterwards; and if no
    stored record had an empty [FirstPinId] before, none has one after. *)
Theorem C9_CreateMetaApp_sets_first_pin_id (db : PebbleDatabase) (app : MetaApp) :
  PinID app <> "" ->
  let db' := fst (CreateMetaApp db app) in
  let app' := snd (CreateMetaApp db app) in
  let rts := reverseTimestampKey (Timestamp app) in
  FirstPinId app'
  = (if String.eqb (FirstPinId app) "" then PinID app else FirstPinId app)
  /\ FirstPinId app' <> ""
  /\ metaapp_pin db' !! PinID app = Some app'
  /\ metaapp_pin_latest db' !! FirstPinId app' = Some app'
  /\ (exists h, metaapp_pin_history db' !! FirstPinId app' = Some h /\ In app' h)
  /\ KV.Get (CreatorMetaId app ++ ":" ++ rts ++ ":" ++ FirstPinId app')
       (metaapp_meta_timestamp db') = Some app'
  /\ KV.Get (rts ++ ":" ++ FirstPinId app') (metaapp_timestamp db') = Some app'
  /\ (allFirstPinIdsSet db -> allFirstPinIdsSet db').
Proof.
  intros Hpin db' app' rts. subst db' app' rts.
  rewrite CreateMetaApp_snd.
  assert (Hset : firstPinIdSet (written app)).
  { unfold firstPinIdSet. rewrite written_FirstPinId.
    destruct (String.eqb_spec (FirstPinId app) ""); assumption. }
  split; [apply written_FirstPinId|].
  split; [exact Hset|].
  split; [rewrite CreateMetaApp_pin; apply lookup_insert_eq|].
  split; [rewrite CreateMetaApp_latest; apply lookup_insert_eq|].
  split.
  { rewrite CreateMetaApp_history. unfold addToHistory.
    eexists. split; [apply lookup_insert_eq|].
    apply In_sortByTimestampDesc, in_or_app. right. left. reflexivity. }
  split; [rewrite CreateMetaApp_meta_timestamp; apply Get_Set_eq|].
  split; [rewrite CreateMetaApp_timestamp; apply Get_Set_eq|].
  intros (Hp & Hl & Hh & Hc & Ht).
  unfold allFirstPinIdsSet.
  rewrite CreateMetaApp_pin, CreateMetaApp_latest, CreateMetaApp_history,
    CreateMetaApp_meta_timestamp, CreateMetaApp_timestamp.
  split; [apply map_Forall_insert_2; assumption|].
  split; [apply map_Forall_insert_2; assumption|].
  split.
  { unfold addToHistory. apply map_Forall_insert_2; [|assumption].
    apply Forall_sortByTimestampDesc, Forall_app. split.
    - destruct (metaapp_pin_history db !! FirstPinId (written app)) as [h|] eqn:Hlook;
        simpl; [exact (Hh _ _ Hlook) | constructor].
    - constructor; [exact Hset | constructor]. }
  split; (apply Forall_Set; [exact Hset | apply Forall_deleteStale; assumption]).
Qed.

Lemma C9_witness :
  PinID freshApp <> ""
  /\ FirstPinId freshApp = ""
  /\ FirstPinId (snd (CreateMetaApp emptyDB freshApp)) = P0.
Proof.
  split; [vm_compute; discriminate|].
  split; [vm_compute; reflexivity|].
  destruct (C9_CreateMetaApp_sets_first_pin_id emptyDB freshApp) as [H _];
    [vm_compute; discriminate|].
  rewrite H. vm_compute. reflexivity.
Defined.

(** ** Re-ingesting a stored pin *)


(** C2 (evaluation of the code): a create pin ingested from the mempool
    (height 0) and then from a block at height 100 leaves two history
    entries for the same pin id, one per arrival, where ingesting it from
    the block alone leaves one: the height bump goes through
    [UpdateMetaApp], which is [CreateMetaApp], which appends to the
    history. *)
Lemma C2_second_arrival_appends_to_history :
  option_map (fun st => historyOf (fst st) P0)
    (run env (deployEnv zipInfo) (emptyDB, OS.emptyFS)
       [Ingest [createPin P0] 0 1700000000000 1;
        Ingest [createPin P0] 100 1700000000000 2])
  = Some [(P0, 0%Z); (P0, 100%Z)]
  /\ option_map (fun st => historyOf (fst st) P0)
       (run env (deployEnv zipInfo) (emptyDB, OS.emptyFS)
          [Ingest [createPin P0] 100 1700000000000 2])
     = Some [(P0, 100%Z)].
Proof. split; vm_compute; reflexivity. Qed.

(** The same for every stored pin: a later arrival at a higher, positive
    height adds one entry to the history of its logical app. *)
Lemma height_bump_grows_history E db metaData height timestamp now existing :
  fst (isMetaAppPath (mPath metaData)) = true ->
  metaapp_pin db !! mPinID metaData = Some existing ->
  (BlockHeight existing < height)%Z -> (0 < height)%Z ->
  exists db',
    handleMetaIDData E db metaData height timestamp now = Some db'
    /\ length (default [] (metaapp_pin_history db'
                             !! FirstPinId (written (set_BlockHeight height existing))))
       = S (length (default [] (metaapp_pin_history db
                                  !! FirstPinId (written (set_BlockHeight height existing))))).
Proof.
  intros HmetaApp Hstored Hlower Hpositive. unfold handleMetaIDData.
  destruct (isMetaAppPath (mPath metaData)) as [isMetaApp isPathPinID].
  simpl in HmetaApp. subst isMetaApp. cbn [negb].
  unfold GetMetaAppByPinID. rewrite Hstored.
  rewrite (proj2 (Z.ltb_lt _ _) Hlower), (proj2 (Z.ltb_lt _ _) Hpositive).
  cbn [andb]. eexists. split; [reflexivity|].
  unfold UpdateMetaApp. rewrite CreateMetaApp_history. unfold addToHistory.
  rewrite lookup_insert_eq. cbn [from_option id].
  rewrite length_sortByTimestampDesc, length_app. cbn [length]. lia.
Qed.

(** ** Resolution of [first_pin_id] *)

Section Resolution.
Variable db : PebbleDatabase.
Implicit Types (p q : string) (visited : gset string).

Lemma resolve_visited fuel p visited :
  p ∈ visited ->
  findFirstPinIDRecursive (S fuel) db p visited
  = Some (Err ("circular reference detected for pinID: " ++ p)).
Proof.
  intros Hin. cbn [findFirstPinIDRecursive].
  rewrite bool_decide_eq_true_2 by exact Hin. reflexivity.
Qed.

Lemma resolve_absent fuel p visited :
  p ∉ visited -> metaapp_pin db !! p = None ->
  findFirstPinIDRecursive (S fuel) db p visited
  = Some (Err ("MetaApp not found for pinID " ++ p)).
Proof.
  intros Hin Hnone. cbn [findFirstPinIDRecursive].
  rewrite bool_decide_eq_false_2 by exact Hin.
  unfold GetMetaAppByPinID. rewrite Hnone. reflexivity.
Qed.

Lemma resolve_hop fuel p q visited :
  p ∉ visited -> parentOf db p = Some q ->
  findFirstPinIDRecursive (S fuel) db p visited
  = findFirstPinIDRecursive fuel db q ({[p]} ∪ visited).
Proof.
  intros Hin Hhop. cbn [findFirstPinIDRecursive].
  rewrite bool_decide_eq_false_2 by exact Hin.
  unfold parentOf in Hhop. unfold GetMetaAppByPinID.
  destruct (metaapp_pin db !! p) as [a|]; [|discriminate].
  destruct (String.eqb (Operation a) "create"); [discriminate|].
  destruct (String.eqb (Operation a) "modify"); [|discriminate].
  destruct (negb (String.eqb (FirstPinId a) "")).
  - destruct (negb (String.eqb (FirstPinId a) p)); [|discriminate].
    congruence.
  - destruct (negb (String.eqb (Path a) "") && _ && _ && _); [|discriminate].
    congruence.
Qed.

Lemma resolve_end fuel p visited a :
  p ∉ visited -> metaapp_pin db !! p = Some a -> parentOf db p = None ->
  exists r, findFirstPinIDRecursive (S fuel) db p visited = Some (Ok r).
Proof.
  intros Hin Hsome Hhop. cbn [findFirstPinIDRecursive].
  rewrite bool_decide_eq_false_2 by exact Hin.
  unfold parentOf in Hhop. unfold GetMetaAppByPinID.
  rewrite Hsome in *.
  destruct (String.eqb (Operation a) "create").
  { destruct (negb (String.eqb (FirstPinId a) "")); eexists; reflexivity. }
  destruct (String.eqb (Operation a) "modify"); [|eexists; reflexivity].
  destruct (negb (String.eqb (FirstPinId a) "")).
  - destruct (negb (String.eqb (FirstPinId a) p)); [discriminate|].
    eexists; reflexivity.
  - destruct (negb (String.eqb (Path a) "") && _ && _ && _); [discriminate|].
    eexists; reflexivity.
Qed.

(** The recursion ends before the fuel does: every call that goes on puts
    a stored pin id, not seen before, into [visited]. *)
Lemma findFirstPinIDRecursive_total fuel p visited :
  (size (dom (metaapp_pin db) ∖ visited) < fuel)%nat ->
  findFirstPinIDRecursive fuel db p visited <> None.
Proof.
  revert p visited.
  induction fuel as [|fuel IH]; intros p visited Hsize; [lia|].
  destruct (decide (p ∈ visited)) as [Hin|Hin].
  { rewrite resolve_visited by exact Hin. discriminate. }
  destruct (metaapp_pin db !! p) as [a|] eqn:Hlook.
  2:{ rewrite resolve_absent by assumption. discriminate. }
  destruct (parentOf db p) as [q|] eqn:Hhop.
  2:{ destruct (resolve_end fuel p visited a Hin Hlook Hhop) as [r ->].
      discriminate. }
  rewrite (resolve_hop fuel p q visited Hin Hhop).
  apply IH.
  assert (Hsub : dom (metaapp_pin db) ∖ ({[p]} ∪ visited)
                 ⊂ dom (metaapp_pin db) ∖ visited).
  { assert (p ∈ dom (metaapp_pin db)) by (apply elem_of_dom; eauto).
    set_solver. }
  apply subset_size in Hsub. lia.
Qed.

Lemma findFirstPinID_total p : findFirstPinID db p <> None.
Proof.
  unfold findFirstPinID. apply findFirstPinIDRecursive_total.
  rewrite difference_empty_L, size_dom. lia.
Qed.

(** A walk that reaches a pin id that is not stored ends in an error,
    unless the fuel runs out first. *)
Lemma walk_to_absent x p :
  Walk db x p -> metaapp_pin db !! p = None ->
  forall fuel visited,
    findFirstPinIDRecursive fuel db x visited = None
    \/ exists msg, findFirstPinIDRecursive fuel db x visited = Some (Err msg).
Proof.
  intros Hwalk Habsent.
  induction Hwalk as [x|x y p Hxy Hyp IH]; intros [|fuel] visited;
    try (left; reflexivity).
  - right. destruct (decide (x ∈ visited)) as [Hin|Hin].
    + rewrite resolve_visited by exact Hin. eauto.
    + rewrite resolve_absent by assumption. eauto.
  - destruct (decide (x ∈ visited)) as [Hin|Hin].
    + right. rewrite resolve_visited by exact Hin. eauto.
    + rewrite (resolve_hop fuel x y visited Hin Hxy). apply IH. exact Habsent.
Qed.

(** When every pin id the walk can reach from [x] has a parent to go to,
    the resolution can only end on a pin id seen before. *)
Lemma endless_walk_cycles :
  forall fuel x visited,
    (forall y, Walk db x y -> is_Some (parentOf db y)) ->
    findFirstPinIDRecursive fuel db x visited = None
    \/ exists msg, isCycleError msg
                   /\ findFirstPinIDRecursive fuel db x visited = Some (Err msg).
Proof.
  induction fuel as [|fuel IH]; intros x visited Hall; [left; reflexivity|].
  destruct (decide (x ∈ visited)) as [Hin|Hin].
  - right. rewrite resolve_visited by exact Hin.
    eexists. split; [exists x; reflexivity | reflexivity].
  - destruct (Hall x (rtc_refl _ _)) as [y Hxy].
    rewrite (resolve_hop fuel x y visited Hin Hxy).
    apply IH. intros z Hz. apply Hall.
    eapply rtc_l; [exact Hxy | exact Hz].
Qed.

Lemma tc_first (x z : string) :
  tc (hop db) x z -> exists y, hop db x y /\ Walk db y z.
Proof.
  intros [a b Hab|a b c Hab Hbc].
  - exists b. split; [exact Hab | apply rtc_refl].
  - exists b. split; [exact Hab | apply tc_rtc; exact Hbc].
Qed.

(** The walk is deterministic: from a pin id on a cycle, whatever it
    reaches walks back to the cycle. *)
Lemma cycle_is_closed p y :
  tc (hop db) p p -> Walk db p y -> Walk db y p.
Proof.
  intros Hcycle Hpy. revert y Hpy.
  apply (rtc_ind_r (fun y => Walk db y p) p); [apply rtc_refl|].
  intros a y _ Hay IH.
  destruct (rtc_inv _ _ IH) as [->|(b & Hab & Hbp)].
  - apply tc_first in Hcycle as (b & Hpb & Hbp).
    unfold hop in *. assert (b = y) by congruence. subst b. exact Hbp.
  - unfold hop in *. assert (b = y) by congruence. subst b. exact Hbp.
Qed.

Lemma cycle_never_ends x p :
  Walk db x p -> tc (hop db) p p ->
  forall y, Walk db x y -> is_Some (parentOf db y).
Proof.
  intros Hxp Hcycle.
  assert (Hon : forall y, Walk db y p -> is_Some (parentOf db y)).
  { intros y Hyp. destruct (rtc_inv _ _ Hyp) as [->|(b & Hyb & _)].
    - apply tc_first in Hcycle as (b & Hpb & _). exists b. exact Hpb.
    - exists b. exact Hyb. }
  induction Hxp as [x|x x' p Hxx' Hx'p IH]; intros y Hxy.
  - apply Hon, cycle_is_closed; assumption.
  - destruct (rtc_inv _ _ Hxy) as [<-|(b & Hxb & Hby)].
    + exists x'. exact Hxx'.
    + unfold hop in *. assert (b = x') by congruence. subst b.
      apply IH; assumption.
Qed.
End Resolution.

(** ** Modifies that cannot be resolved *)

Lemma isMetaAppPath_nonempty path :
  fst (isMetaAppPath path) = true -> path <> "".
Proof.
  unfold isMetaAppPath. intros H ->. simpl in H. discriminate.
Qed.

Section Unresolved.
Variable E : IndexerEnv.
Variables (db : PebbleDatabase) (metaData : MetaIDData).
Variables (height timestamp : Z) (now : Time).

Hypothesis Hmodify : mOperation metaData = "modify".
Hypothesis HmetaApp : fst (isMetaAppPath (mPath metaData)) = true.
Hypothesis Hfresh : metaapp_pin db !! mPinID metaData = None.

(** A modify whose resolution fails is skipped: the store is left as it
    was. *)
Lemma failed_resolution_is_skipped msg :
  extractFirstPinIDFromOriginalPath db (mPath metaData) = Some (Err msg) ->
  handleMetaIDData E db metaData height timestamp now = Some db.
Proof.
  intros Hextract. unfold handleMetaIDData.
  pose proof (isMetaAppPath_nonempty (mPath metaData) HmetaApp) as Hne.
  destruct (isMetaAppPath (mPath metaData)) as [isMetaApp isPathPinID].
  simpl in HmetaApp. subst isMetaApp. simpl.
  unfold GetMetaAppByPinID. rewrite Hfresh, Hmodify, Hextract.
  destruct (String.eqb_spec (mPath metaData) "") as [Heq|_]; [contradiction|].
  reflexivity.
Qed.

Lemma extract_unfold :
  walkStart (mPath metaData) <> "" ->
  extractFirstPinIDFromOriginalPath db (mPath metaData)
  = findFirstPinID db (walkStart (mPath metaData)).
Proof.
  intros Hstart. unfold extractFirstPinIDFromOriginalPath.
  fold (walkStart (mPath metaData)).
  destruct (String.eqb_spec (mPath metaData) "") as [Heq|_].
  - exfalso. apply Hstart. rewrite Heq. reflexivity.
  - destruct (String.eqb_spec (walkStart (mPath metaData)) ""); [contradiction|].
    reflexivity.
Qed.

(** C4: a modify pin, not stored yet, whose parent walk reaches a pin id
    that is absent from the pin collection: the resolution of its
    first_pin_id returns an error, and handling the pin leaves the whole
    store as it was, so that no record is written to any collection and
    no deploy queue entry is created. *)
Theorem C4_modify_with_absent_ancestor_is_dropped (p : string) :
  Walk db (walkStart (mPath metaData)) p ->
  metaapp_pin db !! p = None ->
  (exists msg,
     extractFirstPinIDFromOriginalPath db (mPath metaData) = Some (Err msg))
  /\ handleMetaIDData E db metaData height timestamp now = Some db.
Proof.
  intros Hwalk Habsent.
  assert (Herr : exists msg,
    extractFirstPinIDFromOriginalPath db (mPath metaData) = Some (Err msg)).
  { destruct (String.eqb_spec (walkStart (mPath metaData)) "") as [Heq|Hne].
    - unfold extractFirstPinIDFromOriginalPath.
      fold (walkStart (mPath metaData)). rewrite Heq.
      destruct (String.eqb (mPath metaData) ""); eexists; reflexivity.
    - rewrite (extract_unfold Hne). unfold findFirstPinID.
      destruct (walk_to_absent db _ p Hwalk Habsent
                  (S (size (metaapp_pin db))) ∅) as [Hnone|Hmsg];
        [|exact Hmsg].
      exfalso. exact (findFirstPinID_total db _ Hnone). }
  split; [exact Herr|].
  destruct Herr as [msg Hmsg]. exact (failed_resolution_is_skipped msg Hmsg).
Qed.

(** C7: a modify pin, not stored yet, whose parent walk comes back to a
    pin id it has already been at: the resolution of its first_pin_id
    returns the circular-reference error, and handling the pin leaves the
    whole store as it was, so that no record is written for it. *)
Theorem C7_circular_modify_is_dropped (p : string) :
  walkStart (mPath metaData) <> "" ->
  Walk db (walkStart (mPath metaData)) p ->
  tc (hop db) p p ->
  (exists msg,
     isCycleError msg
     /\ extractFirstPinIDFromOriginalPath db (mPath metaData) = Some (Err msg))
  /\ handleMetaIDData E db metaData height timestamp now = Some db.
Proof.
  intros Hstart Hwalk Hcycle.
  assert (Herr : exists msg, isCycleError msg /\
    extractFirstPinIDFromOriginalPath db (mPath metaData) = Some (Err msg)).
  { rewrite (extract_unfold Hstart). unfold findFirstPinID.
    destruct (endless_walk_cycles db (S (size (metaapp_pin db)))
                (walkStart (mPath metaData)) ∅
                (cycle_never_ends db _ p Hwalk Hcycle)) as [Hnone|Hmsg];
      [|exact Hmsg].
    exfalso. exact (findFirstPinID_total db _ Hnone). }
  split; [exact Herr|].
  destruct Herr as (msg & _ & Hmsg).
  exact (failed_resolution_is_skipped msg Hmsg).
Qed.
End Unresolved.

(** The orphan of the third scenario: a modify of [P0] handed to an empty
    store. *)
Lemma C4_witness :
  handleMetaIDData env emptyDB (modifyPin P1 P0) 110 1700000600000 0 = Some emptyDB.
Proof.
  apply (C4_modify_with_absent_ancestor_is_dropped env emptyDB (modifyPin P1 P0)
           110 1700000600000 0) with (p := P0).
  - vm_compute. reflexivity.
  - vm_compute. reflexivity.
  - vm_compute. reflexivity.
  - vm_compute. apply rtc_refl.
  - vm_compute. reflexivity.
Defined.

(** The fourth scenario: [PA] and [PB] name each other, and [PC] modifies
    [PA]. *)
Lemma C7_witness :
  handleMetaIDData env cyclicDB (modifyPin PC PA) 110 1700000600000 0 = Some cyclicDB.
Proof.
  apply (C7_circular_modify_is_dropped env cyclicDB (modifyPin PC PA)
           110 1700000600000 0) with (p := PA).
  - vm_compute. reflexivity.
  - vm_compute. reflexivity.
  - vm_compute. reflexivity.
  - vm_compute. discriminate.
  - vm_compute. apply rtc_refl.
  - apply tc_l with (y := PB); [|apply tc_once]; vm_compute; reflexivity.
Defined.

(** ** The MVC transaction hash *)

Import Binary Common.

Lemma byte_of_Z_mod z : byte_of_Z (z mod 256) = byte_of_Z z.
Proof.
  unfold byte_of_Z. change 255%Z with (Z.ones 8).
  rewrite !Z.land_ones by lia. change (2 ^ 8)%Z with 256%Z.
  rewrite Z.mod_mod by lia. reflexivity.
Qed.

(** The byte at offset [a] of a value is the same once the value is cut to
    [n] bits, when the byte lies within them. *)
Lemma byte_of_shiftr_mod v a n :
  (0 <= a)%Z -> (a + 8 <= n)%Z ->
  byte_of_Z (Z.shiftr (v mod 2 ^ n) a) = byte_of_Z (Z.shiftr v a).
Proof.
  intros Ha Hn. unfold byte_of_Z.
  assert (Hbits : Z.land (Z.shiftr (v mod 2 ^ n) a) 255
                  = Z.land (Z.shiftr v a) 255).
  { apply Z.bits_inj'. intros i Hi.
    rewrite !Z.land_spec, !Z.shiftr_spec by lia.
    destruct (Z.ltb_spec i 8) as [Hlt|Hge].
    - rewrite Z.mod_pow2_bits_low by lia. reflexivity.
    - change 255%Z with (Z.ones 8). rewrite Z.ones_spec_high by lia.
      rewrite !andb_false_r. reflexivity. }
  rewrite Hbits. reflexivity.
Qed.

Lemma le_bytes_shiftr n : forall v,
  le_bytes n v
  = map (fun k => byte_of_Z (Z.shiftr v (8 * Z.of_nat k))) (seq 0 n).
Proof.
  induction n as [|n IH]; intros v; [reflexivity|].
  cbn [le_bytes]. rewrite IH, byte_of_Z_mod.
  cbn [seq map].
  change (8 * Z.of_nat 0)%Z with 0%Z. rewrite Z.shiftr_0_r.
  apply (f_equal (cons (byte_of_Z v))).
  rewrite <- seq_shift, map_map.
  apply map_ext. intros k.
  change (v / 256)%Z with (v / 2 ^ 8)%Z.
  rewrite <- (Z.shiftr_div_pow2 v 8) by lia.
  rewrite Z.shiftr_shiftr by lia. do 2 f_equal. lia.
Qed.

Lemma PutUint32_le v : PutUint32 v = le_bytes 4 v.
Proof. rewrite le_bytes_shiftr. reflexivity. Qed.

Lemma PutUint32_uint32_le v : PutUint32 (uint32 v) = le_bytes 4 v.
Proof.
  rewrite <- PutUint32_le. unfold PutUint32, uint32.
  rewrite <- (Z.shiftr_0_r (v mod 2 ^ 32)), <- (Z.shiftr_0_r v) at 1.
  rewrite !byte_of_shiftr_mod by lia. rewrite !Z.shiftr_0_r. reflexivity.
Qed.

Section TxHash.
Variable sha256_Sum256 : list byte -> list byte.
Variable Deserialize : list byte -> option Wire.MsgTx.

Lemma Uint64ToLittleEndianBytes_le v :
  tool_Uint64ToLittleEndianBytes (uint64 v) = le_bytes 8 v.
Proof.
  rewrite le_bytes_shiftr. unfold tool_Uint64ToLittleEndianBytes, PutUint32, uint64.
  cbn [seq map app].
  rewrite !Z.shiftr_shiftr by lia.
  rewrite <- (Z.shiftr_0_r (v mod 2 ^ 64)) at 1.
  rewrite !byte_of_shiftr_mod by lia. reflexivity.
Qed.

(** The first loop of [getTxNewRawByte] appends, input after input, to
    its two accumulators. *)
Lemma inputs_loop (ins : list Wire.TxIn) : forall acc1 acc2,
  fold_left
    (fun '(newInputsByte, newInputs2Byte) txin =>
       let indexBuf := PutUint32 (Wire.Index (Wire.PreviousOutPoint txin)) in
       let sequenceBuf := PutUint32 (Wire.Sequence txin) in
       let newInputsByte :=
         (newInputsByte ++ Wire.Hash (Wire.PreviousOutPoint txin))%list in
       let newInputsByte := (newInputsByte ++ indexBuf)%list in
       let newInputsByte := (newInputsByte ++ sequenceBuf)%list in
       (newInputsByte,
        (newInputs2Byte
           ++ tool_SHA256 sha256_Sum256 (Wire.SignatureScript txin))%list))
    ins (acc1, acc2)
  = ((acc1 ++ concat (map (fun i =>
                Wire.Hash (Wire.PreviousOutPoint i)
                ++ le_bytes 4 (Wire.Index (Wire.PreviousOutPoint i))
                ++ le_bytes 4 (Wire.Sequence i)) ins))%list,
     (acc2 ++ concat (map (fun i => sha256_Sum256 (Wire.SignatureScript i)) ins))%list).
Proof.
  induction ins as [|i ins IH]; intros acc1 acc2; cbn [fold_left map concat].
  - rewrite !app_nil_r. reflexivity.
  - rewrite IH. unfold tool_SHA256. rewrite !PutUint32_le.
    rewrite <- !app_assoc. reflexivity.
Qed.

Lemma outputs_loop (outs : list Wire.TxOut) : forall acc,
  fold_left
    (fun newOutputsByte txout =>
       let valueBuf := tool_Uint64ToLittleEndianBytes (uint64 (Wire.Value txout)) in
       let newOutputsByte := (newOutputsByte ++ valueBuf)%list in
       (newOutputsByte ++ tool_SHA256 sha256_Sum256 (Wire.PkScript txout))%list)
    outs acc
  = (acc ++ concat (map (fun o => le_bytes 8 (Wire.Value o)
                                  ++ sha256_Sum256 (Wire.PkScript o)) outs))%list.
Proof.
  induction outs as [|o outs IH]; intros acc; cbn [fold_left map concat].
  - rewrite app_nil_r. reflexivity.
  - rewrite IH. unfold tool_SHA256. rewrite Uint64ToLittleEndianBytes_le.
    rewrite <- !app_assoc. reflexivity.
Qed.

(** [getTxNewRawByte] builds the compact pre-image of the specification. *)
Lemma getTxNewRawByte_compactPreimage tx :
  getTxNewRawByte sha256_Sum256 tx = compactPreimage sha256_Sum256 tx.
Proof.
  unfold getTxNewRawByte, compactPreimage.
  rewrite inputs_loop, outputs_loop.
  unfold tool_Uint32ToLittleEndianBytes, tool_SHA256.
  rewrite !PutUint32_uint32_le, PutUint32_le.
  cbn [app]. rewrite <- !app_assoc. reflexivity.
Qed.
End TxHash.

(** The swapping loop of [GetMvcTxhash] reverses its slice.  After [i]
    rounds the first [i] and the last [i] positions hold the bytes of the
    mirrored positions of the original slice [l0], and the others are
    untouched. *)
Lemma half_bounds (n : nat) : (2 * (n / 2) <= n < 2 * (n / 2) + 2)%nat.
Proof.
  pose proof (Nat.div_mod_eq n 2) as Hdiv.
  pose proof (Nat.mod_upper_bound n 2) as Hmod. lia.
Qed.

Lemma swapLoop_invariant (l0 : list byte) : forall n i l,
  (i + n = length l0 / 2)%nat ->
  length l = length l0 ->
  (forall j, (j < length l0)%nat ->
     l !! j = l0 !! (if decide (j < i \/ length l0 - i <= j)%nat
                     then (length l0 - 1 - j)%nat else j)) ->
  swapLoop n i l = reverse l0.
Proof.
  pose proof (half_bounds (length l0)) as Hhalf.
  revert Hhalf. generalize (length l0 / 2)%nat as half. intros half Hhalf.
  induction n as [|n IH]; intros i l Hn Hlen Hinv.
  - cbn [swapLoop]. apply list_eq. intros j.
    destruct (Nat.lt_ge_cases j (length l0)) as [Hj|Hj].
    + rewrite reverse_lookup by exact Hj. rewrite (Hinv j Hj).
      f_equal. case_decide; lia.
    + rewrite !lookup_ge_None_2; [reflexivity | |]; rewrite ?length_reverse; lia.
  - cbn [swapLoop]. rewrite Hlen.
    assert (Hi : (i < half)%nat) by lia.
    destruct (lookup_lt_is_Some_2 l (length l0 - 1 - i)) as [h Hh]; [lia|].
    destruct (lookup_lt_is_Some_2 l i) as [x Hx]; [lia|].
    rewrite Hh, Hx.
    apply IH; [lia | rewrite !length_insert; exact Hlen |].
    intros j Hj.
    destruct (decide (j = i)) as [->|Hji].
    { rewrite list_lookup_insert_eq by (rewrite length_insert; lia).
      rewrite <- Hh, (Hinv (length l0 - 1 - i)%nat) by lia.
      f_equal. repeat case_decide; lia. }
    rewrite list_lookup_insert_ne by congruence.
    destruct (decide (j = length l0 - 1 - i)%nat) as [->|Hjm].
    { rewrite list_lookup_insert_eq by lia.
      rewrite <- Hx, (Hinv i) by lia.
      f_equal. repeat case_decide; lia. }
    rewrite list_lookup_insert_ne by congruence.
    rewrite (Hinv j Hj). f_equal. repeat case_decide; lia.
Qed.

Lemma swapLoop_reverse (l : list byte) :
  swapLoop (length l / 2) 0 l = rev l.
Proof.
  rewrite rev_alt. change (rev_append l []) with (reverse l).
  apply swapLoop_invariant with (l0 := l); [lia | reflexivity |].
  intros j Hj. f_equal. case_decide; lia.
Qed.

(** C3: for raw bytes of at least four bytes whose first four, read as a
    little-endian unsigned 32-bit integer, are at least 10 and which
    deserialise to a transaction, [GetMvcTxhash] is the byte-reversed
    hexadecimal text of the double SHA-256 of the compact pre-image of that
    transaction; when the version is below 10 it is that of the raw bytes
    themselves. *)
Theorem C3_GetMvcTxhash_is_hash_of_compact_preimage
    (sha256_Sum256 : list byte -> list byte)
    (Deserialize : list byte -> option Wire.MsgTx)
    (rawTxByte : list byte) :
  (4 <= length rawTxByte)%nat ->
  ((10 <= Uint32 (take 4 rawTxByte))%Z ->
   forall tx, Deserialize rawTxByte = Some tx ->
     GetMvcTxhash sha256_Sum256 Deserialize rawTxByte
     = displayHash sha256_Sum256 (compactPreimage sha256_Sum256 tx))
  /\ ((Uint32 (take 4 rawTxByte) < 10)%Z ->
      GetMvcTxhash sha256_Sum256 Deserialize rawTxByte
      = displayHash sha256_Sum256 rawTxByte).
Proof.
  intros Hlen. unfold GetMvcTxhash, displayHash, tool_DoubleSHA256.
  destruct (length rawTxByte) as [|[|[|[|n]]]] eqn:Hl; try lia.
  cbn [Nat.eqb Nat.ltb Nat.leb].
  split.
  - intros Hv tx Htx.
    rewrite (proj2 (Z.leb_le _ _) Hv).
    unfold GetTxNewhash. rewrite Htx, getTxNewRawByte_compactPreimage.
    rewrite swapLoop_reverse. reflexivity.
  - intros Hv.
    rewrite (proj2 (Z.leb_gt _ _) Hv).
    rewrite swapLoop_reverse. reflexivity.
Qed.

(** ** The deploy worker *)

Import DeployWorker.

Section Deploy.
Variable D : DeployEnv.
Variables (db : PebbleDatabase) (fs : FileSystem) (now : Time).
Variables (queueItem : MetaAppDeployQueue) (metaApp : MetaApp).

Hypothesis Hstored : GetMetaAppByPinID db (qPinID queueItem) = Ok metaApp.

Lemma valid_ref_nonempty ref :
  isValidMetafilePinID ref = true -> String.eqb ref "" = false.
Proof.
  intros Hvalid. destruct (String.eqb_spec ref "") as [->|]; [|reflexivity].
  vm_compute in Hvalid. discriminate.
Qed.

(** A download that fails: the failed result is stored and the error is
    returned. *)
Lemma deployMetaApp_download_failed fs1 e :
  isValidMetafilePinID (downloadRef queueItem) = true ->
  downloadFileFromPinID D (prepared D metaApp fs) (downloadRef queueItem)
    (deployDir D metaApp) = (fs1, Err e) ->
  deployMetaApp D db fs queueItem now
  = (CreateOrUpdateDeployFileContent db
       (outcome D metaApp queueItem now "failed" e), fs1,
     Some ("failed to download file: " ++ e)).
Proof.
  intros Hvalid Hdown. unfold deployMetaApp. rewrite Hstored. cbv zeta.
  fold (downloadRef queueItem). fold (deployDir D metaApp).
  fold (prepared D metaApp fs).
  rewrite (valid_ref_nonempty _ Hvalid), Hvalid. cbn [negb].
  rewrite Hdown. reflexivity.
Qed.

(** A download that succeeds: whatever the extraction does, the completed
    result is stored and no error is returned. *)
Lemma deployMetaApp_download_succeeded fs1 filePath :
  downloadFileFromPinID D (prepared D metaApp fs) (downloadRef queueItem)
    (deployDir D metaApp) = (fs1, Ok filePath) ->
  exists fs2,
    deployMetaApp D db fs queueItem now
    = (CreateOrUpdateDeployFileContent db
         (outcome D metaApp queueItem now "completed" ""), fs2, None).
Proof.
  intros Hdown.
  assert (Hvalid : isValidMetafilePinID (downloadRef queueItem) = true).
  { unfold downloadFileFromPinID in Hdown.
    destruct (isValidMetafilePinID (downloadRef queueItem));
      [reflexivity | discriminate]. }
  unfold deployMetaApp. rewrite Hstored. cbv zeta.
  fold (downloadRef queueItem). fold (deployDir D metaApp).
  fold (prepared D metaApp fs).
  rewrite (valid_ref_nonempty _ Hvalid), Hvalid. cbn [negb].
  rewrite Hdown. eexists. reflexivity.
Qed.

(** A reference that is not of the form [metafile://<pinid>]: the error is
    returned before any download, and the store is not touched. *)
Lemma deployMetaApp_invalid_ref :
  isValidMetafilePinID (downloadRef queueItem) = false ->
  exists fs1 e, deployMetaApp D db fs queueItem now = (db, fs1, Some e).
Proof.
  intros Hvalid. unfold deployMetaApp. rewrite Hstored. cbv zeta.
  fold (downloadRef queueItem). rewrite Hvalid.
  destruct (String.eqb (downloadRef queueItem) ""); eexists _, _; reflexivity.
Qed.
End Deploy.

(** The head of the queue is found by its own pin id. *)
Lemma next_item_found db queueItem :
  GetNextDeployQueueItem db = Ok queueItem ->
  exists k rest,
    metaapp_deploy_queue db = (k, queueItem) :: rest
    /\ findByPinID (qPinID queueItem) (metaapp_deploy_queue db) = Some (k, queueItem).
Proof.
  unfold GetNextDeployQueueItem, KV.First.
  destruct (metaapp_deploy_queue db) as [|[k item] rest]; simpl; [discriminate|].
  intros [= ->]. exists k, rest. rewrite String.eqb_refl. split; reflexivity.
Qed.

(** C10: when the download of the artifact of the next queue item fails,
    the tick stores a deploy result with status "failed" and the error
    message under the pin id of the item's record, which in a consistent
    store is the pin id of the item, and returns the error; when the try
    count is still below the ceiling after the increment, the item stays in
    the queue, with its try count one higher, ready for a further attempt. *)
Theorem C10_failed_download_writes_failed_result
    (D : DeployEnv) (db : PebbleDatabase) (fs fs1 : FileSystem) (now : Time)
    (queueItem : MetaAppDeployQueue) (metaApp : MetaApp) (e : string) :
  GetNextDeployQueueItem db = Ok queueItem ->
  GetMetaAppByPinID db (qPinID queueItem) = Ok metaApp ->
  isValidMetafilePinID (downloadRef queueItem) = true ->
  downloadFileFromPinID D (prepared D metaApp fs) (downloadRef queueItem)
    (deployDir D metaApp) = (fs1, Err e) ->
  exists db',
    processNextDeployItem D db fs now
    = (db', fs1, Some ("failed to download file: " ++ e))
    /\ deployResult db' (PinID metaApp) = Some ("failed", e)
    /\ (Consistent db ->
        deployResult db' (qPinID queueItem) = Some ("failed", e))
    /\ ((0 <= qTryCount queueItem)%Z -> (qTryCount queueItem + 1 < 3)%Z ->
        exists k,
          findByPinID (qPinID queueItem) (metaapp_deploy_queue db')
          = Some (k, set_TryCount (qTryCount queueItem + 1) queueItem)).
Proof.
  intros Hnext Hstored Hvalid Hdown.
  unfold processNextDeployItem. rewrite Hnext.
  rewrite (deployMetaApp_download_failed D db fs now queueItem metaApp
             Hstored fs1 e Hvalid Hdown).
  destruct (next_item_found db queueItem Hnext) as (k & rest & Hqueue & Hfound).
  set (db1 := CreateOrUpdateDeployFileContent db
                (outcome D metaApp queueItem now "failed" e)).
  assert (Hresult : forall q, deployResult (with_queue q db1) (PinID metaApp)
                              = Some ("failed", e)).
  { intros q. unfold deployResult, GetDeployFileContent, db1. simpl.
    rewrite lookup_insert_eq. reflexivity. }
  assert (Hresult1 : deployResult db1 (PinID metaApp) = Some ("failed", e)).
  { exact (Hresult (metaapp_deploy_queue db1)). }
  assert (Hpin : Consistent db -> PinID metaApp = qPinID queueItem).
  { intros Hc. apply (pinKeyed db Hc). unfold GetMetaAppByPinID in Hstored.
    destruct (metaapp_pin db !! qPinID queueItem); congruence. }
  cbn [qTryCount set_TryCount qPinID].
  destruct (maxRetryCount <=? Int64.add (qTryCount queueItem) 1)%Z eqn:Hceil.
  - assert (Hafter : deployResult
                       (fst (RemoveFromDeployQueue db1 (qPinID queueItem)))
                       (PinID metaApp) = Some ("failed", e)).
    { unfold RemoveFromDeployQueue.
      destruct (findByPinID _ _) as [[k' item']|]; simpl;
        [apply Hresult | exact Hresult1]. }
    eexists. split; [reflexivity|]. split; [exact Hafter|]. split.
    + intros Hc. rewrite (Hpin Hc) in Hafter. exact Hafter.
    + intros Hlow Hhigh. exfalso.
      unfold Int64.add, Int64.wrap, maxRetryCount in Hceil.
      apply Z.leb_le in Hceil.
      rewrite Z.mod_small in Hceil by lia. lia.
  - assert (Hafter : deployResult
                       (fst (UpdateDeployQueueItem db1
                               (set_TryCount (Int64.add (qTryCount queueItem) 1)
                                  queueItem)))
                       (PinID metaApp) = Some ("failed", e)).
    { unfold UpdateDeployQueueItem.
      destruct (findByPinID _ _) as [[k' item']|]; simpl;
        [apply Hresult | exact Hresult1]. }
    eexists. split; [reflexivity|]. split; [exact Hafter|]. split.
    + intros Hc. rewrite (Hpin Hc) in Hafter. exact Hafter.
    + intros Hlow Hhigh. exists k.
      unfold UpdateDeployQueueItem. cbn [qPinID set_TryCount].
      change (metaapp_deploy_queue db1) with (metaapp_deploy_queue db).
      rewrite Hfound. cbn [fst with_queue metaapp_deploy_queue].
      rewrite Hqueue. cbn [KV.Set_]. rewrite compare_refl.
      cbn [findByPinID qPinID]. rewrite String.eqb_refl.
      unfold Int64.add, Int64.wrap. rewrite Z.mod_small by lia.
      do 3 f_equal. lia.
Qed.

(** The content store answers "file not found" for the artifact of the
    queued create pin: the first of its three attempts. *)
Lemma C10_witness :
  exists db',
    processNextDeployItem (deployEnv missingInfo)
      (ingested ("metafile://" ++ PA)) OS.emptyFS 1
    = (db',
       prepared (deployEnv missingInfo) (storedApp ("metafile://" ++ PA))
         OS.emptyFS,
       Some ("failed to download file: " ++ missingMessage))
    /\ deployResult db' (PinID (storedApp ("metafile://" ++ PA)))
       = Some ("failed", missingMessage).
Proof.
  destruct (C10_failed_download_writes_failed_result (deployEnv missingInfo)
              (ingested ("metafile://" ++ PA)) OS.emptyFS
              (prepared (deployEnv missingInfo) (storedApp ("metafile://" ++ PA))
                 OS.emptyFS)
              1 (queuedItem ("metafile://" ++ PA))
              (storedApp ("metafile://" ++ PA)) missingMessage)
    as (db' & Hrun & Hresult & _).
  - vm_compute. reflexivity.
  - vm_compute. reflexivity.
  - vm_compute. reflexivity.
  - vm_compute. reflexivity.
  - exists db'. split; [exact Hrun | exact Hresult].
Defined.

Lemma C3_witness :
  GetMvcTxhash digest WireFormat.Deserialize rawTx
  = displayHash digest (compactPreimage digest tx)
  /\ GetMvcTxhash digest WireFormat.Deserialize rawTxV2
     = displayHash digest rawTxV2.
Proof.
  split.
  - apply (C3_GetMvcTxhash_is_hash_of_compact_preimage digest
             WireFormat.Deserialize rawTx).
    + vm_compute. lia.
    + vm_compute. discriminate.
    + vm_compute. reflexivity.
  - apply (C3_GetMvcTxhash_is_hash_of_compact_preimage digest
             WireFormat.Deserialize rawTxV2).
    + vm_compute. lia.
    + vm_compute. reflexivity.
Defined.

(** ** Archives with a member outside the deploy directory *)










(** ** Retries *)

(** A reference that is not of the form [metafile://<pinid>] makes the tick
    fail without any change to the deploy results, whatever the try count. *)
Lemma invalid_reference_records_nothing D db fs now queueItem metaApp :
  GetNextDeployQueueItem db = Ok queueItem ->
  GetMetaAppByPinID db (qPinID queueItem) = Ok metaApp ->
  isValidMetafilePinID (downloadRef queueItem) = false ->
  metaapp_deploy_file_content (fst (fst (processNextDeployItem D db fs now)))
  = metaapp_deploy_file_content db.
Proof.
  intros Hnext Hstored Hvalid. unfold processNextDeployItem. rewrite Hnext.
  destruct (deployMetaApp_invalid_ref D db fs now queueItem metaApp Hstored Hvalid)
    as (fs1 & e & ->).
  destruct (maxRetryCount <=? _)%Z; cbn [fst].
  - unfold RemoveFromDeployQueue.
    destruct (findByPinID _ _) as [[k item]|]; reflexivity.
  - unfold UpdateDeployQueueItem.
    destruct (findByPinID _ _) as [[k item]|]; reflexivity.
Qed.

(** C6 (evaluation of the code): a queue item whose artifact reference is
    not of the form [metafile://<pinid>] fails three ticks in a row; its try
    count goes to 1, then 2, and the third tick removes it from the queue,
    but no deploy result is stored for its pin id at any point: the failed
    result is written on the download-failure path of [deployMetaApp] only. *)
Lemma C6_invalid_reference_leaves_no_failed_result :
  tryCounts (ingested "metafile://bad") = [(P0, 0%Z)]
  /\ option_map (fun st => (tryCounts (fst st), deployResult (fst st) P0))
       (run env (deployEnv zipInfo) (ingested "metafile://bad", OS.emptyFS)
          [Tick 1])
     = Some ([(P0, 1%Z)], None)
  /\ option_map (fun st => (tryCounts (fst st), deployResult (fst st) P0))
       (run env (deployEnv zipInfo) (ingested "metafile://bad", OS.emptyFS)
          [Tick 1; Tick 2])
     = Some ([(P0, 2%Z)], None)
  /\ option_map (fun st => (tryCounts (fst st), deployResult (fst st) P0))
       (run env (deployEnv zipInfo) (ingested "metafile://bad", OS.emptyFS)
          [Tick 1; Tick 2; Tick 3])
     = Some ([], None).
Proof. repeat split; vm_compute; reflexivity. Qed.

(** ** One queue entry per pin *)

Lemma Consistent_emptyDB : Consistent emptyDB.
Proof.
  split; simpl.
  - constructor.
  - intros k item [].
  - intros k a H. rewrite lookup_empty in H. discriminate.
  - intros f a H. rewrite lookup_empty in H. discriminate.
Qed.

(** [CreateMetaApp] keeps the store consistent when the record it writes
    has the timestamp of the record already stored under its pin id, if
    there is one. *)
Lemma Consistent_CreateMetaApp db app :
  Consistent db ->
  (forall old, metaapp_pin db !! PinID app = Some old ->
               Timestamp old = Timestamp app) ->
  Consistent (fst (CreateMetaApp db app)).
Proof.
  intros [Hsorted Hbacked Hkeyed Hlatest] Hold.
  split.
  - rewrite CreateMetaApp_queue. exact Hsorted.
  - rewrite CreateMetaApp_queue, CreateMetaApp_pin. intros k item Hin.
    destruct (Hbacked k item Hin) as (Hk & a & Ha & Hts).
    split; [exact Hk|].
    destruct (decide (PinID app = qPinID item)) as [Heq|Hne].
    + exists (written app). rewrite Heq, lookup_insert_eq.
      split; [reflexivity|].
      rewrite written_Timestamp, <- Hts. symmetry. apply Hold.
      rewrite Heq. exact Ha.
    + exists a. rewrite lookup_insert_ne by exact Hne. split; assumption.
  - rewrite CreateMetaApp_pin. intros k a.
    destruct (decide (PinID app = k)) as [<-|Hne].
    + rewrite lookup_insert_eq. intros [= <-]. apply written_PinID.
    + rewrite lookup_insert_ne by exact Hne. apply Hkeyed.
  - rewrite CreateMetaApp_latest, CreateMetaApp_pin. intros f a.
    destruct (decide (FirstPinId (written app) = f)) as [<-|Hne].
    + rewrite lookup_insert_eq. intros [= <-].
      exists (written app). rewrite written_PinID, lookup_insert_eq.
      split; reflexivity.
    + rewrite lookup_insert_ne by exact Hne. intros Hf.
      destruct (Hlatest f a Hf) as (a' & Ha' & Hts).
      destruct (decide (PinID app = PinID a)) as [Heq|Hne'].
      * exists (written app). rewrite <- Heq, lookup_insert_eq.
        split; [reflexivity|].
        rewrite written_Timestamp, <- Hts. symmetry. apply Hold.
        rewrite Heq. exact Ha'.
      * exists a'. rewrite lookup_insert_ne by exact Hne'. split; assumption.
Qed.

(** [AddToDeployQueue] keeps the store consistent when the pin of the item
    is stored with the timestamp of the item. *)
Lemma Consistent_AddToDeployQueue db queue :
  Consistent db ->
  (exists a, metaapp_pin db !! qPinID queue = Some a
             /\ Timestamp a = qTimestamp queue) ->
  Consistent (AddToDeployQueue db queue).
Proof.
  intros [Hsorted Hbacked Hkeyed Hlatest] Hpin.
  split; unfold AddToDeployQueue; simpl.
  - apply sorted_Set. exact Hsorted.
  - intros k item Hin. apply In_Set in Hin as [[-> ->]|Hin].
    + split; [reflexivity | exact Hpin].
    + apply Hbacked. exact Hin.
  - exact Hkeyed.
  - exact Hlatest.
Qed.

(** The deploy results are no part of consistency. *)
Lemma Consistent_deploy_file_content db c :
  Consistent db -> Consistent (with_deploy_file_content c db).
Proof. intros [? ? ? ?]. split; assumption. Qed.

Lemma findByPinID_In pinID q k item :
  findByPinID pinID q = Some (k, item) -> In (k, item) q /\ qPinID item = pinID.
Proof.
  induction q as [|[k' item'] rest IH]; simpl; [discriminate|].
  destruct (String.eqb_spec (qPinID item') pinID) as [Heq|Hne].
  - intros [= -> ->]. split; [left; reflexivity | exact Heq].
  - intros H. destruct (IH H) as [Hin Hpin]. split; [right; exact Hin | exact Hpin].
Qed.

Lemma findByPinID_None pinID q :
  findByPinID pinID q = None ->
  ~ In pinID (map (fun kv => qPinID (snd kv)) q).
Proof.
  induction q as [|[k' item'] rest IH]; simpl; [tauto|].
  destruct (String.eqb_spec (qPinID item') pinID) as [Heq|Hne]; [discriminate|].
  intros H [Hin|Hin]; [contradiction | exact (IH H Hin)].
Qed.

Lemma Consistent_RemoveFromDeployQueue db pinID :
  Consistent db -> Consistent (fst (RemoveFromDeployQueue db pinID)).
Proof.
  intros Hc. unfold RemoveFromDeployQueue.
  destruct (findByPinID pinID (metaapp_deploy_queue db)) as [[k item]|];
    [|exact Hc].
  destruct Hc as [Hsorted Hbacked Hkeyed Hlatest]. split; simpl.
  - apply sorted_Delete. exact Hsorted.
  - intros k' item' Hin. apply Hbacked. eapply In_Delete. exact Hin.
  - exact Hkeyed.
  - exact Hlatest.
Qed.

(** [UpdateDeployQueueItem] keeps the store consistent when it is given an
    item with the pin id and the timestamp of the entry it replaces. *)
Lemma Consistent_UpdateDeployQueueItem db queue :
  Consistent db ->
  (forall k old, findByPinID (qPinID queue) (metaapp_deploy_queue db) = Some (k, old) ->
                 qTimestamp queue = qTimestamp old) ->
  Consistent (fst (UpdateDeployQueueItem db queue)).
Proof.
  intros Hc Hsame. unfold UpdateDeployQueueItem.
  destruct (findByPinID (qPinID queue) (metaapp_deploy_queue db))
    as [[k old]|] eqn:Hfind; [|exact Hc].
  destruct Hc as [Hsorted Hbacked Hkeyed Hlatest].
  destruct (findByPinID_In _ _ _ _ Hfind) as [Hin Hpin].
  destruct (Hbacked k old Hin) as (Hk & a & Ha & Hts).
  split; simpl.
  - apply sorted_Set. exact Hsorted.
  - intros k' item' Hin'. apply In_Set in Hin' as [[-> ->]|Hin'].
    + split.
      * rewrite Hk. unfold queueKey. rewrite (Hsame k old eq_refl), Hpin.
        reflexivity.
      * exists a. rewrite <- Hpin, (Hsame k old eq_refl). split; assumption.
    + apply Hbacked. exact Hin'.
  - exact Hkeyed.
  - exact Hlatest.
Qed.

(** In a consistent store no two queue entries carry the same pin id. *)
Lemma Consistent_NoDup db : Consistent db -> List.NoDup (queuedPins db).
Proof.
  intros [Hsorted Hbacked _ _]. unfold queuedPins.
  revert Hsorted Hbacked. unfold KV.keys.
  induction (metaapp_deploy_queue db) as [|[k item] rest IH];
    simpl; intros Hsorted Hbacked; [constructor|].
  inversion Hsorted as [|? ? Hrest Hall]; subst.
  constructor.
  - intros Hin. apply in_map_iff in Hin as ([k' item'] & Hpin & Hin').
    simpl in Hpin.
    destruct (Hbacked k item (or_introl eq_refl)) as (Hk & a & Ha & Hts).
    destruct (Hbacked k' item' (or_intror Hin')) as (Hk' & a' & Ha' & Hts').
    rewrite Hpin in Ha'. rewrite Ha in Ha'. injection Ha' as <-.
    assert (Hsame : k' = k).
    { rewrite Hk, Hk'. unfold queueKey. rewrite Hpin, <- Hts, <- Hts'.
      reflexivity. }
    rewrite List.Forall_forall in Hall.
    apply (keyLt_irrefl k). rewrite <- Hsame at 2.
    apply Hall. apply (in_map fst) in Hin'. exact Hin'.
  - apply IH; [exact Hrest|].
    intros k' item' Hin. apply Hbacked. right. exact Hin.
Qed.

(** The deploy queue entry the indexer adds for a record just stored is
    backed by that record. *)
Lemma Consistent_addToDeployQueue db metaApp now :
  Consistent db ->
  (exists a, metaapp_pin db !! PinID metaApp = Some a
             /\ Timestamp a = Timestamp metaApp) ->
  Consistent (addToDeployQueue db metaApp now).
Proof.
  intros Hc Hpin. unfold addToDeployQueue.
  match goal with |- Consistent (if ?c then _ else _) => destruct c end;
    [exact Hc|].
  apply Consistent_AddToDeployQueue; [exact Hc | exact Hpin].
Qed.

Section ServiceSteps.
Variable E : IndexerEnv.
Variable D : DeployEnv.

Lemma Consistent_processMetaAppModify db metaData firstPinID height timestamp now :
  Consistent db ->
  metaapp_pin db !! mPinID metaData = None ->
  Consistent (fst (processMetaAppModify E db metaData firstPinID height timestamp now)).
Proof.
  intros Hc Hfresh. unfold processMetaAppModify.
  destruct (json_Unmarshal E (mContent metaData)) as [proto|]; [|exact Hc].
  set (app := buildMetaApp E metaData proto firstPinID height timestamp now).
  pose proof (CreateMetaApp_snd db app) as Hsnd.
  pose proof (CreateMetaApp_pin db app) as Hpin.
  assert (Hc' : Consistent (fst (CreateMetaApp db app))).
  { apply Consistent_CreateMetaApp; [exact Hc|].
    intros old Hold. change (PinID app) with (mPinID metaData) in Hold.
    rewrite Hfresh in Hold. discriminate. }
  destruct (CreateMetaApp db app) as [db' app']. simpl in *. subst app'.
  apply Consistent_addToDeployQueue; [exact Hc'|].
  exists (written app). rewrite Hpin, written_PinID, lookup_insert_eq.
  split; reflexivity.
Qed.

(** Handling one pin always comes to an end, and keeps the store
    consistent. *)
Lemma handleMetaIDData_Consistent db metaData height timestamp now :
  Consistent db ->
  exists db', handleMetaIDData E db metaData height timestamp now = Some db'
              /\ Consistent db'.
Proof.
  intros Hc. unfold handleMetaIDData.
  destruct (isMetaAppPath (mPath metaData)) as [isMetaApp isPathPinID].
  destruct isMetaApp; cbn [negb]; [|eauto].
  unfold GetMetaAppByPinID.
  destruct (metaapp_pin db !! mPinID metaData) as [existingApp|] eqn:Hlook.
  - destruct ((BlockHeight existingApp <? height) && (0 <? height))%Z; [|eauto].
    eexists. split; [reflexivity|].
    unfold UpdateMetaApp. apply Consistent_CreateMetaApp; [exact Hc|].
    intros old Hold. change (PinID (set_BlockHeight height existingApp))
      with (PinID existingApp) in Hold.
    rewrite (pinKeyed db Hc _ _ Hlook), Hlook in Hold.
    injection Hold as <-. reflexivity.
  - destruct (String.eqb (mOperation metaData) "modify"
              && negb (String.eqb (mPath metaData) "")).
    + unfold extractFirstPinIDFromOriginalPath.
      destruct (String.eqb (mPath metaData) ""); [eauto|].
      match goal with |- context [if String.eqb ?c "" then _ else _] =>
        destruct (String.eqb c "") end; [eauto|].
      match goal with |- context [findFirstPinID db ?p] =>
        pose proof (findFirstPinID_total db p) as Htotal;
        destruct (findFirstPinID db p) as [[firstPinID|msg]|]
      end; [| eauto | contradiction].
      destruct (negb (String.eqb firstPinID "")); [|eauto].
      eexists. split; [reflexivity|].
      apply Consistent_processMetaAppModify; assumption.
    + destruct (String.eqb (mOperation metaData) "create" && isPathPinID); [eauto|].
      eexists. split; [reflexivity|].
      apply Consistent_processMetaAppModify; assumption.
Qed.

Lemma handleTransaction_Consistent pins : forall db height timestamp now,
  Consistent db ->
  exists db', handleTransaction E db pins height timestamp now = Some db'
              /\ Consistent db'.
Proof.
  induction pins as [|metaData pins IH]; intros db height timestamp now Hc;
    cbn [handleTransaction]; [eauto|].
  destruct (handleMetaIDData_Consistent db metaData height timestamp now Hc)
    as (db' & -> & Hc').
  apply IH. exact Hc'.
Qed.

Lemma Consistent_RedeployMetaApp db pinID now :
  Consistent db -> Consistent (fst (RedeployMetaApp db pinID now)).
Proof.
  intros Hc. unfold RedeployMetaApp.
  destruct (GetMetaAppByPinID db pinID) as [metaApp|]; [|exact Hc].
  unfold GetLatestMetaAppByFirstPinID.
  destruct (metaapp_pin_latest db !! FirstPinId metaApp) as [latest|] eqn:Hlatest;
    [|exact Hc].
  destruct (GetDeployQueueItem db (PinID latest)); [exact Hc|].
  match goal with |- Consistent (fst (if ?c then _ else _)) => destruct c end;
    [exact Hc|].
  cbn [fst]. apply Consistent_AddToDeployQueue; [exact Hc|].
  exact (latestBacked db Hc _ _ Hlatest).
Qed.

(** [deployMetaApp] touches the deploy results only. *)
Lemma deployMetaApp_db db fs queueItem now :
  fst (fst (deployMetaApp D db fs queueItem now)) = db
  \/ exists c, fst (fst (deployMetaApp D db fs queueItem now))
               = CreateOrUpdateDeployFileContent db c.
Proof.
  unfold deployMetaApp.
  destruct (GetMetaAppByPinID db (qPinID queueItem)) as [metaApp|]; [|left; reflexivity].
  cbv zeta.
  match goal with |- context [if String.eqb ?r "" then _ else _] =>
    destruct (String.eqb r "") end; [left; reflexivity|].
  match goal with |- context [if negb ?c then _ else _] => destruct c end;
    cbn [negb]; [|left; reflexivity].
  match goal with |- context [downloadFileFromPinID D ?a ?b ?c] =>
    destruct (downloadFileFromPinID D a b c) as [fs1 [filePath|e]] end;
    right; eexists; reflexivity.
Qed.

Lemma Consistent_deployMetaApp db fs queueItem now :
  Consistent db -> Consistent (fst (fst (deployMetaApp D db fs queueItem now))).
Proof.
  intros Hc.
  destruct (deployMetaApp_db db fs queueItem now) as [->|[c ->]]; [exact Hc|].
  apply Consistent_deploy_file_content. exact Hc.
Qed.

Lemma queue_deployMetaApp db fs queueItem now :
  metaapp_deploy_queue (fst (fst (deployMetaApp D db fs queueItem now)))
  = metaapp_deploy_queue db.
Proof.
  destruct (deployMetaApp_db db fs queueItem now) as [->|[c ->]]; reflexivity.
Qed.

Lemma Consistent_processNextDeployItem db fs now :
  Consistent db ->
  Consistent (fst (fst (processNextDeployItem D db fs now))).
Proof.
  intros Hc. unfold processNextDeployItem.
  destruct (GetNextDeployQueueItem db) as [queueItem|] eqn:Hnext; [|exact Hc].
  pose proof (Consistent_deployMetaApp db fs queueItem now Hc) as Hc'.
  pose proof (queue_deployMetaApp db fs queueItem now) as Hqueue.
  destruct (next_item_found db queueItem Hnext) as (k & rest & _ & Hfound).
  destruct (deployMetaApp D db fs queueItem now) as [[db1 fs1] [err|]];
    cbn [fst snd] in *.
  - destruct (maxRetryCount <=? _)%Z; cbn [fst].
    + apply Consistent_RemoveFromDeployQueue. exact Hc'.
    + apply Consistent_UpdateDeployQueueItem; [exact Hc'|].
      cbn [qPinID qTimestamp set_TryCount]. rewrite Hqueue, Hfound.
      intros k' old [= _ <-]. reflexivity.
  - pose proof (Consistent_RemoveFromDeployQueue db1 (qPinID queueItem) Hc') as Hr.
    destruct (RemoveFromDeployQueue db1 (qPinID queueItem)) as [db2 [e|]];
      exact Hr.
Qed.

(** Every event that runs without overlap keeps the store consistent and
    comes to an end. *)
Lemma step_Consistent st ev :
  Consistent (fst st) ->
  exists st', step E D st ev = Some st' /\ Consistent (fst st').
Proof.
  intros Hc. destruct ev as [pins height timestamp now|pinID now|now];
    cbn [step].
  - destruct (handleTransaction_Consistent pins (fst st) height timestamp now Hc)
      as (db' & -> & Hc'). eauto.
  - eexists. split; [reflexivity|]. apply Consistent_RedeployMetaApp. exact Hc.
  - pose proof (Consistent_processNextDeployItem (fst st) (snd st) now Hc) as Hc'.
    destruct (processNextDeployItem D (fst st) (snd st) now) as [[db' fs'] err].
    eexists. split; [reflexivity | exact Hc'].
Qed.

Lemma run_Consistent evs : forall st,
  Consistent (fst st) ->
  exists st', run E D st evs = Some st' /\ Consistent (fst st').
Proof.
  induction evs as [|ev evs IH]; intros st Hc; cbn [run]; [eauto|].
  destruct (step_Consistent st ev Hc) as (st' & -> & Hc').
  apply IH. exact Hc'.
Qed.
End ServiceSteps.

Lemma queued_pin_found db pinID :
  In pinID (queuedPins db) ->
  exists k item, findByPinID pinID (metaapp_deploy_queue db) = Some (k, item).
Proof.
  intros Hin.
  destruct (findByPinID pinID (metaapp_deploy_queue db)) as [[k item]|] eqn:Hfind;
    [eauto|].
  exfalso. exact (findByPinID_None _ _ Hfind Hin).
Qed.

(** A redeploy request for an item that is already queued is refused and
    changes nothing. *)
Lemma RedeployMetaApp_queued db pinID now metaApp latest :
  GetMetaAppByPinID db pinID = Ok metaApp ->
  GetLatestMetaAppByFirstPinID db (FirstPinId metaApp) = Ok latest ->
  In (PinID latest) (queuedPins db) ->
  RedeployMetaApp db pinID now
  = (db, Some ("MetaApp " ++ PinID latest ++ " is already in deploy queue")).
Proof.
  intros Hget Hlatest Hin. unfold RedeployMetaApp. rewrite Hget, Hlatest.
  unfold GetDeployQueueItem.
  destruct (queued_pin_found db (PinID latest) Hin) as (k & item & ->).
  reflexivity.
Qed.

(** A second arrival of a pin that is queued leaves the queue as it is. *)
Lemma handleMetaIDData_queued E db metaData height timestamp now :
  Consistent db ->
  In (mPinID metaData) (queuedPins db) ->
  exists db',
    handleMetaIDData E db metaData height timestamp now = Some db'
    /\ metaapp_deploy_queue db' = metaapp_deploy_queue db.
Proof.
  intros Hc Hin.
  destruct (queued_pin_found db _ Hin) as (k & item & Hfind).
  destruct (findByPinID_In _ _ _ _ Hfind) as [Hitem Hpin].
  destruct (queueBacked db Hc k item Hitem) as (_ & a & Ha & _).
  rewrite Hpin in Ha.
  unfold handleMetaIDData.
  destruct (isMetaAppPath (mPath metaData)) as [isMetaApp isPathPinID].
  destruct isMetaApp; cbn [negb]; [|eauto].
  unfold GetMetaAppByPinID. rewrite Ha.
  destruct ((BlockHeight a <? height) && (0 <? height))%Z; [|eauto].
  eexists. split; [reflexivity|]. unfold UpdateMetaApp.
  apply CreateMetaApp_queue.
Qed.

(** Without overlap the queue holds one entry per pin: whatever
    transactions the indexer is handed, redeploys are requested and ticks
    the worker makes, one after the other and starting from the empty
    store, the run comes to an end in a store whose deploy queue holds at
    most one entry per pin id; in that store, a further arrival of a pin
    that is queued leaves the queue as it is, and a redeploy request whose
    item is already queued is refused and changes nothing.  The guards are
    those of the callers; [AddToDeployQueue] has none. *)
Lemma one_queue_entry_per_pin_without_overlap
    (E : IndexerEnv) (D : DeployEnv) (evs : list Event) :
  exists st,
    run E D (emptyDB, OS.emptyFS) evs = Some st
    /\ List.NoDup (queuedPins (fst st))
    /\ (forall metaData height timestamp now,
          In (mPinID metaData) (queuedPins (fst st)) ->
          exists db',
            handleMetaIDData E (fst st) metaData height timestamp now = Some db'
            /\ metaapp_deploy_queue db' = metaapp_deploy_queue (fst st))
    /\ (forall pinID now metaApp latest,
          GetMetaAppByPinID (fst st) pinID = Ok metaApp ->
          GetLatestMetaAppByFirstPinID (fst st) (FirstPinId metaApp) = Ok latest ->
          In (PinID latest) (queuedPins (fst st)) ->
          RedeployMetaApp (fst st) pinID now
          = (fst st,
             Some ("MetaApp " ++ PinID latest ++ " is already in deploy queue"))).
Proof.
  destruct (run_Consistent E D evs (emptyDB, OS.emptyFS) Consistent_emptyDB)
    as (st & Hrun & Hc).
  exists st. split; [exact Hrun|].
  split; [apply Consistent_NoDup; exact Hc|].
  split.
  - intros metaData height timestamp now Hin.
    apply handleMetaIDData_queued; assumption.
  - intros pinID now metaApp latest. apply RedeployMetaApp_queued.
Qed.

(** *** Arrivals that overlap *)

(** A call that is not interrupted between its two moves is the loop body
    of [handleTransaction]. *)
Lemma advance_twice E db metaData height timestamp now :
  match Overlap.advance E db (Overlap.Started metaData height timestamp now) with
  | Some (db1, c) =>
      match Overlap.advance E db1 c with
      | Some (db2, _) => Some db2
      | None => None
      end
  | None => None
  end
  = handleMetaIDData E db metaData height timestamp now.
Proof.
  unfold handleMetaIDData. cbn [Overlap.advance].
  destruct (isMetaAppPath (mPath metaData)) as [isMetaApp isPathPinID] eqn:Hpath.
  cbn [fst]. destruct isMetaApp; cbn [negb Overlap.advance]; [|reflexivity].
  unfold Overlap.afterLookup. rewrite Hpath. cbn [snd].
  destruct (GetMetaAppByPinID db (mPinID metaData)) as [existingApp|e].
  - destruct ((BlockHeight existingApp <? height) && (0 <? height))%Z;
      reflexivity.
  - destruct (String.eqb (mOperation metaData) "modify"
              && negb (String.eqb (mPath metaData) "")).
    + destruct (extractFirstPinIDFromOriginalPath db (mPath metaData))
        as [[firstPinID|e']|]; try reflexivity.
      destruct (negb (String.eqb firstPinID "")); reflexivity.
    + destruct (String.eqb (mOperation metaData) "create" && isPathPinID);
        reflexivity.
Qed.

(** C8 (the code breaks the claim): [AddToDeployQueue] writes under the
    key made of the timestamp and the pin id without looking the pin id
    up, so that an item of a queued pin with another timestamp becomes a
    second entry.  The guard is the lookup of the pin in the loop body of
    [handleTransaction], and it does not hold when two calls overlap: the
    create pin [P0] is handed to the handler by the scanner loop, from its
    block, and by the ZMQ listener, from the mempool.  When one call ends
    before the other starts, the queue holds one entry of [P0].  When both
    look the pin up before either has written it, both find it absent, both
    write the record and both enqueue it, under two keys, as their
    timestamps differ: the queue holds two entries of [P0], and the removal
    of [P0] from the queue, which deletes the first entry it finds, leaves
    the other behind. *)
Theorem C8_overlapping_arrivals_queue_a_pin_twice :
  queuedPins (AddToDeployQueue (AddToDeployQueue emptyDB older)
                (item P0 1700000600000 ("metafile://" ++ PA) 0))
  = [P0; P0]
  /\ option_map (fun st => queuedPins (Overlap.store st))
       (Overlap.interleave env bothArrive
          [Overlap.ZMQListener; Overlap.ZMQListener;
           Overlap.ScannerLoop; Overlap.ScannerLoop])
     = Some [P0]
  /\ option_map
       (fun st => (queuedPins (Overlap.store st),
                   Overlap.scannerCall st, Overlap.listenerCall st))
       (Overlap.interleave env bothArrive
          [Overlap.ZMQListener; Overlap.ScannerLoop;
           Overlap.ZMQListener; Overlap.ScannerLoop])
     = Some ([P0; P0], Overlap.Returned, Overlap.Returned)
  /\ option_map
       (fun st => queuedPins (fst (RemoveFromDeployQueue (Overlap.store st) P0)))
       (Overlap.interleave env bothArrive
          [Overlap.ZMQListener; Overlap.ScannerLoop;
           Overlap.ZMQListener; Overlap.ScannerLoop])
     = Some [P0].
Proof. repeat split; vm_compute; reflexivity. Qed.

(** ** Paginated listings *)

Lemma wrap_small z : (- 2 ^ 63 <= z < 2 ^ 63)%Z -> Int64.wrap z = z.
Proof. intros H. unfold Int64.wrap. rewrite Z.mod_small by lia. lia. Qed.

Section SortSlice.
Context {A : Type} (less : A -> A -> bool).

Lemma insertBy_Permutation a l : Permutation (Queries.insertBy less a l) (a :: l).
Proof.
  induction l as [|b r IH]; simpl; [reflexivity|].
  destruct (less b a); [|reflexivity].
  rewrite IH. apply perm_swap.
Qed.

Lemma sortSlice_Permutation l : Permutation (Queries.sortSlice less l) l.
Proof.
  induction l as [|a l IH]; simpl; [reflexivity|].
  rewrite insertBy_Permutation. by constructor.
Qed.

Lemma sortSlice_length l : length (Queries.sortSlice less l) = length l.
Proof. apply Permutation_length, sortSlice_Permutation. Qed.

(** An order [R] that the comparison refines: whenever [b] does not go
    before [a], [a] may stand in front of [b]. *)
Variable R : A -> A -> Prop.
Hypothesis R_trans : forall a b c, R a b -> R b c -> R a c.
Hypothesis less_R : forall a b, less a b = true -> R a b.
Hypothesis not_less_R : forall a b, less b a = false -> R a b.

Lemma insertBy_sorted a l :
  StronglySorted R l -> StronglySorted R (Queries.insertBy less a l).
Proof.
  induction 1 as [|b r Hr IH Hb]; simpl.
  - repeat constructor.
  - destruct (less b a) eqn:Hba.
    + constructor; [exact IH|].
      eapply Permutation_Forall; [symmetry; apply insertBy_Permutation|].
      constructor; [by apply less_R|exact Hb].
    + constructor; [by constructor|].
      constructor; [by apply not_less_R|].
      eapply Forall_impl; [exact Hb|].
      intros c Hc. eapply R_trans; [|exact Hc]. by apply not_less_R.
Qed.

Lemma sortSlice_sorted l : StronglySorted R (Queries.sortSlice less l).
Proof.
  induction l as [|a l IH]; simpl; [constructor|by apply insertBy_sorted].
Qed.
End SortSlice.

Lemma StronglySorted_drop {A} (R : A -> A -> Prop) n : forall l,
  StronglySorted R l -> StronglySorted R (drop n l).
Proof.
  induction n as [|n IH]; intros l Hl; [exact Hl|].
  destruct l as [|a l]; [constructor|]. simpl. apply IH.
  by inversion Hl.
Qed.

Lemma StronglySorted_take {A} (R : A -> A -> Prop) n : forall l,
  StronglySorted R l -> StronglySorted R (take n l).
Proof.
  induction n as [|n IH]; intros l Hl; [constructor|].
  destruct l as [|a l]; [constructor|]. simpl.
  inversion Hl as [|? ? Hs Hall]; subst. constructor; [by apply IH|].
  rewrite List.Forall_forall in *. intros x Hx. apply Hall.
  apply list_elem_of_In. apply list_elem_of_In in Hx.
  apply elem_of_take in Hx as (i & Hi & _).
  by eapply list_elem_of_lookup_2.
Qed.

Lemma sorted_newestFirst apps :
  StronglySorted Queries.newestFirst
    (Queries.sortSlice (Queries.byTimestampDesc Timestamp PinID) apps).
Proof.
  apply sortSlice_sorted; unfold Queries.newestFirst, Queries.byTimestampDesc.
  - intros a b c; lia.
  - intros a b. destruct (Z.eqb_spec (Timestamp a) (Timestamp b)); [lia|].
    intros H%Z.ltb_lt. lia.
  - intros a b. destruct (Z.eqb_spec (Timestamp b) (Timestamp a)); [lia|].
    intros H%Z.ltb_ge. lia.
Qed.

(** What [paginateMetaAppsByTimestampDesc] returns when no addition wraps
    around: the [size] records of the sorted slice from position [cursor]
    on, and the position after them. *)
Lemma paginate_slice apps cursor size :
  (0 <= cursor)%Z -> (0 < size)%Z ->
  (Z.of_nat (length apps) + size <= Int64.MaxInt64)%Z ->
  let sorted := Queries.sortSlice (Queries.byTimestampDesc Timestamp PinID) apps in
  let page := take (Z.to_nat size) (drop (Z.to_nat cursor) sorted) in
  Queries.paginateMetaAppsByTimestampDesc apps cursor size
  = Some (page, (cursor + Z.of_nat (length page))%Z).
Proof.
  intros Hc Hs Hbound sorted page.
  unfold Queries.paginateMetaAppsByTimestampDesc.
  assert (Hlen : length sorted = length apps) by apply sortSlice_length.
  destruct (Nat.eqb_spec (length apps) 0) as [Hz|Hnz]; simpl.
  - assert (Hp : page = []).
    { subst page. destruct sorted; [|simpl in Hlen; lia].
      by rewrite drop_nil, take_nil. }
    rewrite Hp. simpl. by rewrite Z.add_0_r.
  - destruct (Z.leb_spec size 0) as [|_]; [lia|].
    destruct (Z.ltb_spec cursor 0) as [|_]; [lia|].
    fold sorted. rewrite Hlen.
    destruct (Z.leb_spec (Z.of_nat (length apps)) cursor) as [Hge|Hlt].
    + assert (Hp : page = []).
      { subst page. rewrite drop_ge by lia. by rewrite take_nil. }
      rewrite Hp. simpl. by rewrite Z.add_0_r.
    + unfold Int64.MaxInt64 in Hbound. cbv zeta.
      assert (Hadd : Int64.add cursor size = (cursor + size)%Z).
      { unfold Int64.add. apply wrap_small. lia. }
      rewrite Hadd.
      assert (Hpage :
        take (Z.to_nat ((if (Z.of_nat (length apps) <? cursor + size)%Z
                         then Z.of_nat (length apps) else (cursor + size)%Z)
                        - cursor))
             (drop (Z.to_nat cursor) sorted) = page).
      { subst page.
        destruct (Z.ltb_spec (Z.of_nat (length apps)) (cursor + size)) as [Hover|Hfit].
        - transitivity (drop (Z.to_nat cursor) sorted).
          + apply take_ge. rewrite length_drop. lia.
          + symmetry. apply take_ge. rewrite length_drop. lia.
        - f_equal. lia. }
      rewrite Hpage.
      assert (length page <= Z.to_nat size)%nat.
      { subst page. rewrite length_take. lia. }
      assert (Hend : ((if (Z.of_nat (length apps) <? cursor + size)%Z
                       then Z.of_nat (length apps) else (cursor + size)%Z)
                      <? cursor)%Z = false).
      { apply Z.ltb_ge.
        destruct (Z.ltb_spec (Z.of_nat (length apps)) (cursor + size)); lia. }
      rewrite Hend. unfold Int64.add. rewrite wrap_small by lia. reflexivity.
Qed.

(** X1.  A page holds at most [size] records, and the cursor returned is
    the cursor given plus the number of records on the page: the position
    from which the next page starts. *)
Theorem paginate_page_length_and_cursor (apps : list MetaApp) (cursor size : Z) :
  (0 <= cursor)%Z ->
  (Z.of_nat (length apps) + size <= Int64.MaxInt64)%Z ->
  exists page next,
    Queries.paginateMetaAppsByTimestampDesc apps cursor size = Some (page, next)
    /\ (Z.of_nat (length page) <= Z.max size 0)%Z
    /\ next = (cursor + Z.of_nat (length page))%Z.
Proof.
  intros Hc Hbound.
  destruct (Z.leb_spec size 0) as [Hneg|Hpos].
  - exists [], cursor. split; [|simpl; lia].
    unfold Queries.paginateMetaAppsByTimestampDesc.
    destruct (Z.leb_spec size 0); [|lia]. by rewrite orb_true_r.
  - eexists _, _. split; [by apply paginate_slice|]. split; [|reflexivity].
    rewrite length_take. lia.
Qed.

Lemma paginate_page_length_and_cursor_witness :
  exists page next,
    Queries.paginateMetaAppsByTimestampDesc Examples.threeApps 1 1
    = Some (page, next)
    /\ (Z.of_nat (length page) <= Z.max 1 0)%Z
    /\ next = (1 + Z.of_nat (length page))%Z.
Proof.
  apply (paginate_page_length_and_cursor Examples.threeApps 1 1).
  - lia.
  - vm_compute. discriminate.
Defined.

(** X2.  Pages follow one another without a gap or a repeat: the page of
    [n] records at a cursor, followed by the page of [m] records at the
    cursor it returned, is the page of [n + m] records at the first
    cursor. *)
Theorem paginate_pages_compose (apps : list MetaApp) (cursor n m : Z)
    (page1 page2 : list MetaApp) (next1 next2 : Z) :
  (0 <= cursor)%Z -> (0 < n)%Z -> (0 < m)%Z ->
  (Z.of_nat (length apps) + (n + m) <= Int64.MaxInt64)%Z ->
  Queries.paginateMetaAppsByTimestampDesc apps cursor n = Some (page1, next1) ->
  Queries.paginateMetaAppsByTimestampDesc apps next1 m = Some (page2, next2) ->
  Queries.paginateMetaAppsByTimestampDesc apps cursor (n + m)
  = Some ((page1 ++ page2)%list, next2).
Proof.
  intros Hc Hn Hm Hbound H1 H2.
  rewrite paginate_slice in H1 by lia.
  injection H1 as Hp1 Hn1.
  rewrite paginate_slice in H2 by lia.
  injection H2 as Hp2 Hn2.
  rewrite paginate_slice by lia.
  set (sorted := Queries.sortSlice (Queries.byTimestampDesc Timestamp PinID) apps) in *.
  assert (Hpage : take (Z.to_nat (n + m)) (drop (Z.to_nat cursor) sorted)
                  = (page1 ++ page2)%list).
  { subst page1 page2 next1.
    set (d := drop (Z.to_nat cursor) sorted).
    replace (Z.to_nat (cursor + Z.of_nat (length (take (Z.to_nat n) d))))
      with (Z.to_nat cursor + length (take (Z.to_nat n) d))%nat by lia.
    rewrite <- drop_drop. fold d.
    replace (Z.to_nat (n + m)) with (Z.to_nat n + Z.to_nat m)%nat by lia.
    destruct (le_lt_dec (Z.to_nat n) (length d)) as [Hle|Hgt].
    - rewrite length_take, Nat.min_l by lia.
      by rewrite take_take_drop.
    - rewrite (take_ge d (Z.to_nat n)) by lia.
      rewrite drop_all, take_nil, app_nil_r.
      rewrite take_ge by lia. reflexivity. }
  rewrite Hpage. f_equal. f_equal.
  subst next2 next1. rewrite length_app, <- Hp1, <- Hp2. lia.
Qed.

Lemma paginate_pages_compose_witness :
  Queries.paginateMetaAppsByTimestampDesc Examples.threeApps 0 (1 + 1)
  = Some (([Examples.appAt P1 1700000000003]
           ++ [Examples.appAt PA 1700000000002])%list, 2%Z).
Proof.
  apply (paginate_pages_compose _ 0 1 1 _ _ 1 2).
  - lia.
  - lia.
  - lia.
  - vm_compute. discriminate.
  - vm_compute. reflexivity.
  - vm_compute. reflexivity.
Defined.

(** X3.  Whatever the cursor and the size, a page is in descending order
    of timestamp and holds records of the input only. *)
Theorem paginate_page_sorted (apps : list MetaApp) (cursor size : Z)
    (page : list MetaApp) (next : Z) :
  Queries.paginateMetaAppsByTimestampDesc apps cursor size = Some (page, next) ->
  StronglySorted Queries.newestFirst page /\ Forall (fun a => In a apps) page.
Proof.
  unfold Queries.paginateMetaAppsByTimestampDesc. intros H.
  assert (Hsub : forall n k,
    StronglySorted Queries.newestFirst
      (take n (drop k (Queries.sortSlice
                         (Queries.byTimestampDesc Timestamp PinID) apps)))
    /\ Forall (fun a => In a apps)
         (take n (drop k (Queries.sortSlice
                            (Queries.byTimestampDesc Timestamp PinID) apps)))).
  { intros n k. split.
    - apply StronglySorted_take, StronglySorted_drop, sorted_newestFirst.
    - rewrite List.Forall_forall. intros a Ha.
      apply list_elem_of_In. apply list_elem_of_In in Ha.
      apply elem_of_take in Ha as (i & Hi & _).
      rewrite lookup_drop in Hi. apply list_elem_of_lookup_2 in Hi.
      by rewrite sortSlice_Permutation in Hi. }
  repeat match type of H with
         | context [if ?c then _ else _] => destruct c
         end;
    try discriminate; injection H as <- <-;
    first [apply Hsub | split; constructor].
Qed.

Lemma paginate_page_sorted_witness :
  StronglySorted Queries.newestFirst
    [Examples.appAt P1 1700000000003; Examples.appAt PA 1700000000002]
  /\ Forall (fun a => In a Examples.threeApps)
       [Examples.appAt P1 1700000000003; Examples.appAt PA 1700000000002].
Proof.
  apply (paginate_page_sorted Examples.threeApps 0 2 _ 2).
  vm_compute. reflexivity.
Defined.

(** ** One record per logical app *)

Lemma dedupe_invariant (Q : MetaApp -> Prop) (entries : KV.t MetaApp) :
  Forall (fun kv => Q (snd kv)) entries ->
  forall k a, Queries.dedupeByFirstPinID entries !! k = Some a ->
    Queries.firstPinIDOf a = k /\ Q a.
Proof.
  intros Hall. unfold Queries.dedupeByFirstPinID.
  assert (Hgen : forall (m : gmap string MetaApp),
    (forall k a, m !! k = Some a -> Queries.firstPinIDOf a = k /\ Q a) ->
    forall k a,
      fold_left
        (fun firstPinIDMap kv =>
           match firstPinIDMap !! Queries.firstPinIDOf (snd kv) with
           | Some existing =>
               if (Timestamp existing <? Timestamp (snd kv))%Z
               then <[Queries.firstPinIDOf (snd kv) := snd kv]> firstPinIDMap
               else firstPinIDMap
           | None => <[Queries.firstPinIDOf (snd kv) := snd kv]> firstPinIDMap
           end) entries m !! k = Some a ->
      Queries.firstPinIDOf a = k /\ Q a).
  { induction Hall as [|kv rest Hkv Hrest IH]; intros m Hm k a; simpl; [apply Hm|].
    apply IH. clear k a. intros k a.
    assert (Hins : <[Queries.firstPinIDOf (snd kv) := snd kv]> m !! k = Some a ->
                   Queries.firstPinIDOf a = k /\ Q a).
    { intros [[<- <-]|[_ Hold]]%lookup_insert_Some; [done|by apply Hm]. }
    destruct (m !! Queries.firstPinIDOf (snd kv)); [|exact Hins].
    destruct (Timestamp m0 <? Timestamp (snd kv))%Z; [exact Hins|apply Hm]. }
  apply Hgen. intros k a. by rewrite lookup_empty.
Qed.

Lemma dedupe_size (entries : KV.t MetaApp) :
  (size (Queries.dedupeByFirstPinID entries) <= length entries)%nat.
Proof.
  unfold Queries.dedupeByFirstPinID.
  assert (Hgen : forall (m : gmap string MetaApp),
    (size (fold_left
        (fun firstPinIDMap kv =>
           match firstPinIDMap !! Queries.firstPinIDOf (snd kv) with
           | Some existing =>
               if (Timestamp existing <? Timestamp (snd kv))%Z
               then <[Queries.firstPinIDOf (snd kv) := snd kv]> firstPinIDMap
               else firstPinIDMap
           | None => <[Queries.firstPinIDOf (snd kv) := snd kv]> firstPinIDMap
           end) entries m) <= size m + length entries)%nat).
  { induction entries as [|kv rest IH]; intros m; simpl; [lia|].
    etransitivity; [apply IH|].
    destruct (m !! Queries.firstPinIDOf (snd kv)) eqn:Hm.
    - destruct (Timestamp m0 <? Timestamp (snd kv))%Z; [|lia].
      rewrite map_size_insert_Some by eauto. lia.
    - rewrite map_size_insert_None by done. lia. }
  specialize (Hgen ∅). by rewrite map_size_empty in Hgen.
Qed.

Lemma mapValues_length m : length (Queries.mapValues m) = size m.
Proof. unfold Queries.mapValues. by rewrite length_map, length_map_to_list. Qed.

Lemma mapValues_dedupe (Q : MetaApp -> Prop) (entries : KV.t MetaApp) :
  Forall (fun kv => Q (snd kv)) entries ->
  List.NoDup (map Queries.firstPinIDOf
                (Queries.mapValues (Queries.dedupeByFirstPinID entries)))
  /\ Forall Q (Queries.mapValues (Queries.dedupeByFirstPinID entries)).
Proof.
  intros Hall. unfold Queries.mapValues.
  set (m := Queries.dedupeByFirstPinID entries).
  assert (Hinv : Forall (fun kv => Queries.firstPinIDOf (snd kv) = fst kv /\ Q (snd kv))
                   (map_to_list m)).
  { rewrite List.Forall_forall. intros [k a] Hin.
    apply list_elem_of_In, elem_of_map_to_list in Hin.
    by apply (dedupe_invariant Q entries). }
  split.
  - apply NoDup_ListNoDup.
    replace (map Queries.firstPinIDOf (map snd (map_to_list m)))
      with ((map_to_list m).*1); [apply NoDup_fst_map_to_list|].
    induction Hinv as [|kv l [Hk _] _ IH]; [reflexivity|].
    simpl. by rewrite Hk, <- IH.
  - induction Hinv as [|kv l [_ Hq] _ IH]; simpl; by constructor.
Qed.

(** What a page keeps of its input: it is a part of a rearrangement of
    it. *)
Lemma paginate_page_part apps cursor size page next :
  Queries.paginateMetaAppsByTimestampDesc apps cursor size = Some (page, next) ->
  exists sorted, Permutation sorted apps /\ page `sublist_of` sorted.
Proof.
  unfold Queries.paginateMetaAppsByTimestampDesc. intros H.
  exists (Queries.sortSlice (Queries.byTimestampDesc Timestamp PinID) apps).
  split; [apply sortSlice_Permutation|].
  repeat match type of H with
         | context [if ?c then _ else _] => destruct c
         end;
    try discriminate; injection H as <- <-;
    first [ apply sublist_nil_l
          | etransitivity; [apply sublist_take|apply sublist_drop] ].
Qed.

(** X4.  A page of the global listing never shows two versions of one
    app: the records on it have pairwise distinct first pin ids, and each
    of them is the value of an entry of the time index. *)
Theorem ListMetaAppsWithCursor_one_record_per_app (db : PebbleDatabase)
    (cursor size : Z) (page : list MetaApp) (next : Z) :
  Queries.ListMetaAppsWithCursor db cursor size = Some (page, next) ->
  List.NoDup (map Queries.firstPinIDOf page)
  /\ Forall (fun a => In a (map snd (metaapp_timestamp db))) page.
Proof.
  unfold Queries.ListMetaAppsWithCursor. intros H.
  apply paginate_page_part in H as (sorted & Hperm & Hsub).
  destruct (mapValues_dedupe (fun a => In a (map snd (metaapp_timestamp db)))
              (metaapp_timestamp db)) as [Hnodup Hall].
  { rewrite List.Forall_forall. intros kv Hkv. by apply in_map. }
  split.
  - apply NoDup_ListNoDup. apply NoDup_ListNoDup in Hnodup.
    eapply sublist_NoDup; [|apply (fmap_sublist Queries.firstPinIDOf), Hsub].
    rewrite Hperm. exact Hnodup.
  - rewrite List.Forall_forall in *. intros a Ha. apply Hall.
    apply list_elem_of_In. rewrite <- Hperm.
    eapply elem_of_sublist; [|exact Hsub]. by apply list_elem_of_In.
Qed.

(** Three records of two apps: the page shows the newest version of the
    app [P0], which is the modify [P1], and the app [PB]. *)
Lemma ListMetaAppsWithCursor_one_record_per_app_witness :
  List.NoDup (map Queries.firstPinIDOf
                [Examples.recordOf PB; Examples.recordOf P1])
  /\ Forall (fun a => In a (map snd (metaapp_timestamp Examples.twoApps)))
       [Examples.recordOf PB; Examples.recordOf P1].
Proof.
  apply (ListMetaAppsWithCursor_one_record_per_app Examples.twoApps 0 20 _ 2).
  vm_compute. reflexivity.
Defined.

(** X5.  The list handler never announces a further page: for every
    cursor that is not negative the response carries [has_more = false],
    at most 100 records, and as next cursor the cursor plus the number of
    records returned. *)
Theorem ListMetaAppsHandler_has_more_is_false (db : PebbleDatabase)
    (cursor size : Z) :
  (0 <= cursor <= Int64.MaxInt64)%Z ->
  (Z.of_nat (length (metaapp_timestamp db)) <= Int64.MaxInt64 - 100)%Z ->
  exists resp,
    Queries.ListMetaAppsHandler db cursor size = Some resp
    /\ Queries.HasMore resp = false
    /\ (length (Queries.Apps resp) <= 100)%nat
    /\ Queries.NextCursor resp
       = (cursor + Z.of_nat (length (Queries.Apps resp)))%Z.
Proof.
  intros Hc Hbound. unfold Int64.MaxInt64 in *.
  unfold Queries.ListMetaAppsHandler, Queries.ListMetaApps,
    Queries.ListMetaAppsWithCursor.
  set (size' := if (100 <? (if (size <=? 0)%Z then 20%Z else size))%Z
                then 100%Z else if (size <=? 0)%Z then 20%Z else size).
  assert (Hsize : (0 < size' <= 100)%Z).
  { subst size'. destruct (Z.leb_spec size 0); simpl; [lia|].
    destruct (Z.ltb_spec 100 size); lia. }
  set (apps := Queries.mapValues (Queries.dedupeByFirstPinID (metaapp_timestamp db))).
  assert (Hlen : (length apps <= length (metaapp_timestamp db))%nat).
  { subst apps. rewrite mapValues_length. apply dedupe_size. }
  rewrite paginate_slice by (unfold Int64.MaxInt64; lia).
  set (page := take (Z.to_nat size')
                 (drop (Z.to_nat cursor)
                    (Queries.sortSlice
                       (Queries.byTimestampDesc Timestamp PinID) apps))).
  assert (Hpage : (length page <= 100)%nat /\
                  (length page = 0%nat \/ cursor < Z.of_nat (length apps))%Z).
  { subst page. rewrite length_take, length_drop, sortSlice_length. lia. }
  eexists. split; [reflexivity|]. simpl. rewrite length_map.
  split; [|split; [lia|reflexivity]].
  apply Z.ltb_ge. unfold Int64.add. rewrite wrap_small; lia.
Qed.

(** Two apps and pages of one record: the first page says that there is
    no more, and the page at the cursor it returns holds the other app. *)
Lemma ListMetaAppsHandler_has_more_is_false_witness :
  (exists resp,
     Queries.ListMetaAppsHandler Examples.twoApps 0 1 = Some resp
     /\ Queries.HasMore resp = false
     /\ (length (Queries.Apps resp) <= 100)%nat
     /\ Queries.NextCursor resp
        = (0 + Z.of_nat (length (Queries.Apps resp)))%Z)
  /\ option_map (fun resp => (length (Queries.Apps resp), Queries.NextCursor resp))
       (Queries.ListMetaAppsHandler Examples.twoApps 0 1) = Some (1%nat, 1%Z)
  /\ option_map (fun resp => length (Queries.Apps resp))
       (Queries.ListMetaAppsHandler Examples.twoApps 1 1) = Some 1%nat.
Proof.
  split; [|split].
  - apply (ListMetaAppsHandler_has_more_is_false Examples.twoApps 0 1).
    + vm_compute. split; discriminate.
    + vm_compute. discriminate.
  - vm_compute. reflexivity.
  - vm_compute. reflexivity.
Defined.

(** X6.  The statistics count logical apps, not versions: storing a
    record whose first pin id is already known leaves the count as it is,
    and storing the first record of an app adds one. *)
Theorem CountMetaApps_after_CreateMetaApp (db : PebbleDatabase) (app : MetaApp) :
  Queries.GetStats (fst (CreateMetaApp db app))
  = match metaapp_pin_latest db !! Queries.firstPinIDOf app with
    | Some _ => Queries.GetStats db
    | None => (Queries.GetStats db + 1)%Z
    end.
Proof.
  unfold Queries.GetStats, Queries.CountMetaApps.
  rewrite CreateMetaApp_latest, written_FirstPinId. fold (Queries.firstPinIDOf app).
  rewrite map_size_insert.
  destruct (metaapp_pin_latest db !! Queries.firstPinIDOf app); simpl; lia.
Qed.

(** ** The history and the time index after a write *)

Lemma insertByTimestampDesc_insertBy a l :
  insertByTimestampDesc a l
  = Queries.insertBy (fun b a => (Timestamp a <? Timestamp b)%Z) a l.
Proof.
  induction l as [|b r IH]; simpl; [reflexivity|].
  rewrite IH.
  destruct (Z.leb_spec (Timestamp b) (Timestamp a)),
           (Z.ltb_spec (Timestamp a) (Timestamp b)); (reflexivity || lia).
Qed.

Lemma sortByTimestampDesc_sorted l : StronglySorted Queries.newestFirst (sortByTimestampDesc l).
Proof.
  replace (sortByTimestampDesc l)
    with (Queries.sortSlice (fun b a => (Timestamp a <? Timestamp b)%Z) l).
  - apply sortSlice_sorted; unfold Queries.newestFirst.
    + intros a b c; lia.
    + intros a b H%Z.ltb_lt. lia.
    + intros a b H%Z.ltb_ge. lia.
  - unfold sortByTimestampDesc, Queries.sortSlice.
    induction l as [|a l IH]; simpl; [reflexivity|].
    by rewrite IH, insertByTimestampDesc_insertBy.
Qed.

(** X7.  Every write adds one record to the history of the app it belongs
    to, leaves that history ordered newest first with the written record
    in it, and leaves the histories of all other apps alone. *)
Theorem history_after_CreateMetaApp (db : PebbleDatabase) (app : MetaApp) :
  let db' := fst (CreateMetaApp db app) in
  let first := Queries.firstPinIDOf app in
  length (Queries.GetMetaAppHistoryByFirstPinID db' first)
  = S (length (Queries.GetMetaAppHistoryByFirstPinID db first))
  /\ StronglySorted Queries.newestFirst (Queries.GetMetaAppHistoryByFirstPinID db' first)
  /\ In (written app) (Queries.GetMetaAppHistoryByFirstPinID db' first)
  /\ (forall other, other <> first ->
        Queries.GetMetaAppHistoryByFirstPinID db' other
        = Queries.GetMetaAppHistoryByFirstPinID db other).
Proof.
  intros db' first. subst db'.
  unfold Queries.GetMetaAppHistoryByFirstPinID.
  rewrite CreateMetaApp_history, written_FirstPinId.
  fold (Queries.firstPinIDOf app). fold first.
  unfold addToHistory. rewrite lookup_insert_eq.
  repeat split.
  - rewrite length_sortByTimestampDesc, length_app. simpl.
    destruct (metaapp_pin_history db !! first); simpl; lia.
  - apply sortByTimestampDesc_sorted.
  - apply In_sortByTimestampDesc, in_or_app. right. by left.
  - intros other Hother. by rewrite lookup_insert_ne.
Qed.

Section KVUnique.
Context {V : Type}.

Lemma sorted_key_unique (db : KV.t V) k a b :
  StronglySorted keyLt (KV.keys db) -> In (k, a) db -> In (k, b) db -> a = b.
Proof.
  induction db as [|[k0 v0] rest IH]; simpl; [done|].
  intros Hs Ha Hb. inversion Hs as [|? ? Hrest Hk0]; subst.
  assert (Hout : forall v, In (k, v) rest -> k0 <> k).
  { intros v Hv Heq. subst k0.
    rewrite List.Forall_forall in Hk0.
    apply (keyLt_irrefl k), Hk0. unfold KV.keys.
    apply (in_map fst) in Hv. exact Hv. }
  destruct Ha as [Ha|Ha], Hb as [Hb|Hb].
  - congruence.
  - injection Ha as -> ->. by destruct (Hout _ Hb).
  - injection Hb as -> ->. by destruct (Hout _ Ha).
  - by apply IH.
Qed.

Lemma In_Set_same k v (db : KV.t V) : In (k, v) (KV.Set_ k v db).
Proof.
  induction db as [|[k0 v0] rest IH]; simpl; [by left|].
  destruct (String.compare k k0); simpl; auto.
Qed.

Lemma In_Delete_other k (db : KV.t V) k' a :
  StronglySorted keyLt (KV.keys db) -> In (k', a) (KV.Delete k db) -> k' <> k.
Proof.
  induction db as [|[k0 v0] rest IH]; simpl; [done|].
  intros Hs Hin. inversion Hs as [|? ? Hrest Hk0]; subst.
  destruct (String.eqb_spec k k0) as [->|Hne].
  - intros ->. rewrite List.Forall_forall in Hk0.
    apply (keyLt_irrefl k0), Hk0. unfold KV.keys.
    apply (in_map fst) in Hin. exact Hin.
  - destruct Hin as [Hin|Hin]; [injection Hin as -> ->; congruence|].
    by apply IH.
Qed.

(** After the loop of [CreateMetaApp] over an index in key order, no
    visited key that ends in the first pin id is left, the new key
    apart. *)
Lemma deleteStale_removes visited firstPinID newKey (db : KV.t V) k a :
  StronglySorted keyLt (KV.keys db) ->
  In (k, a) (deleteStale visited firstPinID newKey db) ->
  visited k && Strings.HasSuffix k (":" ++ firstPinID)
  && negb (String.eqb k newKey) = false.
Proof.
  intros Hs. unfold deleteStale.
  assert (Hgen : forall (scanned acc : KV.t V),
    StronglySorted keyLt (KV.keys acc) ->
    In (k, a)
      (fold_left
         (fun acc kv =>
            if visited (fst kv)
               && Strings.HasSuffix (fst kv) (":" ++ firstPinID)
               && negb (String.eqb (fst kv) newKey)
            then KV.Delete (fst kv) acc else acc) scanned acc) ->
    In (k, a) acc
    /\ (In k (KV.keys scanned) ->
        visited k && Strings.HasSuffix k (":" ++ firstPinID)
        && negb (String.eqb k newKey) = false)).
  { induction scanned as [|[k0 v0] rest IH]; intros acc Hacc Hin; simpl in *.
    - by split.
    - destruct (visited k0 && Strings.HasSuffix k0 (":" ++ firstPinID)
                && negb (String.eqb k0 newKey)) eqn:Hstale.
      + apply IH in Hin as [Hin Hrest]; [|by apply sorted_Delete].
        split; [by eapply In_Delete|].
        intros [->|Hk]; [|by apply Hrest].
        by destruct (In_Delete_other _ _ _ _ Hacc Hin).
      + apply IH in Hin as [Hin Hrest]; [|done].
        split; [done|]. intros [->|Hk]; [done|by apply Hrest]. }
  intros Hin. destruct (Hgen db db Hs Hin) as [Hk Hclean].
  apply Hclean. unfold KV.keys. apply (in_map fst) in Hk. exact Hk.
Qed.

Lemma sorted_deleteStale visited firstPinID newKey (db : KV.t V) :
  StronglySorted keyLt (KV.keys db) ->
  StronglySorted keyLt (KV.keys (deleteStale visited firstPinID newKey db)).
Proof.
  intros Hs. unfold deleteStale.
  assert (Hgen : forall (scanned acc : KV.t V),
    StronglySorted keyLt (KV.keys acc) ->
    StronglySorted keyLt
      (KV.keys
         (fold_left
            (fun acc kv =>
               if visited (fst kv)
                  && Strings.HasSuffix (fst kv) (":" ++ firstPinID)
                  && negb (String.eqb (fst kv) newKey)
               then KV.Delete (fst kv) acc else acc) scanned acc))).
  { induction scanned as [|kv rest IH]; intros acc Hacc; simpl; [done|].
    apply IH. destruct (_ && _ && _); [by apply sorted_Delete|done]. }
  by apply Hgen.
Qed.
End KVUnique.

(** X8.  A logical app has one entry in the global time index: after a
    write, the only entry whose key ends in the first pin id of the
    written record is the one just written, and the index is still in key
    order. *)
Theorem time_index_one_entry_per_app (db : PebbleDatabase) (app : MetaApp)
    (k : string) (a : MetaApp) :
  StronglySorted keyLt (KV.keys (metaapp_timestamp db)) ->
  let db' := fst (CreateMetaApp db app) in
  let first := FirstPinId (written app) in
  In (k, a) (metaapp_timestamp db') ->
  Strings.HasSuffix k (":" ++ first) = true ->
  k = reverseTimestampKey (Timestamp app) ++ ":" ++ first
  /\ a = written app
  /\ StronglySorted keyLt (KV.keys (metaapp_timestamp db')).
Proof.
  intros Hs db' first Hin Hsuffix. subst db'.
  rewrite CreateMetaApp_timestamp in *. cbv zeta in *. fold first in Hin |- *.
  set (key := reverseTimestampKey (Timestamp app) ++ ":" ++ first) in *.
  set (cleaned := deleteStale (fun _ => true) first key (metaapp_timestamp db)) in *.
  assert (Hcleaned : StronglySorted keyLt (KV.keys cleaned)) by by apply sorted_deleteStale.
  assert (Hsorted : StronglySorted keyLt (KV.keys (KV.Set_ key (written app) cleaned)))
    by by apply sorted_Set.
  assert (Hk : k = key).
  { apply In_Set in Hin as [[-> _]|Hold]; [done|].
    apply deleteStale_removes in Hold; [|done].
    rewrite Hsuffix in Hold. simpl in Hold.
    apply negb_false_iff, String.eqb_eq in Hold. exact Hold. }
  subst k. repeat split; [|exact Hsorted].
  eapply sorted_key_unique; [exact Hsorted|exact Hin|apply In_Set_same].
Qed.

Lemma time_index_one_entry_per_app_witness :
  "9223370336854775807:" ++ P0
  = reverseTimestampKey (Timestamp (Examples.appAt P0 1700000000000))
    ++ ":" ++ FirstPinId (written (Examples.appAt P0 1700000000000))
  /\ written (Examples.appAt P0 1700000000000)
     = written (Examples.appAt P0 1700000000000)
  /\ StronglySorted keyLt
       (KV.keys (metaapp_timestamp
                   (fst (CreateMetaApp
                           (fst (CreateMetaApp emptyDB
                                   (Examples.appAt P0 1600000000000)))
                           (Examples.appAt P0 1700000000000))))).
Proof.
  apply (time_index_one_entry_per_app
           (fst (CreateMetaApp emptyDB (Examples.appAt P0 1600000000000)))
           (Examples.appAt P0 1700000000000)).
  - rewrite CreateMetaApp_timestamp. apply sorted_Set. constructor.
  - vm_compute. left. reflexivity.
  - vm_compute. reflexivity.
Defined.

(** ** The deploy queue: round trips *)

Lemma findByPinID_Set_fresh pinID key (queue : MetaAppDeployQueue)
    (q : KV.t MetaAppDeployQueue) :
  qPinID queue = pinID ->
  findByPinID pinID q = None ->
  findByPinID pinID (KV.Set_ key queue q) = Some (key, queue).
Proof.
  intros Hpin. induction q as [|[k0 i0] rest IH]; simpl.
  - intros _. rewrite Hpin, String.eqb_refl. reflexivity.
  - destruct (String.eqb (qPinID i0) pinID) eqn:Hi0; [discriminate|].
    intros Hrest. destruct (String.compare key k0); simpl.
    + rewrite Hpin, String.eqb_refl. reflexivity.
    + rewrite Hpin, String.eqb_refl. reflexivity.
    + rewrite Hi0. by apply IH.
Qed.

Lemma AddToDeployQueue_fresh_found (db : PebbleDatabase) (queue : MetaAppDeployQueue) :
  GetDeployQueueItem db (qPinID queue) = Err ErrNotFound ->
  GetDeployQueueItem (AddToDeployQueue db queue) (qPinID queue) = Ok queue.
Proof.
  unfold GetDeployQueueItem, AddToDeployQueue. simpl.
  destruct (findByPinID (qPinID queue) (metaapp_deploy_queue db)) as [[k i]|] eqn:Hfind;
    [discriminate|].
  intros _. by rewrite (findByPinID_Set_fresh (qPinID queue) _ queue).
Qed.

(** X9.  What is put on the deploy queue is found again by its pin id:
    when no entry of the queue carries the pin id of an item, the item
    read back after [AddToDeployQueue] is the item added. *)
Theorem AddToDeployQueue_then_Get (db : PebbleDatabase) (queue : MetaAppDeployQueue) :
  GetDeployQueueItem db (qPinID queue) = Err ErrNotFound ->
  GetDeployQueueItem (AddToDeployQueue db queue) (qPinID queue) = Ok queue.
Proof. apply AddToDeployQueue_fresh_found. Qed.

Lemma AddToDeployQueue_then_Get_witness :
  GetDeployQueueItem (AddToDeployQueue (AddToDeployQueue emptyDB older) newer)
    (qPinID newer) = Ok newer.
Proof.
  apply (AddToDeployQueue_then_Get (AddToDeployQueue emptyDB older) newer).
  vm_compute. reflexivity.
Defined.

Lemma findByPinID_Delete_found pinID (q : KV.t MetaAppDeployQueue) k item :
  StronglySorted keyLt (KV.keys q) ->
  List.NoDup (map (fun kv => qPinID (snd kv)) q) ->
  findByPinID pinID q = Some (k, item) ->
  findByPinID pinID (KV.Delete k q) = None.
Proof.
  induction q as [|[k0 i0] rest IH]; simpl; [discriminate|].
  intros Hs Hnd. inversion Hs as [|? ? Hrest Hk0]; subst.
  inversion Hnd as [|? ? Hfresh Hnd']; subst.
  destruct (String.eqb (qPinID i0) pinID) eqn:Hi0.
  - intros [= <- <-]. rewrite String.eqb_refl.
    apply String.eqb_eq in Hi0. subst pinID.
    destruct (findByPinID (qPinID i0) rest) as [[k' i']|] eqn:Hf; [|reflexivity].
    apply findByPinID_In in Hf as [Hin Hpin].
    destruct Hfresh. rewrite <- Hpin.
    apply (in_map (fun kv => qPinID (snd kv))) in Hin. exact Hin.
  - intros Hfind.
    assert (Hne : String.eqb k k0 = false).
    { apply String.eqb_neq. intros ->.
      apply findByPinID_In in Hfind as [Hin _].
      rewrite List.Forall_forall in Hk0.
      apply (keyLt_irrefl k0), Hk0. unfold KV.keys.
      apply (in_map fst) in Hin. exact Hin. }
    rewrite Hne. simpl. rewrite Hi0. by apply IH.
Qed.

(** X10.  In a consistent store a pin id is off the queue once
    [RemoveFromDeployQueue] has been called for it, whether the call found
    an entry or reported that there was none. *)
Theorem RemoveFromDeployQueue_then_Get (db : PebbleDatabase) (pinID : string) :
  Consistent db ->
  GetDeployQueueItem (fst (RemoveFromDeployQueue db pinID)) pinID = Err ErrNotFound
  /\ (GetDeployQueueItem db pinID = Err ErrNotFound ->
      RemoveFromDeployQueue db pinID = (db, Some ErrNotFound)).
Proof.
  intros Hc. unfold GetDeployQueueItem, RemoveFromDeployQueue.
  destruct (findByPinID pinID (metaapp_deploy_queue db)) as [[k i]|] eqn:Hfind; simpl.
  - split; [|discriminate].
    rewrite (findByPinID_Delete_found pinID _ k i); try done.
    + apply Hc.
    + apply (Consistent_NoDup db Hc).
  - by rewrite Hfind.
Qed.

Lemma ingested_Consistent code : Consistent (ingested code).
Proof.
  unfold ingested.
  destruct (handleTransaction_Consistent env
              [pin P0 "create" "/protocols/metaapp" code] emptyDB 100
              1700000000000 0 Consistent_emptyDB) as (db' & Heq & Hc).
  rewrite Heq. exact Hc.
Qed.

Lemma RemoveFromDeployQueue_then_Get_witness :
  GetDeployQueueItem
    (fst (RemoveFromDeployQueue (ingested ("metafile://" ++ PA)) P0)) P0
  = Err ErrNotFound
  /\ (GetDeployQueueItem (ingested ("metafile://" ++ PA)) P0 = Err ErrNotFound ->
      RemoveFromDeployQueue (ingested ("metafile://" ++ PA)) P0
      = (ingested ("metafile://" ++ PA), Some ErrNotFound)).
Proof.
  apply (RemoveFromDeployQueue_then_Get (ingested ("metafile://" ++ PA)) P0).
  apply ingested_Consistent.
Defined.

(** X11.  A redeploy request queues the latest version of the app, not
    the version named in the request: when that version has a code or
    content reference and is not on the queue, the item read back for its
    pin id carries its timestamp, a try count of zero and an empty first
    pin id. *)
Theorem RedeployMetaApp_enqueues_latest (db : PebbleDatabase) (pinID : string)
    (now : Time) (metaApp latest : MetaApp) :
  GetMetaAppByPinID db pinID = Ok metaApp ->
  GetLatestMetaAppByFirstPinID db (FirstPinId metaApp) = Ok latest ->
  GetDeployQueueItem db (PinID latest) = Err ErrNotFound ->
  (Code latest <> "" \/ Content latest <> "") ->
  exists db' item,
    RedeployMetaApp db pinID now = (db', None)
    /\ GetDeployQueueItem db' (PinID latest) = Ok item
    /\ qPinID item = PinID latest
    /\ qTimestamp item = Timestamp latest
    /\ qTryCount item = 0%Z
    /\ qFirstPinId item = ""
    /\ qCode item <> "".
Proof.
  intros Hpin Hlatest Hfree Href.
  unfold RedeployMetaApp. rewrite Hpin, Hlatest, Hfree.
  set (codePinID :=
    if String.eqb (Code latest) "" then
      if negb (String.eqb (Content latest) "") then
        if negb (Strings.HasPrefix (Content latest) "metafile://")
        then "metafile://" ++ Content latest
        else Content latest
      else ""
    else Code latest).
  assert (Hcode : codePinID <> "").
  { subst codePinID.
    destruct (String.eqb_spec (Code latest) "") as [Hc|Hc]; [|exact Hc].
    destruct (String.eqb_spec (Content latest) "") as [Hn|Hn]; simpl.
    - destruct Href; contradiction.
    - destruct (Strings.HasPrefix (Content latest) "metafile://"); simpl;
        [exact Hn|discriminate]. }
  destruct (String.eqb_spec codePinID "") as [|_]; [contradiction|].
  set (item := mkQueue "" (PinID latest) (Timestamp latest) (Content latest)
                 codePinID (ContentType latest) (Version latest) 0 now).
  exists (AddToDeployQueue db item), item.
  split; [reflexivity|].
  split; [by apply (AddToDeployQueue_fresh_found db item)|].
  repeat split; try reflexivity. exact Hcode.
Qed.

(** The request names the create pin [P0]; the latest version of its app
    is the modify [P1], and it is [P1] that is queued. *)
Lemma RedeployMetaApp_enqueues_latest_witness :
  exists db' item,
    RedeployMetaApp (fst (RemoveFromDeployQueue Examples.twoApps P1)) P0 7
    = (db', None)
    /\ GetDeployQueueItem db' (PinID (Examples.recordOf P1)) = Ok item
    /\ qPinID item = PinID (Examples.recordOf P1)
    /\ qTimestamp item = Timestamp (Examples.recordOf P1)
    /\ qTryCount item = 0%Z
    /\ qFirstPinId item = ""
    /\ qCode item <> "".
Proof.
  apply (RedeployMetaApp_enqueues_latest
           (fst (RemoveFromDeployQueue Examples.twoApps P1)) P0 7
           (Examples.recordOf P0) (Examples.recordOf P1)).
  - vm_compute. reflexivity.
  - vm_compute. reflexivity.
  - vm_compute. reflexivity.
  - left. vm_compute. discriminate.
Defined.

(** ** The deploy worker: what a deployment leaves behind *)







(** X14.  A deployment that succeeds takes its item off the queue: when
    the download for the first item of a consistent store succeeds, the
    tick ends without error, the pin id of the item is no longer queued,
    the queue is one entry shorter, and the result stored for the pin is
    "completed" with an empty message. *)
Theorem successful_deploy_leaves_queue (D : DeployEnv) (db : PebbleDatabase)
    (fs fs1 : FileSystem) (now : Time) (queueItem : MetaAppDeployQueue)
    (metaApp : MetaApp) (filePath : string) :
  Consistent db ->
  GetNextDeployQueueItem db = Ok queueItem ->
  GetMetaAppByPinID db (qPinID queueItem) = Ok metaApp ->
  downloadFileFromPinID D (prepared D metaApp fs) (downloadRef queueItem)
    (deployDir D metaApp) = (fs1, Ok filePath) ->
  exists db' fs',
    processNextDeployItem D db fs now = (db', fs', None)
    /\ GetDeployQueueItem db' (qPinID queueItem) = Err ErrNotFound
    /\ S (length (metaapp_deploy_queue db')) = length (metaapp_deploy_queue db)
    /\ deployResult db' (qPinID queueItem) = Some ("completed", "").
Proof.
  intros Hc Hnext Hstored Hdl.
  destruct (deployMetaApp_download_succeeded D db fs now queueItem metaApp
              Hstored fs1 filePath Hdl) as (fs2 & Hdeploy).
  destruct (next_item_found db queueItem Hnext) as (k & rest & Hq & Hfind).
  assert (Hpin : PinID metaApp = qPinID queueItem).
  { unfold GetMetaAppByPinID in Hstored.
    destruct (metaapp_pin db !! qPinID queueItem) as [a|] eqn:Ha; [|discriminate].
    injection Hstored as <-. by apply (pinKeyed db Hc). }
  unfold processNextDeployItem. rewrite Hnext, Hdeploy.
  set (db1 := CreateOrUpdateDeployFileContent db
                (outcome D metaApp queueItem now "completed" "")).
  assert (Hq1 : metaapp_deploy_queue db1 = metaapp_deploy_queue db) by reflexivity.
  unfold RemoveFromDeployQueue. rewrite Hq1, Hfind.
  eexists _, _. split; [reflexivity|]. simpl.
  split; [|split].
  - unfold GetDeployQueueItem. simpl.
    rewrite (findByPinID_Delete_found (qPinID queueItem) _ k queueItem); try done.
    + apply Hc.
    + apply (Consistent_NoDup db Hc).
  - rewrite Hq. simpl. by rewrite String.eqb_refl.
  - unfold deployResult, GetDeployFileContent. simpl.
    rewrite Hpin, lookup_insert_eq. reflexivity.
Qed.

Lemma successful_deploy_leaves_queue_witness :
  exists db' fs',
    processNextDeployItem (deployEnv zipInfo) (ingested ("metafile://" ++ PA))
      OS.emptyFS 1 = (db', fs', None)
    /\ GetDeployQueueItem db' (qPinID (queuedItem ("metafile://" ++ PA)))
       = Err ErrNotFound
    /\ S (length (metaapp_deploy_queue db'))
       = length (metaapp_deploy_queue (ingested ("metafile://" ++ PA)))
    /\ deployResult db' (qPinID (queuedItem ("metafile://" ++ PA)))
       = Some ("completed", "").
Proof.
  apply (successful_deploy_leaves_queue (deployEnv zipInfo)
           (ingested ("metafile://" ++ PA)) OS.emptyFS
           (OS.WriteFile
              (prepared (deployEnv zipInfo) (storedApp ("metafile://" ++ PA))
                 OS.emptyFS)
              ("deploy/" ++ P0 ++ "/app.zip") (list_byte_of_string "archive"))
           1 (queuedItem ("metafile://" ++ PA)) (storedApp ("metafile://" ++ PA))
           ("deploy/" ++ P0 ++ "/app.zip")).
  - apply ingested_Consistent.
  - vm_compute. reflexivity.
  - vm_compute. reflexivity.
  - vm_compute. reflexivity.
Defined.

(** ** The indexer: what a pin does to the store *)

(** X15.  Timestamps end up in milliseconds: a timestamp in seconds
    (below ten thousand million) is multiplied by 1000, and normalising a
    second time changes nothing for any timestamp from ten million
    seconds on. *)
Theorem ensureMillisecondTimestamp_idempotent (timestamp : Z) :
  (10000000 <= timestamp <= Int64.MaxInt64)%Z ->
  ensureMillisecondTimestamp (ensureMillisecondTimestamp timestamp)
  = ensureMillisecondTimestamp timestamp
  /\ (10000000000 <= ensureMillisecondTimestamp timestamp)%Z
  /\ ((timestamp < 10000000000)%Z ->
      ensureMillisecondTimestamp timestamp = (timestamp * 1000)%Z).
Proof.
  unfold Int64.MaxInt64. intros Hrange. unfold ensureMillisecondTimestamp.
  destruct (Z.ltb_spec timestamp 10000000000) as [Hsec|Hms].
  - unfold Int64.mul. rewrite wrap_small by lia.
    destruct (Z.ltb_spec (timestamp * 1000) 10000000000); [lia|].
    repeat split; lia.
  - destruct (Z.ltb_spec timestamp 10000000000); [lia|].
    repeat split; lia.
Qed.

Lemma ensureMillisecondTimestamp_idempotent_witness :
  ensureMillisecondTimestamp (ensureMillisecondTimestamp 1700000000)
  = ensureMillisecondTimestamp 1700000000
  /\ (10000000000 <= ensureMillisecondTimestamp 1700000000)%Z
  /\ ((1700000000 < 10000000000)%Z ->
      ensureMillisecondTimestamp 1700000000 = (1700000000 * 1000)%Z).
Proof.
  apply (ensureMillisecondTimestamp_idempotent 1700000000).
  vm_compute. split; discriminate.
Defined.

(** X16.  A transaction none of whose pins has a MetaApp path leaves the
    store exactly as it was. *)
Theorem handleTransaction_ignores_other_protocols (E : IndexerEnv)
    (db : PebbleDatabase) (pins : list MetaIDData) (height timestamp : Z)
    (now : Time) :
  Forall (fun metaData => fst (isMetaAppPath (mPath metaData)) = false) pins ->
  handleTransaction E db pins height timestamp now = Some db.
Proof.
  induction 1 as [|metaData rest Hhead _ IH]; simpl; [reflexivity|].
  unfold handleMetaIDData.
  destruct (isMetaAppPath (mPath metaData)) as [isMetaApp isPathPinID].
  simpl in Hhead. subst isMetaApp. simpl. exact IH.
Qed.

Lemma handleTransaction_ignores_other_protocols_witness :
  handleTransaction env (ingested ("metafile://" ++ PA))
    [pin P1 "create" "/protocols/simplebuzz" "hello";
     pin PA "modify" "/info/name" "x"] 101 1700000000001 5
  = Some (ingested ("metafile://" ++ PA)).
Proof.
  apply (handleTransaction_ignores_other_protocols env).
  repeat constructor.
Defined.

(** X17.  A pin whose payload does not parse as a MetaApp is never
    stored: for a pin id that is not stored yet, [handleMetaIDData] returns
    the store unchanged. *)
Theorem unparsable_payload_is_not_stored (E : IndexerEnv) (db : PebbleDatabase)
    (metaData : MetaIDData) (height timestamp : Z) (now : Time) :
  metaapp_pin db !! mPinID metaData = None ->
  json_Unmarshal E (mContent metaData) = None ->
  handleMetaIDData E db metaData height timestamp now = Some db.
Proof.
  intros Hfresh Hjson. unfold handleMetaIDData.
  destruct (isMetaAppPath (mPath metaData)) as [isMetaApp isPathPinID].
  destruct isMetaApp; simpl; [|reflexivity].
  unfold GetMetaAppByPinID. rewrite Hfresh.
  assert (Hmodify : forall firstPinID,
    fst (processMetaAppModify E db metaData firstPinID height timestamp now) = db).
  { intros firstPinID. unfold processMetaAppModify. by rewrite Hjson. }
  destruct (String.eqb (mOperation metaData) "modify"
            && negb (String.eqb (mPath metaData) "")).
  - destruct (extractFirstPinIDFromOriginalPath db (mPath metaData))
      as [[firstPinID|msg]|] eqn:Hextract.
    + destruct (negb (String.eqb firstPinID "")); [|reflexivity].
      by rewrite Hmodify.
    + reflexivity.
    + exfalso. unfold extractFirstPinIDFromOriginalPath in Hextract.
      destruct (String.eqb (mPath metaData) ""); [discriminate|].
      destruct (String.eqb _ ""); [discriminate|].
      by apply findFirstPinID_total in Hextract.
  - destruct (String.eqb (mOperation metaData) "create" && isPathPinID);
      [reflexivity|].
    unfold processMetaAppContent. by rewrite Hmodify.
Qed.

Lemma unparsable_payload_is_not_stored_witness :
  handleMetaIDData env emptyDB (pin P0 "create" "/protocols/metaapp" "") 100
    1700000000000 0 = Some emptyDB.
Proof.
  apply (unparsable_payload_is_not_stored env emptyDB).
  - reflexivity.
  - reflexivity.
Defined.

Lemma addToDeployQueue_pin db metaApp now :
  metaapp_pin (addToDeployQueue db metaApp now) = metaapp_pin db
  /\ metaapp_pin_latest (addToDeployQueue db metaApp now) = metaapp_pin_latest db
  /\ metaapp_pin_history (addToDeployQueue db metaApp now) = metaapp_pin_history db.
Proof.
  unfold addToDeployQueue.
  match goal with
  | |- context [if String.eqb ?c "" then db else _] => destruct (String.eqb c "")
  end; done.
Qed.

(** X18.  A create pin seen for the first time is stored under its own
    pin id as the root of a new app (first pin id = pin id), becomes the
    latest version of that app, and is put on the deploy queue with a try
    count of zero when its payload names code; with neither code nor
    content the queue is left alone. *)
Theorem first_create_is_stored_and_queued (E : IndexerEnv) (db : PebbleDatabase)
    (metaData : MetaIDData) (height timestamp : Z) (now : Time)
    (metaAppProto : MetaAppProto) :
  metaapp_pin db !! mPinID metaData = None ->
  mOperation metaData = "create" ->
  isMetaAppPath (mPath metaData) = (true, false) ->
  json_Unmarshal E (mContent metaData) = Some metaAppProto ->
  GetDeployQueueItem db (mPinID metaData) = Err ErrNotFound ->
  exists db' app,
    handleMetaIDData E db metaData height timestamp now = Some db'
    /\ GetMetaAppByPinID db' (mPinID metaData) = Ok app
    /\ GetLatestMetaAppByFirstPinID db' (mPinID metaData) = Ok app
    /\ PinID app = mPinID metaData
    /\ FirstPinId app = mPinID metaData
    /\ BlockHeight app = height
    /\ (pCode metaAppProto <> "" ->
        exists item,
          GetDeployQueueItem db' (mPinID metaData) = Ok item
          /\ qCode item = pCode metaAppProto
          /\ qFirstPinId item = mPinID metaData
          /\ qTryCount item = 0%Z)
    /\ (pCode metaAppProto = "" -> pContent metaAppProto = "" ->
        metaapp_deploy_queue db' = metaapp_deploy_queue db).
Proof.
  intros Hfresh Hop Hpath Hjson Hfree.
  unfold handleMetaIDData. rewrite Hpath. simpl.
  unfold GetMetaAppByPinID at 1. rewrite Hfresh, Hop. simpl.
  unfold processMetaAppContent, processMetaAppModify. rewrite Hjson.
  set (built := buildMetaApp E metaData metaAppProto (mPinID metaData)
                  height timestamp now).
  destruct (CreateMetaApp db built) as [db1 app] eqn:Hcreate.
  assert (Hdb1 : db1 = fst (CreateMetaApp db built)) by by rewrite Hcreate.
  assert (Happ : app = written built).
  { rewrite <- (CreateMetaApp_snd db built). by rewrite Hcreate. }
  assert (Hfirst : FirstPinId app = mPinID metaData).
  { rewrite Happ, written_FirstPinId. simpl.
    by destruct (String.eqb (mPinID metaData) ""). }
  assert (HpinID : PinID app = mPinID metaData)
    by (rewrite Happ; apply written_PinID).
  destruct (addToDeployQueue_pin db1 app now) as (Hp & Hl & Hh).
  exists (addToDeployQueue db1 app now), app. simpl.
  split; [reflexivity|].
  split.
  { unfold GetMetaAppByPinID. rewrite Hp, Hdb1, CreateMetaApp_pin. simpl.
    by rewrite lookup_insert_eq, Happ. }
  split.
  { unfold GetLatestMetaAppByFirstPinID.
    rewrite Hl, Hdb1, CreateMetaApp_latest, <- Happ, Hfirst.
    by rewrite lookup_insert_eq. }
  split; [exact HpinID|]. split; [exact Hfirst|].
  split; [by rewrite Happ; unfold written; destruct (String.eqb _ "")|].
  assert (Hcode : Code app = pCode metaAppProto)
    by (rewrite Happ; unfold written; by destruct (String.eqb _ "")).
  assert (Hcontent : Content app = pContent metaAppProto)
    by (rewrite Happ; unfold written; by destruct (String.eqb _ "")).
  assert (Hq1 : metaapp_deploy_queue db1 = metaapp_deploy_queue db)
    by (rewrite Hdb1; apply CreateMetaApp_queue).
  split.
  - intros Hnonempty. unfold addToDeployQueue. rewrite Hcode.
    destruct (String.eqb_spec (pCode metaAppProto) "") as [|_]; [contradiction|].
    destruct (String.eqb_spec (pCode metaAppProto) "") as [|_]; [contradiction|].
    eexists. split.
    + rewrite <- HpinID.
      apply (AddToDeployQueue_fresh_found db1
               (mkQueue (FirstPinId app) (PinID app) (Timestamp app) (Content app)
                  (pCode metaAppProto) (ContentType app) (Version app) 0 now)).
      simpl. rewrite HpinID. unfold GetDeployQueueItem in *. by rewrite Hq1.
    + simpl. by rewrite Hfirst.
  - intros Hnocode Hnocontent. unfold addToDeployQueue.
    rewrite Hcode, Hcontent, Hnocode, Hnocontent. simpl. exact Hq1.
Qed.

Lemma first_create_is_stored_and_queued_witness :
  exists db' app,
    handleMetaIDData env emptyDB (createPin P0) 100 1700000000000 0 = Some db'
    /\ GetMetaAppByPinID db' (mPinID (createPin P0)) = Ok app
    /\ GetLatestMetaAppByFirstPinID db' (mPinID (createPin P0)) = Ok app
    /\ PinID app = mPinID (createPin P0)
    /\ FirstPinId app = mPinID (createPin P0)
    /\ BlockHeight app = 100%Z
    /\ (pCode (proto ("metafile://" ++ PA)) <> "" ->
        exists item,
          GetDeployQueueItem db' (mPinID (createPin P0)) = Ok item
          /\ qCode item = pCode (proto ("metafile://" ++ PA))
          /\ qFirstPinId item = mPinID (createPin P0)
          /\ qTryCount item = 0%Z)
    /\ (pCode (proto ("metafile://" ++ PA)) = "" ->
        pContent (proto ("metafile://" ++ PA)) = "" ->
        metaapp_deploy_queue db' = metaapp_deploy_queue emptyDB).
Proof.
  apply (first_create_is_stored_and_queued env emptyDB (createPin P0) 100
           1700000000000 0 (proto ("metafile://" ++ PA))).
  - reflexivity.
  - reflexivity.
  - vm_compute. reflexivity.
  - vm_compute. reflexivity.
  - reflexivity.
Defined.

Lemma substring_all s : String.substring 0 (String.length s) s = s.
Proof. induction s as [|c s IH]; simpl; [reflexivity|by rewrite IH]. Qed.

Lemma HasPrefix_at parent : Strings.HasPrefix ("@" ++ parent) "@" = true.
Proof. unfold Strings.HasPrefix. destruct parent; reflexivity. Qed.

Lemma at_path_is_MetaApp_path parent :
  fst (isMetaAppPath ("@" ++ parent)) = true.
Proof.
  unfold isMetaAppPath.
  change (String.eqb ("@" ++ parent) "") with false. cbv iota.
  destruct (existsb _ ProtocolList); [reflexivity|].
  by rewrite HasPrefix_at.
Qed.

Lemma TrimPrefix_at parent : Strings.TrimPrefix ("@" ++ parent) "@" = parent.
Proof.
  unfold Strings.TrimPrefix. rewrite HasPrefix_at. simpl.
  rewrite Nat.sub_0_r. apply substring_all.
Qed.

(** X19.  A modify pin that points at a stored create becomes the latest
    version of that create's app: it is stored under its own pin id with
    the first pin id of the create, and the latest record of that first
    pin id is the modify. *)
Theorem modify_becomes_latest_of_its_root (E : IndexerEnv) (db : PebbleDatabase)
    (metaData : MetaIDData) (height timestamp : Z) (now : Time)
    (parent : string) (root : MetaApp) (metaAppProto : MetaAppProto) :
  metaapp_pin db !! mPinID metaData = None ->
  mOperation metaData = "modify" ->
  mPath metaData = "@" ++ parent ->
  parent <> "" ->
  metaapp_pin db !! parent = Some root ->
  Operation root = "create" ->
  FirstPinId root <> "" ->
  json_Unmarshal E (mContent metaData) = Some metaAppProto ->
  exists db' app,
    handleMetaIDData E db metaData height timestamp now = Some db'
    /\ GetMetaAppByPinID db' (mPinID metaData) = Ok app
    /\ GetLatestMetaAppByFirstPinID db' (FirstPinId root) = Ok app
    /\ PinID app = mPinID metaData
    /\ FirstPinId app = FirstPinId root
    /\ Operation app = "modify"
    /\ In app (Queries.GetMetaAppHistoryByFirstPinID db' (FirstPinId root)).
Proof.
  intros Hfresh Hop Hpath Hparent Hroot Hcreate Hfirst Hjson.
  assert (Hresolve : extractFirstPinIDFromOriginalPath db (mPath metaData)
                     = Some (Ok (FirstPinId root))).
  { unfold extractFirstPinIDFromOriginalPath. rewrite Hpath.
    change (String.eqb ("@" ++ parent) "") with false.
    rewrite HasPrefix_at, TrimPrefix_at.
    destruct (String.eqb_spec parent "") as [|_]; [contradiction|].
    unfold findFirstPinID. simpl.
    rewrite bool_decide_eq_false_2 by set_solver.
    unfold GetMetaAppByPinID. rewrite Hroot, Hcreate. simpl.
    destruct (String.eqb_spec (FirstPinId root) "") as [|_]; [contradiction|].
    reflexivity. }
  unfold handleMetaIDData.
  pose proof (at_path_is_MetaApp_path parent) as HmetaApp.
  rewrite <- Hpath in HmetaApp.
  destruct (isMetaAppPath (mPath metaData)) as [isMetaApp isPathPinID].
  simpl in HmetaApp. subst isMetaApp. simpl.
  unfold GetMetaAppByPinID at 1. rewrite Hfresh, Hop, Hresolve.
  assert (Hnonempty : String.eqb (mPath metaData) "" = false)
    by (rewrite Hpath; reflexivity).
  rewrite Hnonempty. simpl.
  destruct (String.eqb_spec (FirstPinId root) "") as [|_]; [contradiction|]. simpl.
  unfold processMetaAppModify. rewrite Hjson.
  set (built := buildMetaApp E metaData metaAppProto (FirstPinId root)
                  height timestamp now).
  destruct (CreateMetaApp db built) as [db1 app] eqn:Hwrite.
  assert (Hdb1 : db1 = fst (CreateMetaApp db built)) by by rewrite Hwrite.
  assert (Hwritten : written built = built).
  { unfold written. simpl.
    destruct (String.eqb_spec (FirstPinId root) "") as [|_]; [contradiction|].
    reflexivity. }
  assert (Happ : app = built).
  { rewrite <- Hwritten, <- (CreateMetaApp_snd db built). by rewrite Hwrite. }
  destruct (addToDeployQueue_pin db1 app now) as (Hp & Hl & Hh).
  exists (addToDeployQueue db1 app now), app. simpl.
  split; [reflexivity|].
  split.
  { unfold GetMetaAppByPinID. rewrite Hp, Hdb1, CreateMetaApp_pin, Hwritten, Happ.
    simpl. by rewrite lookup_insert_eq. }
  split.
  { unfold GetLatestMetaAppByFirstPinID.
    rewrite Hl, Hdb1, CreateMetaApp_latest, Hwritten, Happ. simpl.
    by rewrite lookup_insert_eq. }
  split; [by rewrite Happ|]. split; [by rewrite Happ|].
  split; [by rewrite Happ|].
  unfold Queries.GetMetaAppHistoryByFirstPinID.
  rewrite Hh, Hdb1, CreateMetaApp_history, Hwritten. simpl.
  unfold addToHistory. rewrite lookup_insert_eq.
  apply In_sortByTimestampDesc, in_or_app. right. left. by rewrite Happ.
Qed.

Lemma modify_becomes_latest_of_its_root_witness :
  exists db' app,
    handleMetaIDData env (ingested ("metafile://" ++ PA)) (modifyPin P1 P0)
      110 1700000600000 9 = Some db'
    /\ GetMetaAppByPinID db' (mPinID (modifyPin P1 P0)) = Ok app
    /\ GetLatestMetaAppByFirstPinID db'
         (FirstPinId (storedApp ("metafile://" ++ PA))) = Ok app
    /\ PinID app = mPinID (modifyPin P1 P0)
    /\ FirstPinId app = FirstPinId (storedApp ("metafile://" ++ PA))
    /\ Operation app = "modify"
    /\ In app (Queries.GetMetaAppHistoryByFirstPinID db'
                 (FirstPinId (storedApp ("metafile://" ++ PA)))).
Proof.
  apply (modify_becomes_latest_of_its_root env (ingested ("metafile://" ++ PA))
           (modifyPin P1 P0) 110 1700000600000 9 P0
           (storedApp ("metafile://" ++ PA)) (proto ("metafile://" ++ PA))).
  - vm_compute. reflexivity.
  - reflexivity.
  - reflexivity.
  - discriminate.
  - vm_compute. reflexivity.
  - vm_compute. reflexivity.
  - vm_compute. discriminate.
  - vm_compute. reflexivity.
Defined.

(** ** Transaction hashes from hexadecimal text *)

Lemma decode_encode_byte (b : byte) :
  match HexDecode.fromHexChar (Hex.digit (Byte.to_N b / 16)),
        HexDecode.fromHexChar (Hex.digit (Byte.to_N b mod 16)) with
  | Some hi, Some lo => Byte.of_N (hi * 16 + lo)
  | _, _ => None
  end = Some b.
Proof. destruct b; vm_compute; reflexivity. Qed.

Lemma DecodeString_EncodeToString (bs : list byte) :
  HexDecode.DecodeString (Hex.EncodeToString bs) = Some bs.
Proof.
  induction bs as [|b bs IH]; [reflexivity|].
  cbn [Hex.EncodeToString HexDecode.DecodeString]. rewrite IH.
  pose proof (decode_encode_byte b) as Hb.
  destruct (HexDecode.fromHexChar (Hex.digit (Byte.to_N b / 16))) as [hi|];
    [|discriminate].
  destruct (HexDecode.fromHexChar (Hex.digit (Byte.to_N b mod 16))) as [lo|];
    [|discriminate].
  by rewrite Hb.
Qed.

Lemma DecodeString_odd : forall n s,
  (String.length s <= n)%nat -> Nat.odd (String.length s) = true ->
  HexDecode.DecodeString s = None.
Proof.
  induction n as [n IH] using lt_wf_ind. intros s Hlen Hodd.
  destruct s as [|a [|b r]]; [discriminate|reflexivity|].
  cbn [HexDecode.DecodeString].
  rewrite (IH (String.length r)); simpl in *; try lia.
  - by destruct (HexDecode.fromHexChar a), (HexDecode.fromHexChar b).
  - rewrite <- Hodd. reflexivity.
Qed.

(** X20.  The hash computed from the hexadecimal form of a transaction is
    the hash of its bytes: [GetMvcTxhashFromRaw] on what
    [hex.EncodeToString] yields agrees with [GetMvcTxhash]; and a text of
    odd length, which is not the hexadecimal form of anything, gives the
    empty string. *)
Theorem GetMvcTxhashFromRaw_of_hex (sha256_Sum256 : list byte -> list byte)
    (Deserialize : list byte -> option Wire.MsgTx) :
  (forall rawTxByte,
     RawTx.GetMvcTxhashFromRaw sha256_Sum256 Deserialize
       (Hex.EncodeToString rawTxByte)
     = GetMvcTxhash sha256_Sum256 Deserialize rawTxByte)
  /\ (forall rawTx, Nat.odd (String.length rawTx) = true ->
        RawTx.GetMvcTxhashFromRaw sha256_Sum256 Deserialize rawTx = "").
Proof.
  split.
  - intros rawTxByte. unfold RawTx.GetMvcTxhashFromRaw.
    by rewrite DecodeString_EncodeToString.
  - intros rawTx Hodd. unfold RawTx.GetMvcTxhashFromRaw.
    by rewrite (DecodeString_odd (String.length rawTx)).
Qed.

(** X21.  All version-10 transactions that cannot be deserialised get one
    and the same hash, the display hash of the empty byte string: the
    failure of [GetTxNewhash] is not told apart from an empty pre-image. *)
Theorem undecodable_transactions_share_one_hash
    (sha256_Sum256 : list byte -> list byte)
    (Deserialize : list byte -> option Wire.MsgTx) (rawTxByte : list byte) :
  (4 <= length rawTxByte)%nat ->
  (10 <= Uint32 (take 4 rawTxByte))%Z ->
  Deserialize rawTxByte = None ->
  GetMvcTxhash sha256_Sum256 Deserialize rawTxByte
  = displayHash sha256_Sum256 [].
Proof.
  intros Hlen Hversion Hfail. unfold GetMvcTxhash, displayHash.
  destruct (Nat.eqb_spec (length rawTxByte) 0) as [|_]; [lia|].
  destruct (Nat.ltb_spec (length rawTxByte) 4) as [|_]; [lia|].
  destruct (Z.leb_spec 10 (Uint32 (take 4 rawTxByte))) as [_|]; [|lia].
  unfold GetTxNewhash. rewrite Hfail.
  unfold tool_DoubleSHA256. by rewrite swapLoop_reverse.
Qed.

Lemma undecodable_transactions_share_one_hash_witness :
  GetMvcTxhash digest WireFormat.Deserialize [x0a; x00; x00; x00; x01]
  = displayHash digest [].
Proof.
  apply (undecodable_transactions_share_one_hash digest WireFormat.Deserialize
           [x0a; x00; x00; x00; x01]).
  - simpl. lia.
  - vm_compute. discriminate.
  - vm_compute. reflexivity.
Defined.

(** ** The transaction builder *)

Lemma payloadLoop_chunks (content : list byte) : forall fuel i builder,
  (length content - i <= fuel)%nat ->
  exists chunks,
    TxBuilder.payloadLoop fuel i content builder
    = (builder ++ map TxBuilder.AddFullData chunks)%list
    /\ concat chunks = drop i content
    /\ Forall (fun c => (0 < length c <= TxBuilder.maxChunkSize)%nat) chunks
    /\ length chunks
       = ((length content - i + (TxBuilder.maxChunkSize - 1))
          / TxBuilder.maxChunkSize)%nat.
Proof.
  unfold TxBuilder.maxChunkSize.
  induction fuel as [|fuel IH]; intros i builder Hfuel.
  - exists []. cbn [TxBuilder.payloadLoop map concat length].
    rewrite app_nil_r, drop_ge by lia.
    repeat split; [constructor|].
    replace (length content - i)%nat with 0%nat by lia.
    symmetry. apply Nat.div_small. lia.
  - cbn [TxBuilder.payloadLoop]. unfold TxBuilder.maxChunkSize.
    destruct (Nat.ltb_spec i (length content)) as [Hlt|Hge].
    + set (end_ := if (length content <? i + 520)%nat
                   then length content else (i + 520)%nat).
      set (c := take (end_ - i) (drop i content)).
      destruct (IH (i + 520)%nat (builder ++ [TxBuilder.AddFullData c])%list)
        as (chunks & Hloop & Hconcat & Hall & Hcount); [lia|].
      exists (c :: chunks).
      assert (Hc : length c = Nat.min 520 (length content - i)).
      { subst c end_. rewrite length_take, length_drop.
        destruct (Nat.ltb_spec (length content) (i + 520)); lia. }
      split; [by rewrite Hloop, <- app_assoc|].
      split.
      { simpl. rewrite Hconcat. subst c end_.
        destruct (Nat.ltb_spec (length content) (i + 520)) as [Hshort|Hlong].
        - rewrite take_ge by (rewrite length_drop; lia).
          rewrite (drop_ge content (i + 520)) by lia. apply app_nil_r.
        - replace (i + 520 - i)%nat with 520%nat by lia.
          rewrite <- (drop_drop content 520 i). apply take_drop. }
      split; [constructor; [lia|exact Hall]|].
      cbn [length]. rewrite Hcount.
      destruct (Nat.ltb_spec (length content) (i + 520)) as [Hshort|Hlong].
      * rewrite (Nat.div_small (length content - (i + 520) + (520 - 1))) by lia.
        apply Nat.div_unique with (r := (length content - i - 1)%nat); lia.
      * replace (length content - i + (520 - 1))%nat
          with ((length content - (i + 520) + (520 - 1)) + 1 * 520)%nat by lia.
        rewrite Nat.div_add by lia. lia.
    + exists []. cbn [map concat length].
      rewrite app_nil_r, drop_ge by lia.
      repeat split; [constructor|].
      replace (length content - i)%nat with 0%nat by lia.
      symmetry. apply Nat.div_small. lia.
Qed.

(** X22.  The payload is handed to the inscription script whole, in
    order, and in pieces the script format admits: after the eight leading
    items the builder holds one push per piece, the pieces put together
    are the content, none is empty or longer than 520 bytes, and there
    are as many as the length of the content divided by 520, rounded
    up. *)
Theorem inscription_payload_is_the_content (operation path : string)
    (content : list byte) :
  exists header chunks,
    TxBuilder.inscriptionItems operation path content
    = (header ++ map TxBuilder.AddFullData chunks)%list
    /\ header
       = [TxBuilder.AddOp TxBuilder.OP_0; TxBuilder.AddOp TxBuilder.OP_RETURN;
          TxBuilder.AddData (list_byte_of_string "metaid");
          TxBuilder.AddData
            (list_byte_of_string
               (if String.eqb operation "" then "create" else operation));
          TxBuilder.AddData (list_byte_of_string path);
          TxBuilder.AddData (list_byte_of_string "0");
          TxBuilder.AddData (list_byte_of_string "0.0.1");
          TxBuilder.AddData (list_byte_of_string "application/json")]
    /\ concat chunks = content
    /\ Forall (fun c => (0 < length c <= 520)%nat) chunks
    /\ length chunks = ((length content + 519) / 520)%nat.
Proof.
  unfold TxBuilder.inscriptionItems. cbv zeta.
  match goal with
  | |- context [TxBuilder.payloadLoop _ 0 content ?b] =>
      destruct (payloadLoop_chunks content (length content) 0 b)
        as (chunks & Hloop & Hconcat & Hall & Hcount); [lia|]
  end.
  eexists _, chunks. split; [exact Hloop|].
  split; [reflexivity|]. split; [exact Hconcat|]. split; [exact Hall|].
  rewrite Hcount. unfold TxBuilder.maxChunkSize. f_equal. lia.
Qed.

Section Builder.
Variable L : TxBuilder.TxLib.

Lemma addOutputs_appends outs : forall txOut outAmount txOut' outAmount',
  TxBuilder.addOutputs L outs txOut outAmount = Ok (txOut', outAmount') ->
  exists pay,
    txOut' = (txOut ++ pay)%list
    /\ map Wire.Value pay = map TxBuilder.oAmount outs.
Proof.
  induction outs as [|out rest IH]; intros txOut outAmount txOut' outAmount'; simpl.
  - intros [= <- <-]. exists []. by rewrite app_nil_r.
  - destruct (TxBuilder.DecodeAddress L _) as [addr|e]; [|discriminate].
    destruct (TxBuilder.PayToAddrScript L addr) as [pkScript|e]; [|discriminate].
    intros Hrest. apply IH in Hrest as (pay & -> & Hvalues).
    exists (Wire.mkTxOut (TxBuilder.oAmount out) pkScript :: pay).
    split; [by rewrite <- app_assoc|]. simpl. by rewrite Hvalues.
Qed.

Lemma addInputs_length ins : forall txIn totalAmount txIn' totalAmount',
  TxBuilder.addInputs L ins txIn totalAmount = Ok (txIn', totalAmount') ->
  length txIn' = (length txIn + length ins)%nat.
Proof.
  induction ins as [|in_ rest IH]; intros txIn totalAmount txIn' totalAmount'; simpl.
  - intros [= <- <-]. lia.
  - destruct (TxBuilder.NewHashFromStr L _) as [hash|e]; [|discriminate].
    intros Hrest. apply IH in Hrest. rewrite Hrest, length_app. simpl. lia.
Qed.

Lemma signInputs_keeps ins : forall i tx tx',
  TxBuilder.signInputs L ins i tx = Ok tx' ->
  Wire.TxOuts tx' = Wire.TxOuts tx
  /\ Wire.Version tx' = Wire.Version tx
  /\ length (Wire.TxIns tx') = length (Wire.TxIns tx).
Proof.
  induction ins as [|in_ rest IH]; intros i tx tx'; simpl.
  - by intros [= <-].
  - destruct (HexDecode.DecodeString (TxBuilder.uPriHex in_)); [|discriminate].
    destruct (HexDecode.DecodeString (TxBuilder.uPkScript in_)); [|discriminate].
    destruct (TxBuilder.SignatureScript L tx i _ _ _); [|discriminate].
    destruct (Wire.TxIns tx !! i); [|discriminate].
    intros Hrest. apply IH in Hrest as (Houts & Hversion & Hlen). simpl in *.
    by rewrite length_insert in Hlen.
Qed.

(** What [BuildMvcCommonMetaIdTx] has put together when it succeeds: the
    outputs before the fee is settled, and the transaction they end up
    in. *)
Lemma build_outputs ins outs otherOuts operation path content changeAddress
    feeRate isUnSign tx :
  TxBuilder.BuildMvcCommonMetaIdTx L ins outs otherOuts operation path content
    changeAddress feeRate isUnSign = Ok tx ->
  exists pay inscriptionScript otherPay changeScript changeVal,
    TxBuilder.Script L (TxBuilder.inscriptionItems operation path content)
    = Ok inscriptionScript
    /\ map Wire.Value pay = map TxBuilder.oAmount outs
    /\ map Wire.Value otherPay = map TxBuilder.oAmount otherOuts
    /\ Wire.Version tx = 10%Z
    /\ length (Wire.TxIns tx) = length ins
    /\ let requested :=
         (pay ++ [Wire.mkTxOut 0 inscriptionScript] ++ otherPay)%list in
       Wire.TxOuts tx
       = if String.eqb changeAddress "" then removelast requested
         else if (600 <=? changeVal)%Z
              then (requested ++ [Wire.mkTxOut changeVal changeScript])%list
              else requested.
Proof.
  unfold TxBuilder.BuildMvcCommonMetaIdTx. intros H.
  destruct (TxBuilder.addOutputs L outs [] 0) as [[txOut1 outAmount1]|e] eqn:Hpay;
    [|discriminate].
  apply addOutputs_appends in Hpay as (pay & -> & Hpayv). simpl in H.
  destruct (TxBuilder.Script L _) as [inscriptionScript|e] eqn:Hscript;
    [|discriminate].
  destruct (TxBuilder.addOutputs L otherOuts _ outAmount1)
    as [[txOut2 outAmount2]|e] eqn:Hother; [|discriminate].
  apply addOutputs_appends in Hother as (otherPay & -> & Hotherv).
  set (requested := (pay ++ [Wire.mkTxOut 0 inscriptionScript] ++ otherPay)%list).
  assert (Hreq : ((pay ++ [Wire.mkTxOut 0 inscriptionScript]) ++ otherPay)%list
                 = requested) by by rewrite <- app_assoc.
  rewrite Hreq in H.
  assert (Hfinish : forall txIn txOut tx0,
    (if negb isUnSign
     then TxBuilder.signInputs L ins 0 (Wire.mkMsgTx 10 txIn txOut 0)
     else Ok (Wire.mkMsgTx 10 txIn txOut 0)) = Ok tx0 ->
    Wire.TxOuts tx0 = txOut /\ Wire.Version tx0 = 10%Z
    /\ length (Wire.TxIns tx0) = length txIn).
  { intros txIn txOut tx0. destruct (negb isUnSign).
    - intros Hs. by apply signInputs_keeps in Hs.
    - by intros [= <-]. }
  destruct (String.eqb changeAddress "") eqn:Hchange; simpl in H.
  - destruct (TxBuilder.addInputs L ins [] 0) as [[txIn totalAmount]|e] eqn:Hins;
      [|discriminate].
    apply addInputs_length in Hins.
    destruct (_ <? _)%Z; [discriminate|].
    rewrite andb_false_r in H.
    apply Hfinish in H as (Houts & Hversion & Hlen).
    exists pay, inscriptionScript, otherPay, [], 0%Z.
    repeat split; try done. by rewrite Hlen, Hins.
  - destruct (TxBuilder.DecodeAddress L changeAddress) as [addr|e]; [|discriminate].
    set (pkScriptByte := match TxBuilder.PayToAddrScript L addr with
                         | Ok s => s
                         | Err _ => []
                         end) in *.
    destruct (TxBuilder.addInputs L ins [] 0) as [[txIn totalAmount]|e] eqn:Hins;
      [|discriminate].
    apply addInputs_length in Hins.
    destruct (_ <? _)%Z; [discriminate|].
    rewrite andb_true_r in H.
    match type of H with
    | context [(600 <=? ?v)%Z] =>
        exists pay, inscriptionScript, otherPay, pkScriptByte, v;
        destruct (600 <=? v)%Z
    end;
      apply Hfinish in H as (Houts & Hversion & Hlen);
      repeat split; try done; try (by rewrite Hlen, Hins).
    + rewrite Houts. unfold TxBuilder.setLastValue.
      by rewrite last_snoc, removelast_last.
    + rewrite Houts. by rewrite removelast_last.
Qed.

End Builder.

(** X23.  With a change address, a transaction that is built carries the
    requested outputs, then the inscription output of value 0 with the
    script of the inscription items, then the other outputs, and after
    them at most one output, the change, which is there only with a value
    of at least 600; it has version 10 and one input per UTXO given. *)
Theorem built_outputs_with_change_address (L : TxBuilder.TxLib)
    (ins : list TxBuilder.TxInputUtxo) (outs otherOuts : list TxBuilder.TxOutput)
    (operation path : string) (content : list byte) (changeAddress : string)
    (feeRate : Z) (isUnSign : bool) (tx : Wire.MsgTx) :
  changeAddress <> "" ->
  TxBuilder.BuildMvcCommonMetaIdTx L ins outs otherOuts operation path content
    changeAddress feeRate isUnSign = Ok tx ->
  exists pay inscriptionScript otherPay change,
    Wire.TxOuts tx
    = (pay ++ [Wire.mkTxOut 0 inscriptionScript] ++ otherPay ++ change)%list
    /\ TxBuilder.Script L (TxBuilder.inscriptionItems operation path content)
       = Ok inscriptionScript
    /\ map Wire.Value pay = map TxBuilder.oAmount outs
    /\ map Wire.Value otherPay = map TxBuilder.oAmount otherOuts
    /\ (change = []
        \/ exists changeVal changeScript,
             change = [Wire.mkTxOut changeVal changeScript]
             /\ (600 <= changeVal)%Z)
    /\ Wire.Version tx = 10%Z
    /\ length (Wire.TxIns tx) = length ins.
Proof.
  intros Hchange Hbuild.
  apply build_outputs in Hbuild
    as (pay & inscriptionScript & otherPay & changeScript & changeVal
        & Hscript & Hpay & Hother & Hversion & Hins & Houts).
  cbv zeta in Houts.
  destruct (String.eqb_spec changeAddress "") as [|_]; [contradiction|].
  exists pay, inscriptionScript, otherPay.
  destruct (Z.leb_spec 600 changeVal) as [Hbig|Hsmall].
  - exists [Wire.mkTxOut changeVal changeScript].
    repeat split; try done.
    + by rewrite Houts, <- !app_assoc.
    + right. by exists changeVal, changeScript.
  - exists []. repeat split; try done.
    + by rewrite Houts, app_nil_r.
    + by left.
Qed.

(** X24.  Without a change address the last requested output is cut off:
    a transaction that is built carries the requested outputs, the
    inscription output and the other outputs without the last of them, so
    that with no other outputs the inscription output itself is
    missing. *)
Theorem built_outputs_without_change_address (L : TxBuilder.TxLib)
    (ins : list TxBuilder.TxInputUtxo) (outs otherOuts : list TxBuilder.TxOutput)
    (operation path : string) (content : list byte)
    (feeRate : Z) (isUnSign : bool) (tx : Wire.MsgTx) :
  TxBuilder.BuildMvcCommonMetaIdTx L ins outs otherOuts operation path content
    "" feeRate isUnSign = Ok tx ->
  exists pay inscriptionScript otherPay,
    Wire.TxOuts tx
    = removelast (pay ++ [Wire.mkTxOut 0 inscriptionScript] ++ otherPay)%list
    /\ map Wire.Value pay = map TxBuilder.oAmount outs
    /\ map Wire.Value otherPay = map TxBuilder.oAmount otherOuts
    /\ length (Wire.TxOuts tx) = (length outs + length otherOuts)%nat
    /\ (otherOuts = [] -> Wire.TxOuts tx = pay).
Proof.
  intros Hbuild.
  apply build_outputs in Hbuild
    as (pay & inscriptionScript & otherPay & changeScript & changeVal
        & Hscript & Hpay & Hother & Hversion & Hins & Houts).
  cbv zeta in Houts. change (String.eqb "" "") with true in Houts.
  cbv iota in Houts.
  exists pay, inscriptionScript, otherPay.
  assert (Hlp : length pay = length outs)
    by (rewrite <- (length_map Wire.Value pay), Hpay; apply length_map).
  assert (Hlo : length otherPay = length otherOuts)
    by (rewrite <- (length_map Wire.Value otherPay), Hother; apply length_map).
  repeat split; try done.
  - rewrite Houts.
    destruct (exists_last
                (l := (pay ++ [Wire.mkTxOut 0 inscriptionScript] ++ otherPay)%list))
      as (front & x & Hfront).
    { by destruct pay. }
    rewrite Hfront, removelast_last.
    apply (f_equal (@length _)) in Hfront.
    rewrite !length_app in Hfront. simpl in Hfront. lia.
  - intros ->. destruct otherPay; [|discriminate].
    rewrite Houts. simpl. change [Wire.mkTxOut 0 inscriptionScript]
      with ([] ++ [Wire.mkTxOut 0 inscriptionScript])%list.
    by rewrite app_assoc, removelast_last, app_nil_r.
Qed.

Lemma built_outputs_with_change_address_witness :
  exists pay inscriptionScript otherPay change,
    Wire.TxOuts (Examples.built "1change")
    = (pay ++ [Wire.mkTxOut 0 inscriptionScript] ++ otherPay ++ change)%list
    /\ TxBuilder.Script Examples.txLib
         (TxBuilder.inscriptionItems "" "/protocols/metaapp"
            (list_byte_of_string "{}"))
       = Ok inscriptionScript
    /\ map Wire.Value pay = map TxBuilder.oAmount [TxBuilder.mkTxOutput "1alice" 1000]
    /\ map Wire.Value otherPay = map TxBuilder.oAmount []
    /\ (change = []
        \/ exists changeVal changeScript,
             change = [Wire.mkTxOut changeVal changeScript]
             /\ (600 <= changeVal)%Z)
    /\ Wire.Version (Examples.built "1change") = 10%Z
    /\ length (Wire.TxIns (Examples.built "1change")) = length [Examples.utxo].
Proof.
  apply (built_outputs_with_change_address Examples.txLib [Examples.utxo]
           [TxBuilder.mkTxOutput "1alice" 1000] [] "" "/protocols/metaapp"
           (list_byte_of_string "{}") "1change" 1 true).
  - discriminate.
  - vm_compute. reflexivity.
Defined.

Lemma built_outputs_without_change_address_witness :
  exists pay inscriptionScript otherPay,
    Wire.TxOuts (Examples.built "")
    = removelast (pay ++ [Wire.mkTxOut 0 inscriptionScript] ++ otherPay)%list
    /\ map Wire.Value pay = map TxBuilder.oAmount [TxBuilder.mkTxOutput "1alice" 1000]
    /\ map Wire.Value otherPay = map TxBuilder.oAmount []
    /\ length (Wire.TxOuts (Examples.built "")) = (length [TxBuilder.mkTxOutput "1alice" 1000] + length (@nil TxBuilder.TxOutput))%nat
    /\ (@nil TxBuilder.TxOutput = [] -> Wire.TxOuts (Examples.built "") = pay).
Proof.
  apply (built_outputs_without_change_address Examples.txLib [Examples.utxo]
           [TxBuilder.mkTxOutput "1alice" 1000] [] "" "/protocols/metaapp"
           (list_byte_of_string "{}") 1 true).
  vm_compute. reflexivity.
Defined.

(** ** The sync status and the block scanner *)

Section KVGet.
Context {V : Type}.

Lemma Get_Set_ne k k' (v : V) db :
  k' <> k -> KV.Get k' (KV.Set_ k v db) = KV.Get k' db.
Proof.
  intros Hne. induction db as [|[k0 v0] rest IH]; simpl.
  - destruct (String.eqb_spec k' k); [contradiction|reflexivity].
  - destruct (String.compare k k0) eqn:Hcmp; simpl.
    + apply compare_Eq_eq in Hcmp. subst k0.
      destruct (String.eqb_spec k' k); [contradiction|reflexivity].
    + destruct (String.eqb_spec k' k); [contradiction|reflexivity].
    + by rewrite IH.
Qed.
End KVGet.

(** X25.  Initialising the sync status never overwrites progress: for a
    chain that has a status the store stays as it is; for a chain that has
    none, the status read back afterwards has the height before the start
    height (0 when the start height is not positive) and the next free
    id, and the status of every other chain reads as before. *)
Theorem initializeSyncStatus_keeps_progress (st : SyncStatus.Store)
    (chainName : string) (startHeight : Z) :
  (startHeight <= Int64.MaxInt64)%Z ->
  match SyncStatus.GetIndexerSyncStatusByChainName st chainName with
  | Ok _ => SyncStatus.initializeSyncStatus st chainName startHeight = st
  | Err _ =>
      let st' := SyncStatus.initializeSyncStatus st chainName startHeight in
      (exists status,
         SyncStatus.GetIndexerSyncStatusByChainName st' chainName = Ok status
         /\ SyncStatus.ChainName status = chainName
         /\ SyncStatus.CurrentSyncHeight status = Z.max (startHeight - 1) 0
         /\ SyncStatus.ID status = Int64.add (SyncStatus.statusIDCounter st) 1
         /\ SyncStatus.statusIDCounter st' = SyncStatus.ID status)
      /\ (forall other, other <> chainName ->
            SyncStatus.GetIndexerSyncStatusByChainName st' other
            = SyncStatus.GetIndexerSyncStatusByChainName st other)
  end.
Proof.
  intros Hrange. unfold Int64.MaxInt64 in Hrange.
  unfold SyncStatus.initializeSyncStatus, SyncStatus.GetByChainName,
    SyncStatus.GetIndexerSyncStatusByChainName.
  destruct (KV.Get chainName (SyncStatus.sync_status st)) as [existing|] eqn:Hget;
    [reflexivity|].
  change (String.eqb ErrNotFound ErrNotFound) with true. cbv iota zeta.
  unfold SyncStatus.CreateOrUpdateIndexerSyncStatus. simpl.
  split.
  - eexists. rewrite Get_Set_eq. split; [reflexivity|]. simpl.
    repeat split.
    destruct (Z.ltb_spec 0 startHeight).
    + unfold Int64.sub. rewrite wrap_small by lia. lia.
    + lia.
  - intros other Hother. by rewrite Get_Set_ne.
Qed.

Lemma initializeSyncStatus_keeps_progress_witness :
  let st' := SyncStatus.initializeSyncStatus SyncStatus.emptyStore "mvc" 86500 in
  (exists status,
     SyncStatus.GetIndexerSyncStatusByChainName st' "mvc" = Ok status
     /\ SyncStatus.ChainName status = "mvc"
     /\ SyncStatus.CurrentSyncHeight status = Z.max (86500 - 1) 0
     /\ SyncStatus.ID status
        = Int64.add (SyncStatus.statusIDCounter SyncStatus.emptyStore) 1
     /\ SyncStatus.statusIDCounter st' = SyncStatus.ID status)
  /\ (forall other, other <> "mvc" ->
        SyncStatus.GetIndexerSyncStatusByChainName st' other
        = SyncStatus.GetIndexerSyncStatusByChainName SyncStatus.emptyStore other).
Proof.
  apply (initializeSyncStatus_keeps_progress SyncStatus.emptyStore "mvc" 86500).
  vm_compute. discriminate.
Defined.

Lemma handleMetaIDData_total E db metaData height timestamp now :
  exists db', handleMetaIDData E db metaData height timestamp now = Some db'.
Proof.
  unfold handleMetaIDData.
  destruct (isMetaAppPath (mPath metaData)) as [isMetaApp isPathPinID].
  destruct (negb isMetaApp); [eauto|].
  destruct (GetMetaAppByPinID db (mPinID metaData)) as [existingApp|notFound].
  - destruct (_ && _); eauto.
  - destruct (_ && _).
    + destruct (extractFirstPinIDFromOriginalPath db (mPath metaData))
        as [[firstPinID|msg]|] eqn:Hextract.
      * destruct (negb _); eauto.
      * eauto.
      * exfalso. unfold extractFirstPinIDFromOriginalPath in Hextract.
        destruct (String.eqb (mPath metaData) ""); [discriminate|].
        destruct (String.eqb _ ""); [discriminate|].
        by apply findFirstPinID_total in Hextract.
    + destruct (_ && _); eauto.
Qed.

Lemma handleTransaction_total E pins : forall db height timestamp now,
  exists db', handleTransaction E db pins height timestamp now = Some db'.
Proof.
  induction pins as [|metaData rest IH]; intros db height timestamp now; simpl;
    [eauto|].
  destruct (handleMetaIDData_total E db metaData height timestamp now) as [db1 ->].
  apply IH.
Qed.

Lemma scanTransactions_total E transactions : forall db height timestamp now,
  exists db', Scanner.scanTransactions E db transactions height timestamp now
              = Some db'.
Proof.
  induction transactions as [|pins rest IH]; intros db height timestamp now; simpl;
    [eauto|].
  destruct (handleTransaction_total E pins db height timestamp now) as [db1 ->].
  apply IH.
Qed.

Lemma onBlockComplete_height st chainName height status :
  SyncStatus.GetIndexerSyncStatusByChainName st chainName = Ok status ->
  SyncStatus.ChainName status = chainName ->
  exists status',
    SyncStatus.GetIndexerSyncStatusByChainName
      (fst (SyncStatus.onBlockComplete st chainName height)) chainName = Ok status'
    /\ SyncStatus.ChainName status' = chainName
    /\ SyncStatus.CurrentSyncHeight status' = height.
Proof.
  intros Hget Hname.
  unfold SyncStatus.onBlockComplete, SyncStatus.UpdateIndexerSyncStatusHeight.
  rewrite Hget. unfold SyncStatus.CreateOrUpdateIndexerSyncStatus. simpl.
  unfold SyncStatus.GetIndexerSyncStatusByChainName.
  destruct (SyncStatus.ID status =? 0)%Z; simpl; rewrite Hname, Get_Set_eq;
    eexists; (split; [reflexivity|]); simpl; by split.
Qed.


(** The stored height follows the scan: it is the height before the one
    the loop is at. *)
Lemma catchUp_invariant E chainName attempts : forall db st currentHeight latestHeight status,
  SyncStatus.GetIndexerSyncStatusByChainName st chainName = Ok status ->
  SyncStatus.ChainName status = chainName ->
  SyncStatus.CurrentSyncHeight status = (currentHeight - 1)%Z ->
  (0 <= currentHeight)%Z -> (latestHeight < Int64.MaxInt64)%Z ->
  exists db' st' height' status',
    Scanner.catchUp E chainName attempts db st currentHeight latestHeight
    = Some (db', st', height')
    /\ SyncStatus.GetIndexerSyncStatusByChainName st' chainName = Ok status'
    /\ SyncStatus.ChainName status' = chainName
    /\ SyncStatus.CurrentSyncHeight status' = (height' - 1)%Z
    /\ (currentHeight <= height' <= Z.max currentHeight (latestHeight + 1))%Z
    /\ (height' - currentHeight <= Z.of_nat (Scanner.scannedBlocks attempts))%Z.
Proof.
  unfold Int64.MaxInt64.
  induction attempts as [|attempt rest IH];
    intros db st currentHeight latestHeight status Hget Hname Hheight Hpos Hlatest.
  - exists db, st, currentHeight, status. simpl. repeat split; try done; lia.
  - cbn [Scanner.catchUp].
    destruct (Z.ltb_spec latestHeight currentHeight) as [Hdone|Hmore].
    + exists db, st, currentHeight, status. repeat split; try done; lia.
    + destruct attempt as [|timestamp transactions now].
      * destruct (IH db st currentHeight latestHeight status)
          as (db' & st' & height' & status' & Hrun & Hget' & Hname' & Hh' & Hbounds & Hcount);
          try done.
        exists db', st', height', status'. repeat split; try done; lia.
      * destruct (scanTransactions_total E transactions db currentHeight timestamp now)
          as [db1 ->].
        destruct (onBlockComplete_height st chainName currentHeight status Hget Hname)
          as (status1 & Hget1 & Hname1 & Hheight1).
        assert (Hnext : Int64.add currentHeight 1 = (currentHeight + 1)%Z)
          by (unfold Int64.add; apply wrap_small; lia).
        rewrite Hnext.
        destruct (IH db1 (fst (SyncStatus.onBlockComplete st chainName currentHeight))
                    (currentHeight + 1)%Z latestHeight status1)
          as (db' & st' & height' & status' & Hrun & Hget' & Hname' & Hh' & Hbounds & Hcount);
          try done; try lia.
        exists db', st', height', status'. repeat split; try done; try lia.
        unfold Scanner.scannedBlocks in *. cbn [List.filter length]. lia.
Qed.

(** X26.  The stored sync height follows the scan block by block: when
    the catching-up loop starts at a height whose predecessor is the
    stored height of the chain, then, however many calls of [ScanBlock]
    fail, the loop never stops with an error, the stored height is always
    the height before the one the loop is at, the loop is never beyond the
    block after the latest one, and it has moved on by no more heights
    than blocks were scanned. *)
Theorem catchUp_records_last_completed_block (E : IndexerEnv) (chainName : string)
    (attempts : list Scanner.ScanResult) (db : PebbleDatabase)
    (st : SyncStatus.Store) (currentHeight latestHeight : Z)
    (status : SyncStatus.IndexerSyncStatus) :
  SyncStatus.GetIndexerSyncStatusByChainName st chainName = Ok status ->
  SyncStatus.ChainName status = chainName ->
  SyncStatus.CurrentSyncHeight status = (currentHeight - 1)%Z ->
  (0 <= currentHeight)%Z -> (latestHeight < Int64.MaxInt64)%Z ->
  exists db' st' height' status',
    Scanner.catchUp E chainName attempts db st currentHeight latestHeight
    = Some (db', st', height')
    /\ SyncStatus.GetIndexerSyncStatusByChainName st' chainName = Ok status'
    /\ SyncStatus.CurrentSyncHeight status' = (height' - 1)%Z
    /\ (currentHeight <= height' <= Z.max currentHeight (latestHeight + 1))%Z
    /\ (height' - currentHeight <= Z.of_nat (Scanner.scannedBlocks attempts))%Z.
Proof.
  intros Hget Hname Hheight Hpos Hlatest.
  destruct (catchUp_invariant E chainName attempts db st currentHeight
              latestHeight status Hget Hname Hheight Hpos Hlatest)
    as (db' & st' & height' & status' & Hrun & Hget' & _ & Hh' & Hbounds & Hcount).
  by exists db', st', height', status'.
Qed.

Lemma catchUp_records_last_completed_block_witness :
  exists db' st' height' status',
    Scanner.catchUp env "mvc" Examples.attempts emptyDB Examples.syncStore 100 101
    = Some (db', st', height')
    /\ SyncStatus.GetIndexerSyncStatusByChainName st' "mvc" = Ok status'
    /\ SyncStatus.CurrentSyncHeight status' = (height' - 1)%Z
    /\ (100 <= height' <= Z.max 100 (101 + 1))%Z
    /\ (height' - 100 <= Z.of_nat (Scanner.scannedBlocks Examples.attempts))%Z.
Proof.
  apply (catchUp_records_last_completed_block env "mvc" Examples.attempts emptyDB
           Examples.syncStore 100 101
           (SyncStatus.mkIndexerSyncStatus 1 "mvc" 99 0 0)).
  - vm_compute. reflexivity.
  - reflexivity.
  - reflexivity.
  - lia.
  - vm_compute. reflexivity.
Defined.

(** X27.  A restart skips no block: after the catching-up loop has
    stopped at some height, the start height computed from the stored
    status is not beyond that height, and it is exactly that height once
    the stored height exceeds the configured start height. *)
Theorem restart_skips_no_block (E : IndexerEnv) (chainName : string)
    (attempts : list Scanner.ScanResult) (db : PebbleDatabase)
    (st : SyncStatus.Store) (currentHeight latestHeight : Z)
    (status : SyncStatus.IndexerSyncStatus) (cfgStartHeight cfgChainInitHeight : Z) :
  SyncStatus.GetIndexerSyncStatusByChainName st chainName = Ok status ->
  SyncStatus.ChainName status = chainName ->
  SyncStatus.CurrentSyncHeight status = (currentHeight - 1)%Z ->
  (latestHeight < Int64.MaxInt64)%Z ->
  let configStartHeight :=
    if (cfgStartHeight =? 0)%Z then cfgChainInitHeight else cfgStartHeight in
  (0 <= configStartHeight <= currentHeight)%Z ->
  (currentHeight <= Int64.MaxInt64)%Z ->
  exists db' st' height',
    Scanner.catchUp E chainName attempts db st currentHeight latestHeight
    = Some (db', st', height')
    /\ (SyncStatus.startHeight st' chainName cfgStartHeight cfgChainInitHeight
        <= height')%Z
    /\ ((configStartHeight < height' - 1)%Z ->
        SyncStatus.startHeight st' chainName cfgStartHeight cfgChainInitHeight
        = height').
Proof.
  intros Hget Hname Hheight Hlatest configStartHeight Hconfig Hint64.
  unfold Int64.MaxInt64 in Hint64.
  destruct (catchUp_invariant E chainName attempts db st currentHeight
              latestHeight status Hget Hname Hheight ltac:(lia) Hlatest)
    as (db' & st' & height' & status' & Hrun & Hget' & _ & Hh' & Hbounds & _).
  exists db', st', height'. split; [exact Hrun|].
  unfold SyncStatus.startHeight, SyncStatus.GetByChainName.
  rewrite Hget', Hh'. fold configStartHeight.
  unfold Int64.MaxInt64 in Hlatest.
  destruct (Z.ltb_spec 0 (height' - 1)) as [Hscanned|Hnone].
  - destruct (Z.ltb_spec configStartHeight (height' - 1)) as [Hahead|Hbehind].
    + unfold Int64.add. rewrite wrap_small by lia. lia.
    + destruct (Z.ltb_spec 0 configStartHeight); lia.
  - destruct (Z.ltb_spec configStartHeight 0) as [|_]; [lia|].
    destruct (Z.ltb_spec 0 configStartHeight); lia.
Qed.

Lemma restart_skips_no_block_witness :
  exists db' st' height',
    Scanner.catchUp env "mvc" Examples.attempts emptyDB Examples.syncStore 100 101
    = Some (db', st', height')
    /\ (SyncStatus.startHeight st' "mvc" 0 100 <= height')%Z
    /\ ((100 < height' - 1)%Z -> SyncStatus.startHeight st' "mvc" 0 100 = height').
Proof.
  apply (restart_skips_no_block env "mvc" Examples.attempts emptyDB
           Examples.syncStore 100 101
           (SyncStatus.mkIndexerSyncStatus 1 "mvc" 99 0 0) 0 100).
  - vm_compute. reflexivity.
  - reflexivity.
  - reflexivity.
  - vm_compute. reflexivity.
  - vm_compute. split; discriminate.
  - vm_compute. discriminate.
Defined.

(** ** Cleaned paths

    [Filepath.Clean] leaves a path it has produced as it is.  An element
    [e] of a path holds no separator when [Filepath.split e = [e]]. *)







Section Cleaned.

Import CleanedPath.




Lemma rev_dotdot dots : Forall dotdot dots -> rev dots = dots.
Proof.
  induction 1 as [|d dots Hd Hdots IH]; [reflexivity|].
  red in Hd. subst d. simpl. rewrite IH.
  clear IH. induction Hdots as [|d dots Hd _ IH]; [reflexivity|].
  red in Hd. subst d. simpl. by rewrite IH.
Qed.





End Cleaned.


(** ** Temporary deployments *)

Lemma firstMissing_None uploaded : forall n i,
  TempDeploy.firstMissing uploaded i n = None ->
  forall j, (i <= j < i + Z.of_nat n)%Z -> uploaded !! j = Some true.
Proof.
  induction n as [|n IH]; intros i Hnone j Hj; [lia|].
  cbn [TempDeploy.firstMissing] in Hnone.
  destruct (uploaded !! i) as [[|]|] eqn:Hi; simpl in Hnone; try discriminate.
  destruct (Z.eq_dec j i) as [->|Hne]; [exact Hi|].
  apply (IH (i + 1)%Z Hnone). lia.
Qed.

(** X28.  An upload with a chunk missing is never merged: as long as
    some index below the number of chunks has not been uploaded,
    [MergeChunks] returns an error and leaves the records and the files as
    they are. *)
Theorem MergeChunks_refuses_incomplete_upload (T : TempDeploy.TempEnv)
    (st : TempDeploy.Store) (fs : FileSystem) (uploadID : string)
    (uuid : result string) (now : Time) (upload : TempDeploy.TempAppChunkUpload)
    (missing : Z) :
  TempDeploy.GetTempAppChunkUploadByUploadID st uploadID = Ok upload ->
  (0 <= missing < TempDeploy.TotalChunks upload)%Z ->
  TempDeploy.UploadedChunks upload !! missing <> Some true ->
  exists e, TempDeploy.MergeChunks T st fs uploadID uuid now = (st, fs, Err e).
Proof.
  intros Hget Hrange Hmissing. unfold TempDeploy.MergeChunks. rewrite Hget.
  destruct (negb _); [eauto|].
  destruct (TempDeploy.firstMissing (TempDeploy.UploadedChunks upload) 0
              (Z.to_nat (TempDeploy.TotalChunks upload))) as [i|] eqn:Hfirst;
    [eauto|].
  destruct Hmissing.
  apply (firstMissing_None _ _ _ Hfirst). lia.
Qed.

Lemma mergeLoop_concat T uploadID zipFilePath (chunk : Z -> list byte) :
  forall n i fs merged,
  files fs !! zipFilePath = Some merged ->
  (forall k, (i <= k < i + Z.of_nat n)%Z ->
     files fs !! TempDeploy.chunkFilePath T uploadID k = Some (chunk k)
     /\ TempDeploy.chunkFilePath T uploadID k <> zipFilePath) ->
  exists fs',
    TempDeploy.mergeLoop T fs uploadID zipFilePath i n = (fs', None)
    /\ files fs' !! zipFilePath
       = Some (merged ++ concat (map chunk (seqZ i (Z.of_nat n))))%list
    /\ (forall p, p <> zipFilePath -> files fs' !! p = files fs !! p)
    /\ dirs fs' = dirs fs.
Proof.
  induction n as [|n IH]; intros i fs merged Hzip Hchunks.
  - exists fs. simpl. rewrite app_nil_r. by repeat split.
  - cbn [TempDeploy.mergeLoop].
    destruct (Hchunks i ltac:(lia)) as [Hi Hdistinct]. rewrite Hi, Hzip. simpl.
    destruct (IH (i + 1)%Z
                (OS.WriteFile fs zipFilePath (merged ++ chunk i))
                (merged ++ chunk i)%list)
      as (fs' & Hloop & Hmerged & Hothers & Hdirs).
    + simpl. by rewrite lookup_insert_eq.
    + intros k Hk. destruct (Hchunks k ltac:(lia)) as [Hck Hne].
      split; [|exact Hne]. simpl. by rewrite lookup_insert_ne.
    + exists fs'. split; [exact Hloop|]. split; [|split].
      * rewrite Hmerged. f_equal.
        replace (Z.of_nat (S n)) with (Z.succ (Z.of_nat n)) by lia.
        rewrite (seqZ_cons i) by lia. simpl.
        replace (Z.pred (Z.succ (Z.of_nat n))) with (Z.of_nat n) by lia.
        replace (Z.succ i) with (i + 1)%Z by lia.
        by rewrite <- app_assoc.
      * intros p Hp. rewrite Hothers by done. simpl. by rewrite lookup_insert_ne.
      * by rewrite Hdirs.
Qed.

(** X29.  The merged archive is the chunks put together in the order of
    their indices: when the chunk files of the indices below [n] are there
    and no merged archive is, the merging loop started on the archive just
    created ends without error, the archive holds the contents of the chunk
    files one after the other from index 0 up, and no other file has
    changed. *)
Theorem merged_archive_is_concatenation (T : TempDeploy.TempEnv)
    (fs : FileSystem) (uploadID zipFilePath : string) (n : Z)
    (chunk : Z -> list byte) :
  (forall k, (0 <= k < n)%Z ->
     files fs !! TempDeploy.chunkFilePath T uploadID k = Some (chunk k)) ->
  files fs !! zipFilePath = None ->
  exists fs',
    TempDeploy.mergeLoop T (OS.WriteFile fs zipFilePath []) uploadID zipFilePath
      0 (Z.to_nat n) = (fs', None)
    /\ files fs' !! zipFilePath = Some (concat (map chunk (seqZ 0 n)))
    /\ (forall p, p <> zipFilePath -> files fs' !! p = files fs !! p).
Proof.
  intros Hchunks Hfresh.
  destruct (Z.le_gt_cases 0 n) as [Hn|Hn].
  - destruct (mergeLoop_concat T uploadID zipFilePath chunk (Z.to_nat n) 0
                (OS.WriteFile fs zipFilePath []) [])
      as (fs' & Hloop & Hmerged & Hothers & _).
    + simpl. by rewrite lookup_insert_eq.
    + intros k Hk.
      assert (Hne : TempDeploy.chunkFilePath T uploadID k <> zipFilePath).
      { intros Heq. rewrite <- Heq, Hchunks in Hfresh by lia. discriminate. }
      split; [|exact Hne]. simpl. rewrite lookup_insert_ne by done.
      apply Hchunks. lia.
    + exists fs'. split; [exact Hloop|]. rewrite Z2Nat.id in Hmerged by lia.
      split; [exact Hmerged|].
      intros p Hp. rewrite Hothers by done. simpl. by rewrite lookup_insert_ne.
  - exists (OS.WriteFile fs zipFilePath []).
    replace (Z.to_nat n) with 0%nat by lia. simpl.
    split; [reflexivity|]. split.
    + rewrite lookup_insert_eq. by rewrite seqZ_nil by lia.
    + intros p Hp. by rewrite lookup_insert_ne.
Qed.

Lemma MergeChunks_refuses_incomplete_upload_witness :
  exists e,
    TempDeploy.MergeChunks Examples.tempEnv (fst Examples.halfUploaded)
      (snd Examples.halfUploaded) "u_1" (Ok "t-1") 2
    = (fst Examples.halfUploaded, snd Examples.halfUploaded, Err e).
Proof.
  apply (MergeChunks_refuses_incomplete_upload Examples.tempEnv
           (fst Examples.halfUploaded) (snd Examples.halfUploaded) "u_1"
           (Ok "t-1") 2 Examples.halfUploadedRecord 0).
  - vm_compute. reflexivity.
  - vm_compute. split; [discriminate|reflexivity].
  - vm_compute. discriminate.
Defined.

Lemma merged_archive_is_concatenation_witness :
  exists fs',
    TempDeploy.mergeLoop Examples.tempEnv
      (OS.WriteFile Examples.twoChunks "temp/chunks/u_1/merged.zip" [])
      "u_1" "temp/chunks/u_1/merged.zip" 0 (Z.to_nat 2) = (fs', None)
    /\ files fs' !! "temp/chunks/u_1/merged.zip"
       = Some (concat (map Examples.chunkOf (seqZ 0 2)))
    /\ (forall p, p <> "temp/chunks/u_1/merged.zip" ->
          files fs' !! p = files Examples.twoChunks !! p).
Proof.
  apply (merged_archive_is_concatenation Examples.tempEnv Examples.twoChunks
           "u_1" "temp/chunks/u_1/merged.zip" 2 Examples.chunkOf).
  - intros k Hk.
    assert (Hcases : k = 0%Z \/ k = 1%Z) by lia.
    destruct Hcases as [-> | ->]; vm_compute; reflexivity.
  - vm_compute. reflexivity.
Defined.

(** *** Uploads of a whole archive *)





